(** * cucumber: the time-triggered control engine of the watering system

    A shallow embedding of [src/cucumber.ino].  The sketch runs on an
    Arduino Mega (see the pin note of the source, line 92), so [int] and
    [unsigned int] are 16 bits wide and [unsigned long] is 32 bits wide.
    Epoch seconds ([time_t]) are kept as unbounded integers: the width of
    [time_t] is declared by the clock library, not by the sketch.

    On this board [float] and [double] are both IEEE 754 binary32.  A
    value of type [float] is kept as the rational number it stands for,
    and every arithmetic operation on floats rounds its exact result to
    binary32, to the nearest number with ties to even ([fl]).  The two
    zeros are not told apart, and a result of magnitude 2^128 or more,
    where binary32 has its infinities, is kept as the rounded rational:
    C leaves the conversion of an infinity to [long] undefined.  An [int]
    has 16 bits, so its conversion to [float] is exact. *)

From Stdlib Require Import ZArith QArith Qround Qminmax Qpower Qreduction.
From Stdlib Require Import List Bool Lia Lqa.
Import ListNotations.
Open Scope Z_scope.

(** ** Machine integers and the Arduino macros *)

Definition to_uint (z : Z) : Z := z mod 65536.
Definition to_ulong (z : Z) : Z := z mod 4294967296.

Definition HIGH : bool := true.
Definition LOW : bool := false.

(** ** binary32 arithmetic *)

Definition pow2 (e : Z) : Q := Qpower (2 # 1) e.

(** The binade of a positive number: the [e] with [2^(e-1) <= x < 2^e]. *)
Definition mag (x : Q) : Z :=
  let e0 := Z.log2 (Qnum x) - Z.log2 (Zpos (Qden x)) in
  if Qle_bool (pow2 e0) x then e0 + 1 else e0.

(** The nearest integer, a tie going to the even one. *)
Definition rne (x : Q) : Z :=
  let f := Qfloor x in
  match (x - inject_Z f ?= 1 # 2)%Q with
  | Lt => f
  | Gt => f + 1
  | Eq => if Z.even f then f else f + 1
  end.

(** The exponent of the last place of a positive number: a significand of
    24 bits, and no exponent below -149 (the subnormal numbers). *)
Definition ulpExp (x : Q) : Z := Z.max (mag x - 24) (-149).

Definition roundPos (x : Q) : Q :=
  (inject_Z (rne (x / pow2 (ulpExp x))) * pow2 (ulpExp x))%Q.

(** Rounding to binary32. *)
Definition fl (x : Q) : Q :=
  Qred match (x ?= 0)%Q with
       | Eq => 0%Q
       | Gt => roundPos x
       | Lt => (- roundPos (- x))%Q
       end.

(** The operations [+], [-], [*] and [/] on floats. *)
Definition fadd (x y : Q) : Q := fl (x + y).
Definition fsub (x y : Q) : Q := fl (x - y).
Definition fmul (x y : Q) : Q := fl (x * y).
Definition fdiv (x y : Q) : Q := fl (x / y).

(** [(long)x] on a float: truncation towards zero. *)
Definition Qtrunc (x : Q) : Z := Z.quot (Qnum x) (Zpos (Qden x)).

(** [#define round(x) ((x)>=0?(long)((x)+0.5):(long)((x)-0.5))], applied
    to a float: the sum and the difference are float operations. *)
Definition round (x : Q) : Z :=
  if Qle_bool 0 x then Qtrunc (fadd x (1 # 2)) else Qtrunc (fsub x (1 # 2)).

(** Arrays of six elements, read and written by index. *)
Definition upd {A : Type} (i : nat) (v : A) (l : list A) : list A :=
  firstn i l ++ match skipn i l with
                | [] => []
                | _ :: tl => v :: tl
                end.

Definition lineCount : Z := 6.
Definition lines : list nat := seq 0 6.

(** ** User configuration (source lines 26-47) *)

Record Settings := mkSettings {
  tempCoeff : Q;
  rainCoeff : Q;
  maxTally : Q;
  maxRain : Q;
  desiredLevels : list Z;
  bufferSize : list Z;
  fertTimes : list Z
}.

Definition settings : Settings :=
  {| tempCoeff := -9 # 1;
     rainCoeff := 27 # 1;
     maxTally := 180 # 1;
     maxRain := 20 # 1;
     desiredLevels := [20; 20; 20; 20; 20; 20];
     bufferSize := [60; 60; 60; 60; 60; 60];
     fertTimes := [20; 20; 20; 20; 20; 20] |}.

(** ** Pin configuration (source lines 94-120) *)

Module pins.
Definition trigger : Z := 43.
Definition echo : Z := 3.
Definition spin : list Z := [7; 5; 4; 39; 25; 27].
Definition read : list Z := [8; 6; 26; 23; 28; 31].
Definition pump : Z := 52.
Definition fertiliser : Z := 50.
Definition tapWater : Z := 47.
Definition tempSensor : Z := 9.
Definition rainSensor : Z := 18.
End pins.

(** ** Historical data of one day (source lines 52-58) *)

Record Day := mkDay {
  day : Z;
  maxTemp : Q;
  rainFlips : Z;
  waterTankLevel : Z;
  totalAdded : Z
}.

Definition emptyDay : Day :=
  {| day := -1; maxTemp := 0; rainFlips := 0; waterTankLevel := 0; totalAdded := 0 |}.

(** ** The clock reading [DateTime] *)

Record DateTime := mkDateTime {
  getWeekDay : Z;
  getHour : Z;
  getMinute : Z;
  getSecond : Z;
  getUnixTime : Z
}.

(** ** Global variables (source lines 125-187) *)

Module HaxSolenoidOn.
Record t := mk {
  desiredState : list bool;
  oldState : list Z;
  lock : Z
}.
End HaxSolenoidOn.

Module HaxTimers.
Record t := mk {
  haxTimerState : list Z;
  triggers : list Z;
  isOn : list bool
}.
End HaxTimers.

Module Watering.
Record t := mk {
  currentSolenoid : Z;
  tallies : list Q;
  finishTime : Z
}.
End Watering.

Module Fertilising.
Record t := mk {
  startTime : Z;
  currentSolenoid : Z;
  dumpCount : Z;
  finishTime : Z
}.
End Fertilising.

Module Menu.
Record t := mk {
  mode : Z;
  level : Z;
  activate : bool;
  changed : bool
}.
End Menu.

Module Automation.
Record t := mk {
  fertilise : bool;
  water : bool;
  fertPump : bool
}.
End Automation.

(** The state of the sketch.  [temperature] is the last value read by the
    temperature module; [pinLog] records every [digitalWrite], the most
    recent one first. *)
Record State := mkState {
  haxSolenoidOn : HaxSolenoidOn.t;
  haxTimers : HaxTimers.t;
  rainSensorTripped : bool;
  lastSecond : Z;
  waterTankUltrasonicTimer : Z;
  watering : Watering.t;
  fertilising : Fertilising.t;
  firstLoop : bool;
  menu : Menu.t;
  noPinInterrupts : Z;
  previousDays : list Day;
  time : DateTime;
  automation : Automation.t;
  temperature : Q;
  pinLog : list (Z * bool)
}.

(** What one pass of [loop] reads from the outside world. *)
Record Inputs := mkInputs {
  rtcNow : DateTime;
  solenoidRead : list bool;
  rainRead : bool;
  tempRead : Q
}.

(** ** Field updates *)

Definition set_haxSolenoidOn (h : HaxSolenoidOn.t) (st : State) : State :=
  mkState h (haxTimers st) (rainSensorTripped st) (lastSecond st)
    (waterTankUltrasonicTimer st) (watering st) (fertilising st) (firstLoop st)
    (menu st) (noPinInterrupts st) (previousDays st) (time st) (automation st)
    (temperature st) (pinLog st).

Definition set_haxTimers (h : HaxTimers.t) (st : State) : State :=
  mkState (haxSolenoidOn st) h (rainSensorTripped st) (lastSecond st)
    (waterTankUltrasonicTimer st) (watering st) (fertilising st) (firstLoop st)
    (menu st) (noPinInterrupts st) (previousDays st) (time st) (automation st)
    (temperature st) (pinLog st).

Definition set_rainSensorTripped (b : bool) (st : State) : State :=
  mkState (haxSolenoidOn st) (haxTimers st) b (lastSecond st)
    (waterTankUltrasonicTimer st) (watering st) (fertilising st) (firstLoop st)
    (menu st) (noPinInterrupts st) (previousDays st) (time st) (automation st)
    (temperature st) (pinLog st).

Definition set_lastSecond (z : Z) (st : State) : State :=
  mkState (haxSolenoidOn st) (haxTimers st) (rainSensorTripped st) z
    (waterTankUltrasonicTimer st) (watering st) (fertilising st) (firstLoop st)
    (menu st) (noPinInterrupts st) (previousDays st) (time st) (automation st)
    (temperature st) (pinLog st).

Definition set_waterTankUltrasonicTimer (z : Z) (st : State) : State :=
  mkState (haxSolenoidOn st) (haxTimers st) (rainSensorTripped st) (lastSecond st)
    z (watering st) (fertilising st) (firstLoop st)
    (menu st) (noPinInterrupts st) (previousDays st) (time st) (automation st)
    (temperature st) (pinLog st).

Definition set_watering (w : Watering.t) (st : State) : State :=
  mkState (haxSolenoidOn st) (haxTimers st) (rainSensorTripped st) (lastSecond st)
    (waterTankUltrasonicTimer st) w (fertilising st) (firstLoop st)
    (menu st) (noPinInterrupts st) (previousDays st) (time st) (automation st)
    (temperature st) (pinLog st).

Definition set_fertilising (f : Fertilising.t) (st : State) : State :=
  mkState (haxSolenoidOn st) (haxTimers st) (rainSensorTripped st) (lastSecond st)
    (waterTankUltrasonicTimer st) (watering st) f (firstLoop st)
    (menu st) (noPinInterrupts st) (previousDays st) (time st) (automation st)
    (temperature st) (pinLog st).

Definition set_firstLoop (b : bool) (st : State) : State :=
  mkState (haxSolenoidOn st) (haxTimers st) (rainSensorTripped st) (lastSecond st)
    (waterTankUltrasonicTimer st) (watering st) (fertilising st) b
    (menu st) (noPinInterrupts st) (previousDays st) (time st) (automation st)
    (temperature st) (pinLog st).

Definition set_menu (m : Menu.t) (st : State) : State :=
  mkState (haxSolenoidOn st) (haxTimers st) (rainSensorTripped st) (lastSecond st)
    (waterTankUltrasonicTimer st) (watering st) (fertilising st) (firstLoop st)
    m (noPinInterrupts st) (previousDays st) (time st) (automation st)
    (temperature st) (pinLog st).

Definition set_noPinInterrupts (z : Z) (st : State) : State :=
  mkState (haxSolenoidOn st) (haxTimers st) (rainSensorTripped st) (lastSecond st)
    (waterTankUltrasonicTimer st) (watering st) (fertilising st) (firstLoop st)
    (menu st) z (previousDays st) (time st) (automation st)
    (temperature st) (pinLog st).

Definition set_previousDays (d : list Day) (st : State) : State :=
  mkState (haxSolenoidOn st) (haxTimers st) (rainSensorTripped st) (lastSecond st)
    (waterTankUltrasonicTimer st) (watering st) (fertilising st) (firstLoop st)
    (menu st) (noPinInterrupts st) d (time st) (automation st)
    (temperature st) (pinLog st).

Definition set_time (t : DateTime) (st : State) : State :=
  mkState (haxSolenoidOn st) (haxTimers st) (rainSensorTripped st) (lastSecond st)
    (waterTankUltrasonicTimer st) (watering st) (fertilising st) (firstLoop st)
    (menu st) (noPinInterrupts st) (previousDays st) t (automation st)
    (temperature st) (pinLog st).

Definition set_automation (a : Automation.t) (st : State) : State :=
  mkState (haxSolenoidOn st) (haxTimers st) (rainSensorTripped st) (lastSecond st)
    (waterTankUltrasonicTimer st) (watering st) (fertilising st) (firstLoop st)
    (menu st) (noPinInterrupts st) (previousDays st) (time st) a
    (temperature st) (pinLog st).

Definition set_temperature (q : Q) (st : State) : State :=
  mkState (haxSolenoidOn st) (haxTimers st) (rainSensorTripped st) (lastSecond st)
    (waterTankUltrasonicTimer st) (watering st) (fertilising st) (firstLoop st)
    (menu st) (noPinInterrupts st) (previousDays st) (time st) (automation st)
    q (pinLog st).

Definition set_pinLog (l : list (Z * bool)) (st : State) : State :=
  mkState (haxSolenoidOn st) (haxTimers st) (rainSensorTripped st) (lastSecond st)
    (waterTankUltrasonicTimer st) (watering st) (fertilising st) (firstLoop st)
    (menu st) (noPinInterrupts st) (previousDays st) (time st) (automation st)
    (temperature st) l.

(** The day record at index [i] of [state.previousDays]. *)
Definition dayAt (i : nat) (st : State) : Day := nth i (previousDays st) emptyDay.

Definition set_day (i : nat) (d : Day) (st : State) : State :=
  set_previousDays (upd i d (previousDays st)) st.

(** ** Pin output *)

Definition digitalWrite (pin : Z) (v : bool) (st : State) : State :=
  set_pinLog ((pin, v) :: pinLog st) st.

(** The level an output pin is driven to: the last value written, [LOW]
    before the first write. *)
Fixpoint levelIn (pin : Z) (log : list (Z * bool)) : bool :=
  match log with
  | [] => LOW
  | (p, v) :: rest => if p =? pin then v else levelIn pin rest
  end.

Definition level (pin : Z) (st : State) : bool := levelIn pin (pinLog st).

(** The writes to one pin, oldest first. *)
Definition writesTo (pin : Z) (log : list (Z * bool)) : list bool :=
  rev (map snd (filter (fun e => fst e =? pin) log)).

Definition spinPin (i : nat) : Z := nth i pins.spin 0.
Definition spinning (i : nat) (st : State) : bool := level (spinPin i) st.

(** ** Statements

    A statement of the sketch changes the state; statements are put
    together in sequence, under a condition, or after reading a value. *)

Definition Stmt : Type := State -> State.

Definition skip : Stmt := fun st => st.
Definition andThen (f g : Stmt) : Stmt := fun st => g (f st).
Definition when (c : State -> bool) (f : Stmt) : Stmt :=
  fun st => if c st then f st else st.
Definition ifElse (c : State -> bool) (f g : Stmt) : Stmt :=
  fun st => if c st then f st else g st.
Definition reading {A : Type} (v : State -> A) (k : A -> Stmt) : Stmt :=
  fun st => k (v st) st.
Definition forLines (body : nat -> Stmt) : Stmt :=
  fun st => fold_left (fun s i => body i s) lines st.

Notation "f ;; g" := (andThen f g) (at level 61, right associativity).

(** Shorthands for the cells the statements read. *)
Definition now (st : State) : Z := getUnixTime (time st).
Definition oldStateOf (i : nat) (st : State) : Z :=
  nth i (HaxSolenoidOn.oldState (haxSolenoidOn st)) 0.
Definition desired (i : nat) (st : State) : bool :=
  nth i (HaxSolenoidOn.desiredState (haxSolenoidOn st)) false.
Definition lockOf (st : State) : Z := HaxSolenoidOn.lock (haxSolenoidOn st).
Definition wateringLine (st : State) : Z := Watering.currentSolenoid (watering st).
Definition fertLine (st : State) : Z := Fertilising.currentSolenoid (fertilising st).
Definition b2z (b : bool) : Z := if b then 1 else 0.

(** Assignments to single cells. *)
Definition set_oldState (i : nat) (v : Z) : Stmt := fun st =>
  let h := haxSolenoidOn st in
  set_haxSolenoidOn
    (HaxSolenoidOn.mk (HaxSolenoidOn.desiredState h)
                      (upd i v (HaxSolenoidOn.oldState h))
                      (HaxSolenoidOn.lock h)) st.

Definition set_lock (v : Z) : Stmt := fun st =>
  let h := haxSolenoidOn st in
  set_haxSolenoidOn
    (HaxSolenoidOn.mk (HaxSolenoidOn.desiredState h) (HaxSolenoidOn.oldState h) v) st.

Definition set_wateringLine (v : Z) : Stmt := fun st =>
  let w := watering st in
  set_watering (Watering.mk v (Watering.tallies w) (Watering.finishTime w)) st.

Definition set_wateringFinish (v : Z) : Stmt := fun st =>
  let w := watering st in
  set_watering (Watering.mk (Watering.currentSolenoid w) (Watering.tallies w) v) st.

Definition set_startTime (v : Z) : Stmt := fun st =>
  let f := fertilising st in
  set_fertilising
    (Fertilising.mk v (Fertilising.currentSolenoid f) (Fertilising.dumpCount f)
                    (Fertilising.finishTime f)) st.

Definition set_fertLine (v : Z) : Stmt := fun st =>
  let f := fertilising st in
  set_fertilising
    (Fertilising.mk (Fertilising.startTime f) v (Fertilising.dumpCount f)
                    (Fertilising.finishTime f)) st.

Definition set_dumpCount (v : Z) : Stmt := fun st =>
  let f := fertilising st in
  set_fertilising
    (Fertilising.mk (Fertilising.startTime f) (Fertilising.currentSolenoid f) v
                    (Fertilising.finishTime f)) st.

Definition set_fertFinish (v : Z) : Stmt := fun st =>
  let f := fertilising st in
  set_fertilising
    (Fertilising.mk (Fertilising.startTime f) (Fertilising.currentSolenoid f)
                    (Fertilising.dumpCount f) v) st.

Definition set_timerMode (i : nat) (v : Z) : Stmt := fun st =>
  let t := haxTimers st in
  set_haxTimers
    (HaxTimers.mk (upd i v (HaxTimers.haxTimerState t)) (HaxTimers.triggers t)
                  (HaxTimers.isOn t)) st.

Definition set_trigger (i : nat) (v : Z) : Stmt := fun st =>
  let t := haxTimers st in
  set_haxTimers
    (HaxTimers.mk (HaxTimers.haxTimerState t) (upd i v (HaxTimers.triggers t))
                  (HaxTimers.isOn t)) st.

Definition set_isOn (i : nat) (v : bool) : Stmt := fun st =>
  let t := haxTimers st in
  set_haxTimers
    (HaxTimers.mk (HaxTimers.haxTimerState t) (HaxTimers.triggers t)
                  (upd i v (HaxTimers.isOn t))) st.

Definition set_menuChanged (v : bool) : Stmt := fun st =>
  let m := menu st in
  set_menu (Menu.mk (Menu.mode m) (Menu.level m) (Menu.activate m) v) st.

(** Assignments to the cells of the current day, [state.previousDays[2]]. *)
Definition set_todayMaxTemp (v : Q) : Stmt := fun st =>
  let d := dayAt 2 st in
  set_day 2 (mkDay (day d) v (rainFlips d) (waterTankLevel d) (totalAdded d)) st.

Definition set_todayRainFlips (v : Z) : Stmt := fun st =>
  let d := dayAt 2 st in
  set_day 2 (mkDay (day d) (maxTemp d) v (waterTankLevel d) (totalAdded d)) st.

Definition set_todayTankLevel (v : Z) : Stmt := fun st =>
  let d := dayAt 2 st in
  set_day 2 (mkDay (day d) (maxTemp d) (rainFlips d) v (totalAdded d)) st.

Definition set_todayTotalAdded (v : Z) : Stmt := fun st =>
  let d := dayAt 2 st in
  set_day 2 (mkDay (day d) (maxTemp d) (rainFlips d) (waterTankLevel d) v) st.

(** ** The helper functions of the sketch (source lines 834-898) *)

(** [timeCheck] (line 835): true if the first value is negative or if the
    two values are equal. *)
Definition timeCheck (x v : Z) : bool := (x <? 0) || (x =? v).

(** [timeIs] (line 842), on the clock reading held in [state.time]. *)
Definition timeIs (weekDay hour min sec : Z) (st : State) : bool :=
  timeCheck weekDay (getWeekDay (time st))
  && timeCheck hour (getHour (time st))
  && timeCheck min (getMinute (time st))
  && timeCheck sec (getSecond (time st)).

(** [haxSolenoidSet] (line 846). *)
Definition haxSolenoidSet (hxs : Z) (newState : bool) : Stmt := fun st =>
  let h := haxSolenoidOn st in
  let i := Z.to_nat hxs in
  set_haxSolenoidOn
    (HaxSolenoidOn.mk (upd i newState (HaxSolenoidOn.desiredState h))
                      (upd i (-1) (HaxSolenoidOn.oldState h))
                      (HaxSolenoidOn.lock h)) st.

(** [waterTankUltrasonicEcho] (line 852), the interrupt handler; [echo] is
    the level of the echo pin and [micros] the microsecond counter. *)
Definition waterTankUltrasonicEcho (echo : bool) (micros : Z) : Stmt :=
  ifElse (fun st => negb (noPinInterrupts st =? 0))
    skip
    (ifElse (fun _ => echo)
       (set_waterTankUltrasonicTimer micros)
       (reading waterTankUltrasonicTimer (fun started =>
          set_todayTankLevel (to_ulong (micros - started))))).

(** [safeRelayWrite] (line 875). *)
Definition safeRelayWrite (pin : Z) (pinState : bool) : Stmt :=
  set_noPinInterrupts 2 ;; digitalWrite pin pinState.

(** [calcWater] (line 888).  [deltaWater] is the float of line 889:
    [min] is the macro [((a)<(b)?(a):(b))], and the two products and their
    sum are float operations.  [calcWaterLong] is the value of
    [max(0, round(..))], a [long]; returning it as [unsigned int] keeps its
    low 16 bits. *)
Definition deltaWater (cfg : Settings) (d : Day) : Q :=
  fadd (fmul (if negb (Qle_bool (inject_Z (rainFlips d)) (maxRain cfg))
              then maxRain cfg else inject_Z (rainFlips d))
             (rainCoeff cfg))
       (fmul (maxTemp d) (tempCoeff cfg)).

Definition calcWaterLong (cfg : Settings) (st : State) (dayIx : nat) (line : nat) : Z :=
  let current := fadd (nth line (Watering.tallies (watering st)) 0%Q)
                      (deltaWater cfg (dayAt dayIx st)) in
  let r := round (fsub (inject_Z (nth line (desiredLevels cfg) 0%Z)) current) in
  if r <? 0 then 0 else r.

Definition calcWater (cfg : Settings) (st : State) (dayIx : nat) (line : nat) : Z :=
  to_uint (calcWaterLong cfg st dayIx line).

(** [waterToMins] (line 896). *)
Definition waterToMins (water : Z) : Z :=
  water / 60 + (if water mod 60 =? 0 then 0 else 1).

(** ** One pass of [loop] (source lines 285-489) *)

(** The body of the solenoid loop (lines 290-307) for line [i], with
    [newState] the value read from the line's feedback pin. *)
Definition serviceSolenoid (i : nat) (newState : bool) : Stmt :=
  ifElse (fun st => (oldStateOf i st <? 0) || negb (eqb newState (desired i st)))
    (when (fun st => (lockOf st =? Z.of_nat i) || (lockOf st <? 0))
       (when (fun st => (oldStateOf i st <? 0)
                        && negb (getSecond (time st) =? lastSecond st))
          (reading (oldStateOf i) (fun old => set_oldState i (old + 1))) ;;
        digitalWrite (spinPin i) HIGH ;;
        set_lock (Z.of_nat i)))
    (when (fun st => negb (oldStateOf i st =? b2z newState))
       (digitalWrite (spinPin i) LOW ;;
        set_lock (-1))) ;;
  when (fun st => 0 <=? oldStateOf i st)
    (set_oldState i (b2z newState)).

(** The solenoid loop (lines 289-308). *)
Definition serviceSolenoids (reads : list bool) : Stmt :=
  forLines (fun i => serviceSolenoid i (nth i reads false)).

(** The rain edge counter (lines 311-314). *)
Definition rainEdge (rain : bool) : Stmt :=
  when (fun st => rain && negb (rainSensorTripped st))
    (set_rainSensorTripped true ;;
     reading (fun st => rainFlips (dayAt 2 st)) (fun n => set_todayRainFlips (n + 1))).

(** Lines 319-321. *)
Definition countDown : Stmt :=
  when (fun st => negb (noPinInterrupts st =? 0))
    (reading noPinInterrupts (fun n => set_noPinInterrupts (n - 1))).

(** Lines 324-326. *)
Definition rainReset (rain : bool) : Stmt :=
  when (fun _ => negb rain) (set_rainSensorTripped false).

(** Lines 329-349: the actions taken once a minute; [temp] is the value
    the temperature sensor delivers when it is read. *)
Definition everyMinute (temp : Q) : Stmt :=
  when (fun st => timeIs (-1) (-1) (-1) 0 st || firstLoop st)
    (set_temperature temp ;;
     when (fun st => negb (Qle_bool (temperature st) (maxTemp (dayAt 2 st))))
       (reading temperature set_todayMaxTemp) ;;
     when (fun st => noPinInterrupts st =? 0)
       (digitalWrite pins.trigger LOW ;;
        digitalWrite pins.trigger HIGH ;;
        digitalWrite pins.trigger LOW) ;;
     when (fun st => Menu.mode (menu st) =? 0)
       (set_menuChanged true)).

(** Lines 352-357: the daily pump run. *)
Definition pumpTimes : Stmt :=
  when (fun st => timeIs (-1) 7 10 0 st && Automation.fertPump (automation st))
    (safeRelayWrite pins.pump HIGH) ;;
  when (fun st => timeIs (-1) 7 12 0 st && Automation.fertPump (automation st))
    (safeRelayWrite pins.pump LOW).

(** Lines 361-367: the history moves on by one day. *)
Definition rotateDays : Stmt := fun st =>
  let d1 := dayAt 1 st in
  let d2 := dayAt 2 st in
  set_previousDays
    [d1; d2; mkDay (getWeekDay (time st)) (temperature st) 0 (waterTankLevel d2) 0]
    st.

(** Lines 360-372: the daily rotation of the history and the start of the
    watering sequence. *)
Definition dailyRotation : Stmt :=
  when (timeIs (-1) 8 0 0)
    (rotateDays ;;
     when (fun st => Automation.water (automation st))
       (set_wateringLine (-1))).

(** Lines 375-401: the watering sequence. *)
Definition wateringSequence (cfg : Settings) : Stmt :=
  when (fun st => (-1 <=? wateringLine st)
                  && (Watering.finishTime (watering st) <=? now st))
    (when (fun st => 0 <=? wateringLine st)
       (reading wateringLine (fun cur => haxSolenoidSet cur false)) ;;
     reading wateringLine (fun cur => set_wateringLine (cur + 1)) ;;
     ifElse (fun st => lineCount <=? wateringLine st)
       (set_wateringLine (-2) ;;
        set_wateringFinish 0)
       (reading (fun st => calcWater cfg st 1 (Z.to_nat (wateringLine st)))
          (fun added =>
             reading (fun st => totalAdded (dayAt 2 st))
               (fun total => set_todayTotalAdded (to_uint (total + added))) ;;
             when (fun st => to_uint (nth (Z.to_nat (wateringLine st))
                                          (bufferSize cfg) 0) <=? added)
               (reading now (fun t => set_wateringFinish (t + added)) ;;
                reading wateringLine (fun cur => haxSolenoidSet cur true))))).

(** Lines 407-409: the automatic start of the fertiliser sequence. *)
Definition fertiliseTrigger : Stmt :=
  when (fun st => timeIs 0 16 0 0 st && Automation.fertilise (automation st))
    (reading now set_startTime).

(** Lines 411-433: the four timed events that prime the manifold. *)
Definition fertilisePriming : Stmt :=
  when (fun st => now st =? Fertilising.startTime (fertilising st))
    (safeRelayWrite pins.tapWater HIGH) ;;
  when (fun st => now st =? Fertilising.startTime (fertilising st) + 32)
    (safeRelayWrite pins.tapWater LOW ;;
     safeRelayWrite pins.pump HIGH ;;
     safeRelayWrite pins.fertiliser HIGH) ;;
  when (fun st => now st =? Fertilising.startTime (fertilising st) + 40)
    (safeRelayWrite pins.tapWater HIGH ;;
     safeRelayWrite pins.pump LOW ;;
     safeRelayWrite pins.fertiliser LOW) ;;
  when (fun st => now st =? Fertilising.startTime (fertilising st) + 72)
    (safeRelayWrite pins.tapWater LOW ;;
     set_fertLine (-1) ;;
     set_startTime 0).

(** Lines 436-456: the sweep over the six lines, done three times. *)
Definition fertiliseSweep (cfg : Settings) : Stmt :=
  when (fun st => (-1 <=? fertLine st)
                  && (Fertilising.finishTime (fertilising st) <=? now st))
    (when (fun st => 0 <=? fertLine st)
       (reading fertLine (fun cur => haxSolenoidSet cur false)) ;;
     reading fertLine (fun cur => set_fertLine (cur + 1)) ;;
     ifElse (fun st => lineCount <=? fertLine st)
       (set_fertLine (-1) ;;
        set_fertFinish 0 ;;
        reading (fun st => Fertilising.dumpCount (fertilising st))
          (fun n => set_dumpCount (n + 1)) ;;
        when (fun st => Fertilising.dumpCount (fertilising st) =? 3)
          (set_fertLine (-2) ;;
           set_dumpCount 0))
       (when (fun st => 0 <? nth (Z.to_nat (fertLine st)) (fertTimes cfg) 0)
          (reading
             (fun st => now st + nth (Z.to_nat (fertLine st)) (fertTimes cfg) 0)
             set_fertFinish ;;
           reading fertLine (fun cur => haxSolenoidSet cur true)))).

(** The cells of the hack timer of line [i]. *)
Definition timerMode (i : nat) (st : State) : Z :=
  nth i (HaxTimers.haxTimerState (haxTimers st)) 0.
Definition timerTrigger (i : nat) (st : State) : Z :=
  nth i (HaxTimers.triggers (haxTimers st)) 0.
Definition timerIsOn (i : nat) (st : State) : bool :=
  nth i (HaxTimers.isOn (haxTimers st)) false.

(** The body of the hack timer loop (lines 461-481) for line [i]. *)
Definition haxTimer (i : nat) : Stmt :=
  when (fun st => 1 <? timerMode i st)
    (when (fun st => timerTrigger i st =? now st)
       (reading (timerIsOn i) (fun on => set_isOn i (negb on)) ;;
        reading (timerIsOn i) (fun on => haxSolenoidSet (Z.of_nat i) on) ;;
        ifElse (fun st => (timerMode i st =? 4) || (timerMode i st =? 5))
          (ifElse (timerIsOn i)
             (reading (fun st => timerTrigger i st
                                 + (if timerMode i st =? 4 then 600 else 1200))
                (set_trigger i))
             (reading (fun st => timerTrigger i st + 604800) (set_trigger i) ;;
              reading (fun st => timerTrigger i st
                                 - (if timerMode i st =? 4 then 600 else 1200))
                (set_trigger i)))
          (set_trigger i 0 ;;
           set_timerMode i 0))).

(** The hack timer loop (lines 460-482). *)
Definition haxTimersLoop : Stmt := forLines haxTimer.

(** Lines 486-488. *)
Definition endOfSecond : Stmt :=
  set_firstLoop false ;;
  reading (fun st => getSecond (time st)) set_lastSecond.

(** The timed procedures, run when the clock shows a new second (the body
    of the conditional of lines 317-489). *)
Definition everySecond (cfg : Settings) (rain : bool) (temp : Q) : Stmt :=
  countDown ;;
  rainReset rain ;;
  everyMinute temp ;;
  pumpTimes ;;
  dailyRotation ;;
  wateringSequence cfg ;;
  fertiliseTrigger ;;
  fertilisePriming ;;
  fertiliseSweep cfg ;;
  haxTimersLoop ;;
  endOfSecond.

(** Lines 286-314: what every pass does before the timed procedures. *)
Definition everyPass (inp : Inputs) : Stmt :=
  set_time (rtcNow inp) ;;
  serviceSolenoids (solenoidRead inp) ;;
  rainEdge (rainRead inp).

(** One pass of [loop] up to line 489.  The rest of [loop] reads the
    joystick and draws the menu; the two menu commands that start
    sequences of the engine are given below. *)
Definition loop (cfg : Settings) (inp : Inputs) : Stmt :=
  everyPass inp ;;
  when (fun st => negb (getSecond (time st) =? lastSecond st))
    (everySecond cfg (rainRead inp) (tempRead inp)).

(** Menu mode 7, activated (lines 675-677). *)
Definition menuFertilise : Stmt :=
  when (fun st => Fertilising.startTime (fertilising st) =? 0)
    (reading now (fun t => set_startTime (t + 1))).

(** The hack timer menu of line [hxs], activated at [level] (lines 747-806). *)
Definition menuHaxTimer (hxs : nat) (level : Z) : Stmt :=
  let arm (trig : State -> Z) (on : bool) : Stmt :=
    reading trig (set_trigger hxs) ;;
    set_isOn hxs on ;;
    haxSolenoidSet (Z.of_nat hxs) on in
  set_timerMode hxs level ;;
  ifElse (fun _ => level =? 0) (arm (fun _ => 0) false)
    (ifElse (fun _ => level =? 1) (arm (fun _ => 0) true)
       (ifElse (fun _ => (level =? 2) || (level =? 4))
          (arm (fun st => now st + 600) true)
          (when (fun _ => (level =? 3) || (level =? 5))
             (arm (fun st => now st + 1200) true)))).

(** ** The state after [setup] (initialisers of lines 125-187, then lines
    234-275).  [eeprom] holds the three automation switches and [start] is
    the first clock reading. *)
Definition setup (cfg : Settings) (eeprom : Automation.t) (start : DateTime) : State :=
  {| haxSolenoidOn :=
       HaxSolenoidOn.mk (repeat false 6) (repeat (-1) 6) (-1);
     haxTimers := HaxTimers.mk (repeat 0 6) (repeat 0 6) (repeat false 6);
     rainSensorTripped := false;
     lastSecond := -1;
     waterTankUltrasonicTimer := 0;
     watering := Watering.mk (-2) (map inject_Z (desiredLevels cfg)) 0;
     fertilising := Fertilising.mk 0 (-2) 0 0;
     firstLoop := true;
     menu := Menu.mk 0 0 false false;
     noPinInterrupts := 0;
     previousDays :=
       [emptyDay; emptyDay;
        mkDay (getWeekDay start) 0 0 0 0];
     time := start;
     automation := eeprom;
     temperature := 0;
     pinLog := [] |}.

(** Runs of [loop] over a list of inputs. *)
Definition runLoop (cfg : Settings) (inps : list Inputs) : Stmt :=
  fun st => fold_left (fun s inp => loop cfg inp s) inps st.

(** ** What a statement leaves alone, and what it maintains *)

Definition keeps {A : Type} (proj : State -> A) (f : Stmt) : Prop :=
  forall st, proj (f st) = proj st.

Definition preserves (P : State -> Prop) (f : Stmt) : Prop :=
  forall st, P st -> P (f st).

(** ** Well-formed states: every per-line array has six cells and the
    history has three days. *)
Definition wf (st : State) : Prop :=
  length (HaxSolenoidOn.desiredState (haxSolenoidOn st)) = 6%nat
  /\ length (HaxSolenoidOn.oldState (haxSolenoidOn st)) = 6%nat
  /\ length (HaxTimers.haxTimerState (haxTimers st)) = 6%nat
  /\ length (HaxTimers.triggers (haxTimers st)) = 6%nat
  /\ length (HaxTimers.isOn (haxTimers st)) = 6%nat
  /\ length (previousDays st) = 3%nat.

(** A pass of [loop] that runs the timed procedures. *)
Definition newSecond (inp : Inputs) (st : State) : Prop :=
  getSecond (rtcNow inp) <> lastSecond st.

(** [oncePerSecond last t inps]: the passes [inps] each see a new second,
    at the epoch seconds [t], [t+1], [t+2], ... *)
Fixpoint oncePerSecond (last t : Z) (inps : list Inputs) : Prop :=
  match inps with
  | [] => True
  | inp :: rest =>
      getSecond (rtcNow inp) <> last
      /\ getUnixTime (rtcNow inp) = t
      /\ oncePerSecond (getSecond (rtcNow inp)) (t + 1) rest
  end.

(** The writes to the three relay pins, most recent first. *)
Definition isRelay (pin : Z) : bool :=
  (pin =? pins.pump) || (pin =? pins.fertiliser) || (pin =? pins.tapWater).

Definition relayLog (st : State) : list (Z * bool) :=
  filter (fun e => isRelay (fst e)) (pinLog st).


(** ** The relay gate *)

(** A statement is [gated] when every write it makes to a relay pin sets
    the cooldown counter: either it writes to no relay and leaves the
    counter alone, or it writes to one and leaves the counter at 2. *)
Definition gated (f : Stmt) : Prop :=
  forall st,
    (relayLog (f st) = relayLog st /\ noPinInterrupts (f st) = noPinInterrupts st)
    \/ ((length (relayLog st) < length (relayLog (f st)))%nat
        /\ noPinInterrupts (f st) = 2).

(** A statement only adds to the log of relay writes. *)
Definition relayExtends (f : Stmt) : Prop :=
  forall st, exists more, relayLog (f st) = more ++ relayLog st.

(** ** The dosage model in the words of the specification

    [dose = max(0, round(desiredLevel - (tally + min(maxRainAllowed,
    rainfallEventCount) * rainCoefficient + maxTemperature *
    temperatureCoefficient)))], in exact arithmetic, with [round] rounding
    to the nearest integer, halves away from zero. *)
Definition roundNearest (x : Q) : Z :=
  if Qle_bool 0 x then Qfloor (x + (1 # 2))%Q else Qceiling (x - (1 # 2))%Q.

Definition specDose (cfg : Settings) (desired : Z) (tally : Q) (rec : Day) : Z :=
  Z.max 0
    (roundNearest
       (inject_Z desired
        - (tally + Qmin (maxRain cfg) (inject_Z (rainFlips rec)) * rainCoeff cfg
           + maxTemp rec * tempCoeff cfg))%Q).

(** ** Views of the state used by the theorems *)

(** The hack timer of line [i]: its mode, its trigger time and its on flag. *)
Definition timerOf (i : nat) (st : State) : Z * Z * bool :=
  (timerMode i st, timerTrigger i st, timerIsOn i st).

(** What the hack timer loop does to the timer of one line in a pass at
    epoch second [t] (shown equal to the code by [timerOf_haxTimer]). *)
Definition timerStep (t : Z) (tm : Z * Z * bool) : Z * Z * bool :=
  let '(mode, trig, on) := tm in
  if (1 <? mode) && (trig =? t) then
    if (mode =? 4) || (mode =? 5) then
      let span := if mode =? 4 then 600 else 1200 in
      (mode, (if negb on then trig + span else trig + 604800 - span), negb on)
    else (0, 0, negb on)
  else tm.

(** ** Statements of the specification that the code does not meet *)

(** "When the trigger time is reached, a non-weekly timed mode toggles
    [isOn] once and leaves the timer's mode unchanged." *)
Definition oneShotKeepsMode : Prop :=
  forall (cfg : Settings) (inp : Inputs) (st : State) (i : nat),
    wf st -> (i < 6)%nat -> newSecond inp st ->
    timerMode i st = 2 \/ timerMode i st = 3 ->
    timerTrigger i st = getUnixTime (rtcNow inp) ->
    timerIsOn i (loop cfg inp st) = negb (timerIsOn i st)
    /\ timerMode i (loop cfg inp st) = timerMode i st.

(** ** Concrete scenarios *)

(** The controller is switched on on a Tuesday (weekday 2, the days being
    numbered from 0, Sunday) at 12:00:00, epoch second 1000000 of the
    clock, with the three automation switches on. *)
Definition bootClock : DateTime := mkDateTime 2 12 0 0 1000000.
Definition allOn : Automation.t := Automation.mk true true true.
Definition booted : State := setup settings allOn bootClock.

(** A pass in which every feedback pin and the rain sensor read low and the
    temperature sensor delivers 20 degrees. *)
Definition quietPass (t : DateTime) : Inputs :=
  mkInputs t (repeat false 6) false (20 # 1).

(** Line 0 is put in mode [Timer10Weekly] from the menu right after the
    start; the timer switches the line off at 12:10:00. *)
Definition weeklyArmed : State := menuHaxTimer 0 4 booted.
Definition weeklyOff : State :=
  loop settings (quietPass (mkDateTime 2 12 9 59 1604799))
    (loop settings (quietPass (mkDateTime 2 12 10 0 1000600)) weeklyArmed).
Definition weekLater : list Inputs :=
  [quietPass (mkDateTime 2 12 10 0 1604800);
   quietPass (mkDateTime 2 12 10 1 1604801)].

(** Line 0 is put in mode [Timer10] from the menu right after the start. *)
Definition oneShotArmed : State := menuHaxTimer 0 2 booted.
Definition tenMinutesLater : Inputs := quietPass (mkDateTime 2 12 10 0 1000600).

(** The pump relay is switched from the menu after the first pass. *)
Definition firstPass : State := loop settings (quietPass bootClock) booted.
Definition pumpSwitched : State := safeRelayWrite pins.pump HIGH firstPass.
Definition oneSecondLater : Inputs := quietPass (mkDateTime 2 12 0 1 1000001).
Definition twoSecondsLater : Inputs := quietPass (mkDateTime 2 12 0 2 1000002).

(** The next morning: the passes at 07:09:59, 07:10:00, 07:11:59 and
    07:12:00. *)
Definition beforeTenPast : State :=
  loop settings (quietPass (mkDateTime 3 7 9 59 1068999)) firstPass.
Definition tenPastSeven : Inputs := quietPass (mkDateTime 3 7 10 0 1069000).
Definition beforeTwelvePast : State :=
  loop settings (quietPass (mkDateTime 3 7 11 59 1069119))
    (loop settings tenPastSeven beforeTenPast).
Definition twelvePastSeven : Inputs := quietPass (mkDateTime 3 7 12 0 1069120).

(** The Sunday after (weekday 0): the passes at 15:59:59 and at 16:00:00. *)
Definition beforeSundayAfternoon : State :=
  loop settings (quietPass (mkDateTime 0 15 59 59 1446399)) firstPass.
Definition sundayAfternoon : Inputs := quietPass (mkDateTime 0 16 0 0 1446400).

(** "For some clock reading with weekday in the clock contract's range
    1..7, hour 16, minute 0, second 0, the automatic trigger condition
    holds." *)
Definition autoStartInContractRange : Prop :=
  exists (st : State) (d : DateTime),
    1 <= getWeekDay d <= 7 /\ getHour d = 16 /\ getMinute d = 0
    /\ getSecond d = 0 /\ timeIs 0 16 0 0 (set_time d st) = true.



(** The first pass after [setup] reads the temperature sensor: a pass in
    which it delivers the binary32 number 7456533 / 2^27 (just above
    1/18), and one in which it delivers 7282 degrees. *)
Definition sensorPass (temp : Q) : Inputs :=
  mkInputs bootClock (repeat false 6) false temp.
Definition coolStart : State :=
  loop settings (sensorPass (7456533 # 134217728)) booted.
Definition hotStart : State := loop settings (sensorPass (7282 # 1)) booted.

(** The scenario of the specification: yesterday the rain sensor tripped 5
    times and the maximum temperature was 30 degrees; the watering sequence
    has finished line 2 and the clock shows epoch second 1072000. *)
Definition yesterday : Day := mkDay 2 (30 # 1) 5 0 0.

(** The feedback switch of line 0 bounces once after the line has stopped:
    four passes, the last three within one second. *)
Definition feedback (t : DateTime) (line0 : bool) : Inputs :=
  mkInputs t [line0; false; false; false; false; false] false (20 # 1).
Definition bounce : list Inputs :=
  [feedback (mkDateTime 2 12 0 0 1000000) true;
   feedback (mkDateTime 2 12 0 1 1000001) false;
   feedback (mkDateTime 2 12 0 1 1000001) true;
   feedback (mkDateTime 2 12 0 1 1000001) false].

(** ** The two sequences, seen on their own cells *)

(** The cursor and the finish time of the watering sequence. *)
Definition wateringView (st : State) : Z * Z :=
  (wateringLine st, Watering.finishTime (watering st)).

(** What the watering sequence does to its cursor and finish time in a
    pass at epoch second [t], when [dose i] is the result of [calcWater]
    for line [i] (shown equal to the code by [wateringView_wateringSequence]). *)
Definition wateringStep (cfg : Settings) (dose : nat -> Z) (t : Z) (w : Z * Z) : Z * Z :=
  let '(cur, fin) := w in
  if (-1 <=? cur) && (fin <=? t) then
    if lineCount <=? cur + 1 then (-2, 0)
    else if to_uint (nth (Z.to_nat (cur + 1)) (bufferSize cfg) 0)
            <=? dose (Z.to_nat (cur + 1))
         then (cur + 1, t + dose (Z.to_nat (cur + 1)))
         else (cur + 1, fin)
  else w.

(** The value an observation takes after each pass of a run. *)
Fixpoint trace {A : Type} (obs : State -> A) (cfg : Settings)
    (inps : list Inputs) (st : State) : list A :=
  match inps with
  | [] => []
  | inp :: rest => obs (loop cfg inp st) :: trace obs cfg rest (loop cfg inp st)
  end.

(** No pass of the run shows 08:00:00, the time of the daily rotation. *)
Definition noRotation (inp : Inputs) : Prop :=
  getHour (rtcNow inp) <> 8 \/ getMinute (rtcNow inp) <> 0
  \/ getSecond (rtcNow inp) <> 0.

(** The pass shows 08:00:00. *)
Definition atRotation (inp : Inputs) : Prop :=
  getHour (rtcNow inp) = 8 /\ getMinute (rtcNow inp) = 0
  /\ getSecond (rtcNow inp) = 0.

(** The number of passes the watering cursor stays on line [i]: the dose in
    seconds if the line is opened, one pass if it is skipped. *)
Definition wateringDwell (cfg : Settings) (st : State) (i : nat) : nat :=
  let added := calcWater cfg st 1 i in
  if to_uint (nth i (bufferSize cfg) 0) <=? added
  then Z.to_nat (Z.max 1 added) else 1%nat.

(** The cursor values of one sweep over the lines [ls]. *)
Definition sweepOf (dwell : nat -> nat) (ls : list nat) : list Z :=
  flat_map (fun i => repeat (Z.of_nat i) (dwell i)) ls.

(** The clock one second later. *)
Definition tick (t : DateTime) : DateTime :=
  let s := getSecond t + 1 in
  let m := getMinute t + (if s =? 60 then 1 else 0) in
  let h := getHour t + (if m =? 60 then 1 else 0) in
  let d := getWeekDay t + (if h =? 24 then 1 else 0) in
  mkDateTime (if d =? 7 then 0 else d) (if h =? 24 then 0 else h)
             (if m =? 60 then 0 else m) (if s =? 60 then 0 else s)
             (getUnixTime t + 1).

(** [n] quiet passes, one per second, the first at clock reading [t]. *)
Fixpoint quietSeconds (n : nat) (t : DateTime) : list Inputs :=
  match n with
  | O => []
  | S n' => quietPass t :: quietSeconds n' (tick t)
  end.

(** The morning after the day of the scenario: the state at 07:59:59, with
    the day of the scenario as the current day, and the passes from
    08:00:00 on. *)
Definition beforeEight : State :=
  set_lastSecond 59
    (set_time (mkDateTime 3 7 59 59 1071999)
       (set_previousDays [emptyDay; emptyDay; mkDay 2 (30 # 1) 5 0 0] booted)).
Definition eightOClock : DateTime := mkDateTime 3 8 0 0 1072000.

(** The state in which the rotation of 08:00:00 leaves the sequence. *)
Definition wateringStarted : State :=
  set_lastSecond 0
    (set_wateringLine (-1)
       (set_time eightOClock
          (set_previousDays [emptyDay; yesterday; mkDay 3 0 0 0 0] booted))).

(** The automatic trigger of line 407 fires in a pass on a new second
    that shows weekday 0, 16:00:00, with the fertilising switch on. *)
Definition autoStart (st : State) (inp : Inputs) : bool :=
  timeIs 0 16 0 0 (set_time (rtcNow inp) st)
  && Automation.fertilise (automation st).

(** Priming starts at epoch second [start] with the run [inps]: the start
    time is set to [start] already (by the menu), or the automatic trigger
    fires in the first pass of the run. *)
Definition startsAt (st : State) (inps : list Inputs) (start : Z) : Prop :=
  Fertilising.startTime (fertilising st) = start
  \/ match inps with
     | inp :: _ => autoStart st inp = true
     | [] => False
     end.

(** The automatic trigger does not start the sequence again: it fires in
    no pass of the run other than one at [start] itself. *)
Definition calm (st : State) (start : Z) (inp : Inputs) : Prop :=
  autoStart st inp = true -> getUnixTime (rtcNow inp) = start.

Definition notRestarted (st : State) (inps : list Inputs) (start : Z) : Prop :=
  Forall (calm st start) inps.

(** What the priming events do to the cells of the fertilising sequence in
    a pass at epoch second [t] (shown equal to the code by
    [fertilising_fertilisePriming]). *)
Definition primingStep (t : Z) (f : Fertilising.t) : Fertilising.t :=
  if t =? Fertilising.startTime f + 72
  then Fertilising.mk 0 (-1) (Fertilising.dumpCount f) (Fertilising.finishTime f)
  else f.

(** The relay writes of the priming events in a pass at epoch second [t]
    with start time [s], the most recent one first. *)
Definition primingWrites (t s : Z) : list (Z * bool) :=
  (if t =? s + 72 then [(pins.tapWater, LOW)] else [])
  ++ (if t =? s + 40
      then [(pins.fertiliser, LOW); (pins.pump, LOW); (pins.tapWater, HIGH)]
      else [])
  ++ (if t =? s + 32
      then [(pins.fertiliser, HIGH); (pins.pump, HIGH); (pins.tapWater, LOW)]
      else [])
  ++ (if t =? s then [(pins.tapWater, HIGH)] else []).

(** What the sweep does to the cells of the fertilising sequence in a pass
    at epoch second [t] (shown equal to the code by
    [fertilising_fertiliseSweep]). *)
Definition sweepStep (cfg : Settings) (t : Z) (f : Fertilising.t) : Fertilising.t :=
  let cur := Fertilising.currentSolenoid f in
  if (-1 <=? cur) && (Fertilising.finishTime f <=? t) then
    if lineCount <=? cur + 1 then
      if Fertilising.dumpCount f + 1 =? 3
      then Fertilising.mk (Fertilising.startTime f) (-2) 0 0
      else Fertilising.mk (Fertilising.startTime f) (-1)
                          (Fertilising.dumpCount f + 1) 0
    else if 0 <? nth (Z.to_nat (cur + 1)) (fertTimes cfg) 0 then
      Fertilising.mk (Fertilising.startTime f) (cur + 1) (Fertilising.dumpCount f)
                     (t + nth (Z.to_nat (cur + 1)) (fertTimes cfg) 0)
    else
      Fertilising.mk (Fertilising.startTime f) (cur + 1) (Fertilising.dumpCount f)
                     (Fertilising.finishTime f)
  else f.

(** The fertilising sequence is started from the menu after the first pass:
    priming starts at epoch second 1000001. *)
Definition primed : State := menuFertilise firstPass.
Definition primingStart : DateTime := mkDateTime 2 12 0 1 1000001.

(** The clock of the Sunday after, at 16:00:00 (weekday 0). *)
Definition sundayFour : DateTime := mkDateTime 0 16 0 0 1446400.

(** The fertilising sequence is started from the menu on that Sunday after
    the pass of 15:59:29: priming starts at epoch second 1446370, thirty
    seconds before the automatic trigger fires. *)
Definition lateStart : State :=
  menuFertilise (loop settings (quietPass (mkDateTime 0 15 59 29 1446369)) firstPass).
Definition lateStartClock : DateTime := mkDateTime 0 15 59 30 1446370.

(** "Once priming has started at [start], the pass at [start + 32] closes
    tap-water and opens the pump and the fertiliser valve." *)
Definition primingOffsetsHold : Prop :=
  forall (cfg : Settings) (inps : list Inputs) (st : State) (start : Z),
    Fertilising.startTime (fertilising st) = start ->
    oncePerSecond (lastSecond st) start inps ->
    length inps = 33%nat ->
    level pins.tapWater (runLoop cfg inps st) = LOW
    /\ level pins.pump (runLoop cfg inps st) = HIGH
    /\ level pins.fertiliser (runLoop cfg inps st) = HIGH.

(** While the second sweep of the sequence that started at 1000001 is
    under way, after the pass of 12:04:10, the menu starts the sequence
    again: [startTime] is 0 since the priming ended, so the command is
    taken, and priming starts at epoch second 1000251. *)
Definition midSweep : State :=
  menuFertilise (runLoop settings (quietSeconds 250 primingStart) primed).
Definition midSweepClock : DateTime := mkDateTime 2 12 4 11 1000251.

(** The cursor and the repetition counter of the fertilising sequence. *)
Definition fertView (st : State) : Z * Z :=
  (fertLine st, Fertilising.dumpCount (fertilising st)).

(** The number of passes the fertilising cursor stays on line [i]: the
    configured time if it is positive, one pass if the line is skipped. *)
Definition fertDwell (cfg : Settings) (i : nat) : nat :=
  if 0 <? nth i (fertTimes cfg) 0 then Z.to_nat (nth i (fertTimes cfg) 0) else 1%nat.

(** One sweep of repetition [rep] over the lines [ls]. *)
Definition fertSweepOf (cfg : Settings) (rep : nat) (ls : list nat) : list (Z * Z) :=
  flat_map (fun i => repeat (Z.of_nat i, Z.of_nat rep) (fertDwell cfg i)) ls.

(** [n] further sweeps, the first of them repetition [rep]; each begins
    with one pass at Starting (-1). *)
Fixpoint sweepsFrom (cfg : Settings) (n rep : nat) : list (Z * Z) :=
  match n with
  | O => []
  | S n' => (-1, Z.of_nat rep) :: fertSweepOf cfg rep lines ++ sweepsFrom cfg n' (S rep)
  end.

(** The schedule of a whole fertilising sequence: 72 passes of priming,
    then three sweeps. *)
Definition fertSchedule (cfg : Settings) : list (Z * Z) :=
  repeat (-2, 0) 72 ++ fertSweepOf cfg 0 lines ++ sweepsFrom cfg 2 1.


(** The number of priming sequences a state has seen: each one opens the
    fertiliser valve once, and no other timed procedure opens it. *)
Definition primingsIn (log : list (Z * bool)) : nat :=
  length (filter (fun e => (fst e =? pins.fertiliser) && snd e) log).

Definition primingCount (st : State) : nat := primingsIn (relayLog st).


(** * The rest of the sketch: persistent memory, the display helpers and
    the menu *)

(** ** Software constants (source lines 73-86) *)

Module softwareConstants.
Definition modeCount : Z := 9.
Definition mainScreenLevels : Z := 4.
Definition automationSwitches : Z := 4.
Definition waterTankHeight : Z := 100.
End softwareConstants.

(** ** Persistent memory (source lines 230-236 and 880-886) *)

(** The EEPROM of the board: a byte at every address. *)
Definition EEPROM : Type := Z -> Z.

(** [EEPROM.update(addr, byte)]: the cell at [addr] holds the byte. *)
Definition EEPROM_update (addr byte : Z) (e : EEPROM) : EEPROM :=
  fun a => if a =? addr then byte mod 256 else e a.

(** [getEEPROMBit] (line 880): [EEPROM.read(addr) & 1 << bit], taken as a
    [bool]. *)
Definition getEEPROMBit (e : EEPROM) (addr bit : Z) : bool :=
  negb (Z.land (e addr) (Z.shiftl 1 bit) =? 0).

(** [updatePersistentMemory] (line 884). *)
Definition updatePersistentMemory (st : State) (e : EEPROM) : EEPROM :=
  let a := automation st in
  EEPROM_update softwareConstants.automationSwitches
    (b2z (Automation.fertilise a) + b2z (Automation.water a) * 2
     + b2z (Automation.fertPump a) * 4) e.

(** Lines 231-233 of [setup]: the three automation switches are read back
    from the EEPROM. *)
Definition readSwitches (e : EEPROM) : Automation.t :=
  Automation.mk
    (getEEPROMBit e softwareConstants.automationSwitches 0)
    (getEEPROMBit e softwareConstants.automationSwitches 1)
    (getEEPROMBit e softwareConstants.automationSwitches 2).

(** ** Scenarios with a skipped tick *)

(** The pass of 12:10:00 does not happen (the sketch was busy); the next
    pass shows 12:10:01. *)
Definition afterTenMinutes : Inputs := quietPass (mkDateTime 2 12 10 1 1000601).

(** Priming has run up to the pass of [start + 40]; the next pass the
    sketch makes is the one of [start + 80]. *)
Definition primingUnderWay : State :=
  runLoop settings (quietSeconds 41 primingStart) primed.
Definition afterPriming : Inputs := quietPass (mkDateTime 2 12 1 21 1000081).

(** ** The rain counter *)



(** The timed procedures before and after the daily rotation. *)
Definition beforeRotation (r : bool) (q : Q) : Stmt :=
  countDown ;; rainReset r ;; everyMinute q ;; pumpTimes.
Definition afterRotation (cfg : Settings) : Stmt :=
  wateringSequence cfg ;; fertiliseTrigger ;; fertilisePriming ;;
  fertiliseSweep cfg ;; haxTimersLoop ;; endOfSecond.


(** ** Scenarios of the daily history *)

(** A warm minute: the pass of 12:01:00 reads 31 degrees. *)
Definition warmMinute : list Inputs :=
  [mkInputs (mkDateTime 2 12 0 59 1000059) (repeat false 6) false (25 # 1);
   mkInputs (mkDateTime 2 12 1 0 1000060) (repeat false 6) false (31 # 1);
   mkInputs (mkDateTime 2 12 1 1 1000061) (repeat false 6) false (18 # 1)].

(** The pass of 08:00:00 on the morning after the day of the scenario,
    with the rain sensor tripping and 17 degrees. *)
Definition rotationPass : Inputs :=
  mkInputs eightOClock (repeat false 6) true (17 # 1).

(** ** The display helpers (source lines 865-872) *)

(** A value converted to [int]: 16 bits, two's complement. *)
Definition to_int (z : Z) : Z := (z + 32768) mod 65536 - 32768.

Module Display.
(** [waterTankLevel] (line 865): the tank level in percent from the length
    of the echo pulse in microseconds.  The literal, the pulse length and
    the height of the tank are taken to [float]; the product and the
    quotient are rounded to [float] one after the other. *)
Definition waterTankLevel (time : Z) : Z :=
  to_int (100 - round (fdiv (fmul (fl (1715 # 1000)) (fl (inject_Z time)))
                            (fl (inject_Z softwareConstants.waterTankHeight)))).

(** [flipsToMils] (line 870). *)
Definition flipsToMils (flips : Z) : Q := fmul (fl (45 # 100)) (fl (inject_Z flips)).

(** The forecast of the main screen (lines 559-565): the doses of the six
    lines from the record of the current day, added up in an
    [unsigned int] and shown in minutes. *)
Definition forecastMinutes (cfg : Settings) (st : State) : Z :=
  waterToMins
    (fold_left (fun total i => to_uint (total + calcWater cfg st 2 i)) lines 0).
End Display.

(** The rounded quotient [waterTankLevel] takes from 100. *)
Definition tankRound (time : Z) : Z :=
  round (fdiv (fmul (fl (1715 # 1000)) (fl (inject_Z time)))
              (fl (inject_Z softwareConstants.waterTankHeight))).

(** ** The menu (source lines 493-818) *)

Record MenuJoystickSettings := mkMenuJoystickSettings {
  joystickSensitivity : Z;
  buttonSensitivity : Z
}.

(** Source lines 41-44. *)
Definition menuJoystickSettings : MenuJoystickSettings :=
  {| joystickSensitivity := 300; buttonSensitivity := 100 |}.

(** [JSAxis] (line 824): a joystick axis read as -1, 0 or 1. *)
Definition JSAxis (js : MenuJoystickSettings) (x : Z) : Z :=
  if x <? joystickSensitivity js then -1
  else if 1023 - joystickSensitivity js <? x then 1
  else 0.

(** [state.menuJoystick]: what the joystick read in the pass before. *)
Module MenuJoystick.
Record t := mk {
  x : Z;
  y : Z;
  button : bool
}.
End MenuJoystick.

(** The three analog readings of the joystick in one pass. *)
Record Panel := mkPanel {
  analogX : Z;
  analogY : Z;
  analogButton : Z
}.

(** The whole sketch: the state of the engine, the joystick latch and the
    EEPROM. *)
Record Sketch := mkSketch {
  core : State;
  menuJoystick : MenuJoystick.t;
  eeprom : EEPROM
}.

Definition onCore (f : Stmt) (sk : Sketch) : Sketch :=
  mkSketch (f (core sk)) (menuJoystick sk) (eeprom sk).

Definition menuMode (st : State) : Z := Menu.mode (menu st).
Definition menuLevel (st : State) : Z := Menu.level (menu st).
Definition menuActivate (st : State) : bool := Menu.activate (menu st).
Definition menuChanged (st : State) : bool := Menu.changed (menu st).

Definition set_menuMode (v : Z) : Stmt := fun st =>
  let m := menu st in
  set_menu (Menu.mk v (Menu.level m) (Menu.activate m) (Menu.changed m)) st.

Definition set_menuLevel (v : Z) : Stmt := fun st =>
  let m := menu st in
  set_menu (Menu.mk (Menu.mode m) v (Menu.activate m) (Menu.changed m)) st.

Definition set_menuActivate (v : bool) : Stmt := fun st =>
  let m := menu st in
  set_menu (Menu.mk (Menu.mode m) (Menu.level m) v (Menu.changed m)) st.

Definition set_water (v : bool) : Stmt := fun st =>
  let a := automation st in
  set_automation (Automation.mk (Automation.fertilise a) v (Automation.fertPump a)) st.

Definition set_fertilise (v : bool) : Stmt := fun st =>
  let a := automation st in
  set_automation (Automation.mk v (Automation.water a) (Automation.fertPump a)) st.

Definition set_fertPump (v : bool) : Stmt := fun st =>
  let a := automation st in
  set_automation (Automation.mk (Automation.fertilise a) (Automation.water a) v) st.

(** The number of menu modes: the nine fixed ones and one for each line
    (line 502). *)
Definition mmc : Z := softwareConstants.modeCount + lineCount.

(** Lines 499-523: the joystick moves through the menu.  [x], [y] and
    [button] are the readings of this pass, [latch] those of the pass
    before.  The level is kept as an unbounded integer: the sketch puts no
    bound on it in the modes 1 to 8, and the overflow of the [int] that
    holds it is not modelled. *)
Definition menuNavigate (x y : Z) (button : bool) (latch : MenuJoystick.t) : Stmt :=
  when (fun _ => negb (x =? 0) && (MenuJoystick.x latch =? 0))
    (set_menuChanged true ;;
     reading menuMode (fun m => set_menuMode (m + x)) ;;
     ifElse (fun st => mmc <=? menuMode st)
       (set_menuMode 0)
       (when (fun st => menuMode st <? 0) (set_menuMode (mmc - 1))) ;;
     set_menuLevel 0) ;;
  when (fun _ => negb (y =? 0) && (MenuJoystick.y latch =? 0))
    (set_menuChanged true ;;
     reading menuLevel (fun l => set_menuLevel (l + y))) ;;
  when (fun _ => (button && (x =? 0) && (y =? 0))
                 && negb (MenuJoystick.button latch))
    (set_menuChanged true ;;
     set_menuActivate true).

(** The level of a screen with levels [0..top] wraps around (lines
    538-542 and 722-726). *)
Definition wrapLevel (top : Z) : Stmt :=
  ifElse (fun st => menuLevel st <? 0)
    (set_menuLevel top)
    (when (fun st => top <? menuLevel st) (set_menuLevel 0)).

(** Menu mode 8, activated (lines 690-706): the test run of the fertiliser
    pump.  The calls of [delay] between the relay writes change no
    variable of the sketch. *)
Definition fertOut : Stmt :=
  safeRelayWrite pins.pump true ;;
  safeRelayWrite pins.pump false ;;
  safeRelayWrite pins.fertiliser true ;;
  safeRelayWrite pins.pump true ;;
  safeRelayWrite pins.pump false ;;
  safeRelayWrite pins.fertiliser false.

(** Lines 530-810: the screen of the current mode is drawn and, if the
    button was pressed, its command is carried out.  Drawing changes no
    variable of the sketch except the level, which the main screen, the
    screen of mode 8 and the hack timer screens bring into their range. *)
Definition menuScreen (sk : Sketch) : Sketch :=
  let st := core sk in
  let toggle := Z.rem (menuLevel st) 2 =? 0 in
  let mode := menuMode st in
  let persist (f : Stmt) :=
    if menuActivate st
    then mkSketch (f st) (menuJoystick sk) (updatePersistentMemory (f st) (eeprom sk))
    else sk in
  if mode =? 0 then onCore (wrapLevel softwareConstants.mainScreenLevels) sk
  else if mode =? 1 then persist (set_water toggle)
  else if mode =? 2 then persist (set_fertilise toggle)
  else if mode =? 3 then persist (set_fertPump toggle)
  else if mode =? 4 then onCore (when menuActivate (safeRelayWrite pins.pump toggle)) sk
  else if mode =? 5
       then onCore (when menuActivate (safeRelayWrite pins.fertiliser toggle)) sk
  else if mode =? 6
       then onCore (when menuActivate (safeRelayWrite pins.tapWater toggle)) sk
  else if mode =? 7 then onCore (when menuActivate menuFertilise) sk
  else if mode =? 8
       then onCore (when (fun s => menuLevel s <? 2) (set_menuLevel 2) ;;
                    when menuActivate fertOut) sk
  else onCore (wrapLevel 5 ;;
               when menuActivate
                 (reading menuLevel
                    (menuHaxTimer (Z.to_nat (mode - softwareConstants.modeCount)))))
              sk.

(** Lines 493-818: the menu part of one pass of [loop]. *)
Definition menuPass (js : MenuJoystickSettings) (p : Panel) (sk : Sketch) : Sketch :=
  let x := JSAxis js (analogX p) in
  let y := JSAxis js (analogY p) in
  let button := analogButton p <? buttonSensitivity js in
  let sk1 := onCore (menuNavigate x y button (menuJoystick sk)) sk in
  let sk2 := if menuChanged (core sk1) then menuScreen sk1 else sk1 in
  mkSketch
    ((reading menuActivate set_menuChanged ;; set_menuActivate false) (core sk2))
    (MenuJoystick.mk x y button)
    (eeprom sk2).

(** One whole pass of [loop] (lines 285-818). *)
Definition sketchLoop (cfg : Settings) (js : MenuJoystickSettings)
    (inp : Inputs) (p : Panel) (sk : Sketch) : Sketch :=
  menuPass js p (onCore (loop cfg inp) sk).

(** [setup] with the EEPROM (lines 230-236): with [resetPersistentMemory]
    the initial switches, all on, are written first; then the switches are
    read back. *)
Definition sketchSetup (cfg : Settings) (resetPersistentMemory : bool)
    (e : EEPROM) (start : DateTime) : Sketch :=
  let e' := if resetPersistentMemory
            then updatePersistentMemory (setup cfg (Automation.mk true true true) start) e
            else e in
  mkSketch (setup cfg (readSwitches e') start) (MenuJoystick.mk 0 0 false) e'.

(** Runs of the whole sketch. *)
Definition sketchRun (cfg : Settings) (js : MenuJoystickSettings)
    (passes : list (Inputs * Panel)) (sk : Sketch) : Sketch :=
  fold_left (fun s ip => sketchLoop cfg js (fst ip) (snd ip) s) passes sk.

(** A statement that writes to the cells of the menu only. *)
Definition menuOnly (f : Stmt) : Prop :=
  forall st, f st = set_menu (menu (f st)) st.

(** The state after [setup] with the source settings and an EEPROM that
    holds 255 at every address, and readings of the joystick: at rest,
    pushed to the right, and at rest with the button pressed. *)
Definition freshEEPROM : EEPROM := fun _ => 255.
Definition started : Sketch := sketchSetup settings false freshEEPROM bootClock.
Definition atRest : Panel := mkPanel 512 512 1023.
Definition pushedRight : Panel := mkPanel 1000 512 1023.
Definition pushedLeft : Panel := mkPanel 20 512 1023.
Definition pushedUp : Panel := mkPanel 512 1000 1023.
Definition pressed : Panel := mkPanel 512 512 30.

(** Every hack timer holds one of the six modes of the menu. *)
Definition timerModesValid (st : State) : Prop :=
  forall i, (i < 6)%nat -> 0 <= timerMode i st <= 5.

(** What holds of the sketch after every pass. *)
Definition sketchInv (sk : Sketch) : Prop :=
  wf (core sk)
  /\ 0 <= menuMode (core sk) < mmc
  /\ menuActivate (core sk) = false
  /\ timerModesValid (core sk)
  /\ readSwitches (eeprom sk) = automation (core sk).

(** How long a timed mode of the hack timer menu keeps its line open:
    modes 2 and 4 ten minutes, modes 3 and 5 twenty. *)
Definition timerSpan (level : Z) : Z :=
  if (level =? 2) || (level =? 4) then 600 else 1200.

(** Two mornings after a day of 30 degrees: one with 5 rain events on the
    record, one with 25. *)
Definition afterShowers : State :=
  set_previousDays [emptyDay; mkDay 2 (30 # 1) 5 0 0; mkDay 3 0 0 0 0] booted.
Definition afterDownpour : State :=
  set_previousDays [emptyDay; mkDay 2 (30 # 1) 25 0 0; mkDay 3 0 0 0 0] booted.

(** The controller gets through several passes of [loop] in the second of
    07:10:00. *)
Definition busySecond : list Inputs := repeat tenPastSeven 4.

(** ** The water added in a day *)

(** The doses of the lines [ls], added one after the other to [total] in
    an [unsigned int], as the statement [totalAdded += added] of line 388
    does; the doses are those [calcWater] computes in state [st] from the
    record of yesterday. *)
Definition addDoses (cfg : Settings) (st : State) (ls : list nat) (total : Z) : Z :=
  fold_left (fun acc j => to_uint (acc + calcWater cfg st 1 j)) ls total.

(** The morning after a cool day (20 degrees, 5 rain events): the doses,
    45 seconds for each line, are under the buffer of 60 and no line is
    opened. *)
Definition beforeEightCool : State :=
  set_lastSecond 59
    (set_time (mkDateTime 3 7 59 59 1071999)
       (set_previousDays [emptyDay; emptyDay; mkDay 2 (20 # 1) 5 0 0] booted)).

(** ** The solenoid position controller: what holds after every pass *)

(** The lock is free or holds one of the six lines; the line that holds it
    has its spin output HIGH; and every [oldState] cell is -1 (position
    unknown), 0 or 1. *)
Definition servoInv (st : State) : Prop :=
  -1 <= lockOf st < 6
  /\ (0 <= lockOf st -> spinning (Z.to_nat (lockOf st)) st = true)
  /\ Forall (fun z => -1 <= z <= 1) (HaxSolenoidOn.oldState (haxSolenoidOn st)).

(** The levels written to the trigger output of the ultrasonic sensor, the
    oldest first. *)
Definition pings (st : State) : list bool := writesTo pins.trigger (pinLog st).
(** ** Arrays *)

Lemma length_upd {A} (i : nat) (v : A) (l : list A) : length (upd i v l) = length l.
Proof.
  unfold upd. revert i. induction l as [|a l IH]; intros [|i]; simpl; auto.
Qed.

Lemma nth_upd_same {A} (i : nat) (v d : A) (l : list A) :
  (i < length l)%nat -> nth i (upd i v l) d = v.
Proof.
  unfold upd. revert i. induction l as [|a l IH]; intros [|i] H; simpl in *;
    try lia; auto. apply IH. lia.
Qed.

Lemma nth_upd_other {A} (i j : nat) (v d : A) (l : list A) :
  i <> j -> nth j (upd i v l) d = nth j l d.
Proof.
  unfold upd. revert i j. induction l as [|a l IH]; intros [|i] [|j] H; simpl;
    try congruence; auto.
Qed.

Lemma fold_left_frame {S I A : Type} (proj : S -> A) (f : S -> I -> S) (l : list I) :
  (forall s i, proj (f s i) = proj s) ->
  forall s, proj (fold_left f l s) = proj s.
Proof.
  intros H. induction l as [|i l IH]; intros s; simpl; [reflexivity|].
  rewrite IH. apply H.
Qed.

Lemma fold_left_inv {S I : Type} (P : S -> Prop) (f : S -> I -> S) (l : list I) :
  (forall s i, P s -> P (f s i)) ->
  forall s, P s -> P (fold_left f l s).
Proof.
  intros H. induction l as [|i l IH]; intros s Hs; simpl; auto.
Qed.

(** Case analysis on every conditional of a block. *)
Ltac split_ifs :=
  repeat match goal with
         | |- context [if ?c then _ else _] => destruct c
         end.

Ltac block_frame := intros; cbv zeta; split_ifs; reflexivity.

Ltac proj_simpl :=
  cbn [haxSolenoidOn haxTimers rainSensorTripped lastSecond
       waterTankUltrasonicTimer watering fertilising firstLoop menu
       noPinInterrupts previousDays time automation temperature pinLog].

Ltac destruct_state st :=
  destruct st as [hs ht rt ls wu wa fe fL mn np pd tm au te pl].

Ltac crunch :=
  repeat first
    [ progress proj_simpl
    | match goal with
      | |- context [if ?c then _ else _] =>
          lazymatch c with
          | context [if _ then _ else _] => fail
          | _ => destruct c
          end
      end ].

Ltac unfold_setters :=
  unfold digitalWrite, haxSolenoidSet,
    set_oldState, set_lock, set_wateringLine, set_wateringFinish, set_startTime,
    set_fertLine, set_dumpCount, set_fertFinish, set_timerMode, set_trigger,
    set_isOn, set_menuChanged, set_todayMaxTemp, set_todayRainFlips,
    set_todayTankLevel, set_todayTotalAdded, rotateDays, set_day,
    set_haxSolenoidOn, set_haxTimers, set_rainSensorTripped, set_lastSecond,
    set_waterTankUltrasonicTimer, set_watering, set_fertilising, set_firstLoop,
    set_menu, set_noPinInterrupts, set_previousDays, set_time, set_automation,
    set_temperature, set_pinLog in *.


(** ** binary32 arithmetic *)

(** ** Powers of two *)

Lemma pow2_pos (e : Z) : (0 < pow2 e)%Q.
Proof. apply Qpower_0_lt. reflexivity. Qed.

Lemma pow2_add (a b : Z) : (pow2 (a + b) == pow2 a * pow2 b)%Q.
Proof. apply Qpower_plus. discriminate. Qed.

Lemma pow2_lt (a b : Z) : a < b -> (pow2 a < pow2 b)%Q.
Proof. intros H. apply Qpower_lt_compat_l; [exact H | reflexivity]. Qed.

Lemma pow2_le (a b : Z) : a <= b -> (pow2 a <= pow2 b)%Q.
Proof. intros H. apply Qpower_le_compat_l; [exact H | discriminate]. Qed.

Lemma pow2_lt_inv (a b : Z) : (pow2 a < pow2 b)%Q -> a < b.
Proof. intros H. apply (Qpower_lt_compat_l_inv (2 # 1)); [exact H | reflexivity]. Qed.

Lemma pow2_Z (e : Z) : 0 <= e -> (pow2 e == inject_Z (2 ^ e))%Q.
Proof. intros H. unfold pow2. rewrite Zpower_Qpower by exact H. reflexivity. Qed.



(** ** The binade of a positive number *)

Lemma inject_Z_le (a b : Z) : a <= b -> (inject_Z a <= inject_Z b)%Q.
Proof. intros H. rewrite <- Zle_Qle. exact H. Qed.

Lemma inject_Z_lt (a b : Z) : a < b -> (inject_Z a < inject_Z b)%Q.
Proof. intros H. rewrite <- Zlt_Qlt. exact H. Qed.

Lemma mag_spec (x : Q) : (0 < x)%Q -> (pow2 (mag x - 1) <= x < pow2 (mag x))%Q.
Proof.
  intros Hx. unfold mag.
  destruct x as [a b]. cbn [Qnum Qden].
  assert (Ha : 0 < a) by (unfold Qlt in Hx; cbn in Hx; lia).
  set (la := Z.log2 a). set (lb := Z.log2 (Z.pos b)).
  assert (La := Z.log2_spec a Ha). assert (Lb := Z.log2_spec (Z.pos b) (Pos2Z.is_pos b)).
  fold la in La. fold lb in Lb.
  assert (Pa : 0 <= la) by apply Z.log2_nonneg.
  assert (Pb : 0 <= lb) by apply Z.log2_nonneg.
  assert (Q1 : (a # b == inject_Z a / inject_Z (Z.pos b))%Q) by apply Qmake_Qdiv.
  assert (Bp : (0 < inject_Z (Z.pos b))%Q) by (apply (inject_Z_lt 0); lia).
  assert (Lo : (pow2 (la - lb - 1) < a # b)%Q).
  { rewrite Q1. apply Qlt_shift_div_l; [exact Bp|].
    apply Qlt_le_trans with (pow2 (la - lb - 1) * pow2 (lb + 1))%Q.
    - apply Qmult_lt_l; [apply pow2_pos|].
      rewrite pow2_Z by lia. apply inject_Z_lt. replace (lb + 1) with (Z.succ lb) by lia. lia.
    - rewrite <- pow2_add. replace (la - lb - 1 + (lb + 1)) with la by lia.
      rewrite pow2_Z by lia. apply inject_Z_le. lia. }
  assert (Hi : (a # b < pow2 (la - lb + 1))%Q).
  { rewrite Q1. apply Qlt_shift_div_r; [exact Bp|].
    apply Qlt_le_trans with (pow2 (la + 1)).
    - rewrite pow2_Z by lia. apply inject_Z_lt. replace (la + 1) with (Z.succ la) by lia. lia.
    - replace (la + 1) with (la - lb + 1 + lb) by lia. rewrite pow2_add.
      apply Qmult_le_l; [apply pow2_pos|].
      rewrite pow2_Z by lia. apply inject_Z_le. lia. }
  destruct (Qle_bool (pow2 (la - lb)) (a # b)) eqn:E.
  - apply Qle_bool_iff in E. replace (la - lb + 1 - 1) with (la - lb) by lia.
    split; assumption.
  - split; [apply Qlt_le_weak, Lo|].
    apply Qnot_le_lt. intros C. apply Qle_bool_iff in C. congruence.
Qed.

Lemma mag_unique (x : Q) (e : Z) :
  (pow2 (e - 1) <= x < pow2 e)%Q -> mag x = e.
Proof.
  intros (H1 & H2).
  assert (Hx : (0 < x)%Q) by (apply Qlt_le_trans with (pow2 (e - 1)); [apply pow2_pos | exact H1]).
  destruct (mag_spec x Hx) as (M1 & M2).
  assert (A : mag x - 1 < e) by (apply pow2_lt_inv; apply Qle_lt_trans with x; assumption).
  assert (B : e - 1 < mag x) by (apply pow2_lt_inv; apply Qle_lt_trans with x; assumption).
  lia.
Qed.

Lemma mag_comp (x y : Q) : (0 < x)%Q -> (x == y)%Q -> mag x = mag y.
Proof.
  intros Hx E. symmetry. apply mag_unique. rewrite <- E. apply mag_spec, Hx.
Qed.

Lemma mag_le (x y : Q) : (0 < x)%Q -> (x <= y)%Q -> mag x <= mag y.
Proof.
  intros Hx H.
  assert (Hy : (0 < y)%Q) by (apply Qlt_le_trans with x; assumption).
  destruct (mag_spec x Hx) as (M1 & _). destruct (mag_spec y Hy) as (_ & M2).
  assert (A : mag x - 1 < mag y).
  { apply pow2_lt_inv. apply Qle_lt_trans with x; [exact M1|].
    apply Qle_lt_trans with y; assumption. }
  lia.
Qed.

(** ** Rounding to the nearest integer, ties to even *)

Lemma rne_comp (x y : Q) : (x == y)%Q -> rne x = rne y.
Proof.
  intros E. unfold rne. rewrite (Qfloor_comp x y E).
  assert (C : ((x - inject_Z (Qfloor y) ?= 1 # 2) = (y - inject_Z (Qfloor y) ?= 1 # 2))%Q)
    by (rewrite E; reflexivity).
  rewrite C. reflexivity.
Qed.

Lemma rne_Z (n : Z) : rne (inject_Z n) = n.
Proof.
  unfold rne. rewrite Qfloor_Z.
  assert (C : ((inject_Z n - inject_Z n ?= 1 # 2) = Lt)%Q).
  { rewrite <- Qlt_alt. lra. }
  rewrite C. reflexivity.
Qed.

Lemma rne_bounds (x : Q) : Qfloor x <= rne x <= Qfloor x + 1.
Proof.
  unfold rne. destruct (_ ?= _)%Q; [destruct (Z.even _)|..]; lia.
Qed.

Lemma rne_mono (x y : Q) : (x <= y)%Q -> rne x <= rne y.
Proof.
  intros H. assert (F := Qfloor_resp_le x y H).
  destruct (Z.eq_dec (Qfloor x) (Qfloor y)) as [E|E].
  - unfold rne. rewrite <- E.
    destruct (x - inject_Z (Qfloor x) ?= 1 # 2)%Q eqn:Cx;
      destruct (y - inject_Z (Qfloor x) ?= 1 # 2)%Q eqn:Cy;
      try (destruct (Z.even (Qfloor x))); try lia; exfalso;
      try rewrite <- Qeq_alt in Cx; try rewrite <- Qlt_alt in Cx; try rewrite <- Qgt_alt in Cx;
      try rewrite <- Qeq_alt in Cy; try rewrite <- Qlt_alt in Cy; try rewrite <- Qgt_alt in Cy;
      lra.
  - assert (A := rne_bounds x). assert (B := rne_bounds y). lia.
Qed.

Lemma rne_le_Z (x : Q) (n : Z) : (x <= inject_Z n)%Q -> rne x <= n.
Proof. intros H. rewrite <- (rne_Z n). apply rne_mono, H. Qed.

Lemma rne_ge_Z (x : Q) (n : Z) : (inject_Z n <= x)%Q -> n <= rne x.
Proof. intros H. rewrite <- (rne_Z n). apply rne_mono, H. Qed.

(** ** Rounding to binary32 *)

Lemma ulpExp_comp (x y : Q) : (0 < x)%Q -> (x == y)%Q -> ulpExp x = ulpExp y.
Proof. intros Hx E. unfold ulpExp. rewrite (mag_comp x y Hx E). reflexivity. Qed.

Lemma roundPos_comp (x y : Q) : (0 < x)%Q -> (x == y)%Q -> (roundPos x == roundPos y)%Q.
Proof.
  intros Hx E. unfold roundPos. rewrite (ulpExp_comp x y Hx E).
  rewrite (rne_comp (x / pow2 (ulpExp y)) (y / pow2 (ulpExp y))) by (rewrite E; reflexivity).
  reflexivity.
Qed.

Lemma fl_0 : fl 0 = 0%Q.
Proof. reflexivity. Qed.

Lemma fl_pos (x : Q) : (0 < x)%Q -> (fl x == roundPos x)%Q.
Proof. intros H. unfold fl. rewrite Qgt_alt in H. rewrite H. apply Qred_correct. Qed.

Lemma fl_neg (x : Q) : (x < 0)%Q -> (fl x == - roundPos (- x))%Q.
Proof. intros H. unfold fl. rewrite Qlt_alt in H. rewrite H. apply Qred_correct. Qed.

Lemma fl_eq (x y : Q) : (x == y)%Q -> fl x = fl y.
Proof.
  intros E. unfold fl. rewrite <- E.
  apply Qred_complete.
  destruct (x ?= 0)%Q eqn:C.
  - reflexivity.
  - rewrite <- Qlt_alt in C. apply Qopp_comp. apply roundPos_comp; [lra | rewrite E; reflexivity].
  - rewrite <- Qgt_alt in C. apply roundPos_comp; [exact C | exact E].
Qed.

#[global] Instance fl_comp : Proper (Qeq ==> Qeq) fl.
Proof. intros x y E. rewrite (fl_eq x y E). reflexivity. Qed.

(** Rounding on a grid of spacing [2^e]. *)
Lemma grid_le (x : Q) (e n : Z) :
  (x <= inject_Z n * pow2 e)%Q -> (inject_Z (rne (x / pow2 e)) * pow2 e <= inject_Z n * pow2 e)%Q.
Proof.
  intros H. apply Qmult_le_r; [apply pow2_pos|]. apply inject_Z_le, rne_le_Z.
  apply Qle_shift_div_r; [apply pow2_pos | exact H].
Qed.

Lemma grid_ge (x : Q) (e n : Z) :
  (inject_Z n * pow2 e <= x)%Q -> (inject_Z n * pow2 e <= inject_Z (rne (x / pow2 e)) * pow2 e)%Q.
Proof.
  intros H. apply Qmult_le_r; [apply pow2_pos|]. apply inject_Z_le, rne_ge_Z.
  apply Qle_shift_div_l; [apply pow2_pos | exact H].
Qed.

Lemma pow2_grid (a e : Z) : e <= a -> (pow2 a == inject_Z (2 ^ (a - e)) * pow2 e)%Q.
Proof.
  intros H. rewrite <- pow2_Z by lia. rewrite <- pow2_add.
  replace (a - e + e) with a by lia. reflexivity.
Qed.

Lemma roundPos_nonneg (x : Q) : (0 < x)%Q -> (0 <= roundPos x)%Q.
Proof.
  intros Hx. unfold roundPos.
  assert (G := grid_ge x (ulpExp x) 0). rewrite Qmult_0_l in G. apply G.
  apply Qlt_le_weak, Hx.
Qed.

Lemma roundPos_mono (x y : Q) : (0 < x)%Q -> (x <= y)%Q -> (roundPos x <= roundPos y)%Q.
Proof.
  intros Hx H.
  assert (Hy : (0 < y)%Q) by (apply Qlt_le_trans with x; assumption).
  assert (M := mag_le x y Hx H).
  destruct (Z.eq_dec (ulpExp x) (ulpExp y)) as [E|E].
  - unfold roundPos. rewrite E. apply Qmult_le_r; [apply pow2_pos|].
    apply inject_Z_le, rne_mono.
    apply Qmult_le_r; [apply Qinv_lt_0_compat, pow2_pos | exact H].
  - assert (Ex : ulpExp x < ulpExp y) by (unfold ulpExp in *; lia).
    assert (Ey : ulpExp y = mag y - 24) by (unfold ulpExp in *; lia).
    assert (Mx : mag x <= mag y - 1) by (unfold ulpExp in *; lia).
    destruct (mag_spec x Hx) as (_ & X2). destruct (mag_spec y Hy) as (Y1 & _).
    apply Qle_trans with (pow2 (mag y - 1)).
    + unfold roundPos. rewrite (pow2_grid (mag y - 1) (ulpExp x)) by lia.
      apply grid_le. rewrite <- pow2_grid by lia.
      apply Qle_trans with (pow2 (mag x)); [apply Qlt_le_weak, X2 | apply pow2_le, Mx].
    + unfold roundPos. rewrite (pow2_grid (mag y - 1) (ulpExp y)) by lia.
      apply grid_ge. rewrite <- pow2_grid by lia. exact Y1.
Qed.

Lemma fl_opp (x : Q) : (fl (- x) == - fl x)%Q.
Proof.
  destruct (Q_dec x 0) as [[H|H]|H].
  - rewrite (fl_neg x H). rewrite fl_pos by lra. lra.
  - rewrite (fl_pos x H). rewrite fl_neg by lra.
    rewrite (roundPos_comp (- - x) x) by lra. reflexivity.
  - rewrite H. reflexivity.
Qed.

Lemma fl_nonneg (x : Q) : (0 <= x)%Q -> (0 <= fl x)%Q.
Proof.
  intros H. destruct (Qle_lt_or_eq _ _ H) as [L|E].
  - rewrite fl_pos by exact L. apply roundPos_nonneg, L.
  - rewrite <- E. discriminate.
Qed.

Lemma fl_nonpos (x : Q) : (x <= 0)%Q -> (fl x <= 0)%Q.
Proof.
  intros H. assert (A := fl_nonneg (- x)). rewrite fl_opp in A. lra.
Qed.

(** Rounding is monotone. *)
Theorem fl_mono (x y : Q) : (x <= y)%Q -> (fl x <= fl y)%Q.
Proof.
  intros H. destruct (Qlt_le_dec 0 x) as [Hx|Hx].
  - rewrite (fl_pos x Hx), fl_pos by lra. apply roundPos_mono; assumption.
  - destruct (Qlt_le_dec y 0) as [Hy|Hy].
    + rewrite (fl_neg y Hy), fl_neg by lra.
      apply Qopp_le_compat. apply roundPos_mono; lra.
    + apply Qle_trans with 0%Q; [apply fl_nonpos, Hx | apply fl_nonneg, Hy].
Qed.




(** ** The dosage model *)

Lemma Qtrunc_floor (x : Q) : (0 <= x)%Q -> Qtrunc x = Qfloor x.
Proof.
  destruct x as [a b]. unfold Qle, Qtrunc, Qfloor. simpl. intros H.
  apply Z.quot_div_nonneg; lia.
Qed.

Lemma Qtrunc_ceiling (x : Q) : (x <= 0)%Q -> Qtrunc x = Qceiling x.
Proof.
  destruct x as [a b]. unfold Qle, Qtrunc, Qceiling, Qfloor. simpl. intros H.
  rewrite <- (Z.opp_involutive a) at 1. rewrite Z.quot_opp_l by lia.
  f_equal. apply Z.quot_div_nonneg; lia.
Qed.


Lemma Qtrunc_mono (x y : Q) : (x <= y)%Q -> Qtrunc x <= Qtrunc y.
Proof.
  intros H. destruct (Qlt_le_dec x 0) as [Hx|Hx]; destruct (Qlt_le_dec y 0) as [Hy|Hy].
  - rewrite !Qtrunc_ceiling by lra. apply Qceiling_resp_le, H.
  - rewrite Qtrunc_ceiling by lra. rewrite Qtrunc_floor by exact Hy.
    assert (A : Qceiling x <= 0).
    { change 0 with (Qceiling 0). apply Qceiling_resp_le. lra. }
    assert (B : 0 <= Qfloor y).
    { change 0 with (Qfloor 0). apply Qfloor_resp_le, Hy. }
    lia.
  - lra.
  - rewrite !Qtrunc_floor by lra. apply Qfloor_resp_le, H.
Qed.


(** The macro [round] is monotone. *)
Lemma round_mono (x y : Q) : (x <= y)%Q -> round x <= round y.
Proof.
  intros H. unfold round, fadd, fsub.
  destruct (Qle_bool 0 x) eqn:Ex; destruct (Qle_bool 0 y) eqn:Ey.
  - apply Qtrunc_mono, fl_mono. lra.
  - apply Qle_bool_iff in Ex.
    assert (Hy : ~ (0 <= y)%Q) by (intros C; apply Qle_bool_iff in C; congruence).
    lra.
  - assert (Hx : ~ (0 <= x)%Q) by (intros C; apply Qle_bool_iff in C; congruence).
    apply Qle_bool_iff in Ey.
    apply Z.le_trans with 0.
    + change 0 with (Qtrunc 0). apply Qtrunc_mono. apply fl_nonpos. lra.
    + change 0 with (Qtrunc 0). apply Qtrunc_mono. apply fl_nonneg. lra.
  - apply Qtrunc_mono, fl_mono. lra.
Qed.






Lemma min_macro (a b : Q) :
  (if negb (Qle_bool b a) then a else b) == Qmin a b.
Proof.
  destruct (Qle_bool b a) eqn:E; simpl.
  - apply Qle_bool_iff in E. symmetry. apply Q.min_r. exact E.
  - symmetry. apply Q.min_l. apply Qlt_le_weak. apply Qnot_le_lt.
    intros H. apply Qle_bool_iff in H. congruence.
Qed.

Lemma min_macro_Z (a b : Z) :
  (if negb (Qle_bool (inject_Z b) (inject_Z a)) then inject_Z a else inject_Z b)
  = inject_Z (Z.min a b).
Proof.
  destruct (Qle_bool (inject_Z b) (inject_Z a)) eqn:E; simpl.
  - apply Qle_bool_iff in E. rewrite <- Zle_Qle in E. rewrite Z.min_r by exact E. reflexivity.
  - assert (H : ~ b <= a).
    { intros C. rewrite Zle_Qle in C. apply Qle_bool_iff in C. congruence. }
    rewrite Z.min_l by lia. reflexivity.
Qed.


Lemma calcWaterLong_nonneg cfg (st : State) (dayIx line : nat) :
  0 <= calcWaterLong cfg st dayIx line.
Proof.
  unfold calcWaterLong. cbv zeta.
  match goal with |- 0 <= (if ?r <? 0 then 0 else ?r) => destruct (Z.ltb_spec r 0) end; lia.
Qed.

(** ** Statements: sequencing and conditions *)

Lemma andThen_apply (f g : Stmt) (st : State) : (f ;; g) st = g (f st).
Proof. reflexivity. Qed.

Lemma when_true (c : State -> bool) (f : Stmt) (st : State) :
  c st = true -> when c f st = f st.
Proof. unfold when. intros ->. reflexivity. Qed.

Lemma when_false (c : State -> bool) (f : Stmt) (st : State) :
  c st = false -> when c f st = st.
Proof. unfold when. intros ->. reflexivity. Qed.

Lemma ifElse_true (c : State -> bool) (f g : Stmt) (st : State) :
  c st = true -> ifElse c f g st = f st.
Proof. unfold ifElse. intros ->. reflexivity. Qed.

Lemma ifElse_false (c : State -> bool) (f g : Stmt) (st : State) :
  c st = false -> ifElse c f g st = g st.
Proof. unfold ifElse. intros ->. reflexivity. Qed.

Lemma reading_apply {A} (v : State -> A) (k : A -> Stmt) (st : State) :
  reading v k st = k (v st) st.
Proof. reflexivity. Qed.

Section Keeps.
Context {A : Type} (proj : State -> A).

Lemma keeps_skip : keeps proj skip.
Proof. intros st. reflexivity. Qed.

Lemma keeps_andThen (f g : Stmt) :
  keeps proj f -> keeps proj g -> keeps proj (f ;; g).
Proof. intros Hf Hg st. unfold andThen. rewrite Hg. apply Hf. Qed.

Lemma keeps_when (c : State -> bool) (f : Stmt) :
  keeps proj f -> keeps proj (when c f).
Proof. intros Hf st. unfold when. destruct (c st); [apply Hf | reflexivity]. Qed.

Lemma keeps_ifElse (c : State -> bool) (f g : Stmt) :
  keeps proj f -> keeps proj g -> keeps proj (ifElse c f g).
Proof. intros Hf Hg st. unfold ifElse. destruct (c st); [apply Hf | apply Hg]. Qed.

Lemma keeps_reading {B} (v : State -> B) (k : B -> Stmt) :
  (forall b, keeps proj (k b)) -> keeps proj (reading v k).
Proof. intros Hk st. apply Hk. Qed.

Lemma keeps_forLines (body : nat -> Stmt) :
  (forall i, keeps proj (body i)) -> keeps proj (forLines body).
Proof.
  intros Hb st. unfold forLines.
  apply (fold_left_frame proj (fun s i => body i s)). intros s i. apply Hb.
Qed.

End Keeps.

Section Preserves.
Context (P : State -> Prop).

Lemma preserves_skip : preserves P skip.
Proof. intros st H. exact H. Qed.

Lemma preserves_andThen (f g : Stmt) :
  preserves P f -> preserves P g -> preserves P (f ;; g).
Proof. intros Hf Hg st H. apply Hg, Hf, H. Qed.

Lemma preserves_when (c : State -> bool) (f : Stmt) :
  preserves P f -> preserves P (when c f).
Proof. intros Hf st H. unfold when. destruct (c st); [apply Hf, H | exact H]. Qed.

Lemma preserves_ifElse (c : State -> bool) (f g : Stmt) :
  preserves P f -> preserves P g -> preserves P (ifElse c f g).
Proof.
  intros Hf Hg st H. unfold ifElse. destruct (c st); [apply Hf, H | apply Hg, H].
Qed.

Lemma preserves_reading {B} (v : State -> B) (k : B -> Stmt) :
  (forall b, preserves P (k b)) -> preserves P (reading v k).
Proof. intros Hk st H. apply Hk, H. Qed.

Lemma preserves_forLines (body : nat -> Stmt) :
  (forall i, preserves P (body i)) -> preserves P (forLines body).
Proof.
  intros Hb st H. unfold forLines.
  apply (fold_left_inv P (fun s i => body i s)); [|exact H].
  intros s i Hs. apply Hb, Hs.
Qed.

End Preserves.

(** The blocks of [loop], opened one layer at a time. *)
Ltac open_block :=
  progress unfold loop, everyPass, everySecond, serviceSolenoids, serviceSolenoid,
    rainEdge, countDown, rainReset, everyMinute, pumpTimes, dailyRotation,
    wateringSequence, fertiliseTrigger, fertilisePriming, fertiliseSweep,
    haxTimersLoop, haxTimer, endOfSecond, safeRelayWrite, menuFertilise,
    waterTankUltrasonicEcho.

Ltac keeps_tac :=
  lazymatch goal with
  | |- keeps _ (_ ;; _) => apply keeps_andThen; keeps_tac
  | |- keeps _ (when _ _) => apply keeps_when; keeps_tac
  | |- keeps _ (ifElse _ _ _) => apply keeps_ifElse; keeps_tac
  | |- keeps _ (reading _ _) => apply keeps_reading; intro; keeps_tac
  | |- keeps _ (forLines _) => apply keeps_forLines; intro; keeps_tac
  | |- keeps _ skip => apply keeps_skip
  | |- keeps _ _ => first [ open_block; keeps_tac | intro; reflexivity ]
  end.

Ltac wf_leaf :=
  let st := fresh "st" in
  intros st (?&?&?&?&?&?); unfold wf; unfold_setters; proj_simpl;
  cbn [HaxSolenoidOn.desiredState HaxSolenoidOn.oldState
       HaxTimers.haxTimerState HaxTimers.triggers HaxTimers.isOn];
  rewrite ?length_upd; repeat split; auto.

Ltac preserves_wf :=
  lazymatch goal with
  | |- preserves _ (_ ;; _) => apply preserves_andThen; preserves_wf
  | |- preserves _ (when _ _) => apply preserves_when; preserves_wf
  | |- preserves _ (ifElse _ _ _) => apply preserves_ifElse; preserves_wf
  | |- preserves _ (reading _ _) => apply preserves_reading; intro; preserves_wf
  | |- preserves _ (forLines _) => apply preserves_forLines; intro; preserves_wf
  | |- preserves _ skip => apply preserves_skip
  | |- preserves _ _ => first [ open_block; preserves_wf | wf_leaf ]
  end.

(** ** Well-formedness is kept by every pass *)

Lemma wf_loop cfg inp : preserves wf (loop cfg inp).
Proof. preserves_wf. Qed.

Lemma wf_everySecond cfg r q : preserves wf (everySecond cfg r q).
Proof. preserves_wf. Qed.

Lemma wf_everyPass inp : preserves wf (everyPass inp).
Proof. preserves_wf. Qed.

Lemma wf_haxTimer i : preserves wf (haxTimer i).
Proof. preserves_wf. Qed.

Lemma wf_setup cfg eeprom start : wf (setup cfg eeprom start).
Proof. repeat split. Qed.

Lemma wf_runLoop cfg l : preserves wf (runLoop cfg l).
Proof.
  intros st H. unfold runLoop.
  apply (fold_left_inv wf (fun s inp => loop cfg inp s)); [|exact H].
  intros s i Hs. apply wf_loop, Hs.
Qed.

(** [push proj] moves the projection [proj] through every statement that
    leaves it alone. *)
Ltac push proj :=
  repeat match goal with
         | |- context [proj (?f ?s)] =>
             let H := fresh in
             assert (H : keeps proj f) by keeps_tac; rewrite (H s); clear H
         end.

Lemma lastSecond_endOfSecond st : lastSecond (endOfSecond st) = getSecond (time st).
Proof. reflexivity. Qed.

(** ** Passes of [loop] *)

Lemma time_everyPass inp st : time (everyPass inp st) = rtcNow inp.
Proof.
  unfold everyPass. rewrite !andThen_apply.
  assert (H : keeps time (serviceSolenoids (solenoidRead inp) ;; rainEdge (rainRead inp)))
    by keeps_tac.
  apply (H (set_time (rtcNow inp) st)).
Qed.

Lemma lastSecond_everyPass inp : keeps lastSecond (everyPass inp).
Proof. keeps_tac. Qed.

Lemma time_everySecond cfg r q : keeps time (everySecond cfg r q).
Proof. keeps_tac. Qed.

Lemma loop_newSecond cfg inp st :
  newSecond inp st ->
  loop cfg inp st = everySecond cfg (rainRead inp) (tempRead inp) (everyPass inp st).
Proof.
  intros H. unfold loop. rewrite andThen_apply. apply when_true.
  rewrite time_everyPass, lastSecond_everyPass.
  destruct (Z.eqb_spec (getSecond (rtcNow inp)) (lastSecond st)); [contradiction|].
  reflexivity.
Qed.

Lemma loop_sameSecond cfg inp st :
  getSecond (rtcNow inp) = lastSecond st -> loop cfg inp st = everyPass inp st.
Proof.
  intros H. unfold loop. rewrite andThen_apply. apply when_false.
  rewrite time_everyPass, lastSecond_everyPass, H, Z.eqb_refl. reflexivity.
Qed.

Lemma time_loop cfg inp st : time (loop cfg inp st) = rtcNow inp.
Proof.
  unfold loop. rewrite andThen_apply.
  assert (H : keeps time (when (fun st => negb (getSecond (time st) =? lastSecond st))
                            (everySecond cfg (rainRead inp) (tempRead inp))))
    by keeps_tac.
  rewrite H. apply time_everyPass.
Qed.

Lemma lastSecond_everySecond cfg r q st :
  lastSecond (everySecond cfg r q st) = getSecond (time st).
Proof.
  unfold everySecond. rewrite !andThen_apply.
  rewrite lastSecond_endOfSecond. push time. reflexivity.
Qed.

Lemma lastSecond_loop cfg inp st :
  lastSecond (loop cfg inp st) = getSecond (rtcNow inp).
Proof.
  destruct (Z.eq_dec (getSecond (rtcNow inp)) (lastSecond st)) as [E|E].
  - rewrite loop_sameSecond by auto. rewrite lastSecond_everyPass. congruence.
  - rewrite loop_newSecond by auto. rewrite lastSecond_everySecond.
    rewrite time_everyPass. reflexivity.
Qed.

Lemma runLoop_app cfg l1 l2 st :
  runLoop cfg (l1 ++ l2) st = runLoop cfg l2 (runLoop cfg l1 st).
Proof. unfold runLoop. apply fold_left_app. Qed.

Lemma runLoop_cons cfg inp l st :
  runLoop cfg (inp :: l) st = runLoop cfg l (loop cfg inp st).
Proof. reflexivity. Qed.

(** ** Clock tests *)

Lemma timeCheck_true (x v : Z) : timeCheck x v = true <-> x < 0 \/ x = v.
Proof.
  unfold timeCheck. rewrite orb_true_iff, Z.ltb_lt, Z.eqb_eq. reflexivity.
Qed.

Lemma timeCheck_false (x v : Z) : timeCheck x v = false <-> 0 <= x /\ x <> v.
Proof.
  unfold timeCheck. rewrite orb_false_iff, Z.ltb_ge, Z.eqb_neq. reflexivity.
Qed.

Lemma timeIs_true (wd h m s : Z) (st : State) :
  timeIs wd h m s st = true <->
  (wd < 0 \/ wd = getWeekDay (time st)) /\ (h < 0 \/ h = getHour (time st))
  /\ (m < 0 \/ m = getMinute (time st)) /\ (s < 0 \/ s = getSecond (time st)).
Proof.
  unfold timeIs. rewrite !andb_true_iff, !timeCheck_true. tauto.
Qed.

Lemma timeIs_false (wd h m s : Z) (st : State) :
  (0 <= wd /\ wd <> getWeekDay (time st)) \/ (0 <= h /\ h <> getHour (time st))
  \/ (0 <= m /\ m <> getMinute (time st)) \/ (0 <= s /\ s <> getSecond (time st)) ->
  timeIs wd h m s st = false.
Proof.
  intros H. destruct (timeIs wd h m s st) eqn:E; [|reflexivity].
  apply timeIs_true in E. lia.
Qed.

Lemma timeIs_time (wd h m s : Z) (st st' : State) :
  time st' = time st -> timeIs wd h m s st' = timeIs wd h m s st.
Proof. unfold timeIs. intros ->. reflexivity. Qed.

(** ** The daily pump run (lines 352-357) *)

Lemma pumpTimes_on (st : State) :
  getHour (time st) = 7 -> getMinute (time st) = 10 -> getSecond (time st) = 0 ->
  Automation.fertPump (automation st) = true ->
  pumpTimes st = safeRelayWrite pins.pump HIGH st.
Proof.
  intros Hh Hm Hs Ha. unfold pumpTimes. rewrite andThen_apply.
  rewrite (when_true _ _ st).
  - apply when_false. rewrite (timeIs_false (-1) 7 12 0); [reflexivity|].
    push time. lia.
  - rewrite Ha, andb_true_r. apply timeIs_true. lia.
Qed.

Lemma pumpTimes_off (st : State) :
  getHour (time st) = 7 -> getMinute (time st) = 12 -> getSecond (time st) = 0 ->
  Automation.fertPump (automation st) = true ->
  pumpTimes st = safeRelayWrite pins.pump LOW st.
Proof.
  intros Hh Hm Hs Ha. unfold pumpTimes. rewrite andThen_apply.
  rewrite (when_false _ _ st).
  - apply when_true. rewrite Ha, andb_true_r. apply timeIs_true. lia.
  - rewrite (timeIs_false (-1) 7 10 0); [reflexivity | lia].
Qed.

Lemma pumpTimes_disabled (st : State) :
  Automation.fertPump (automation st) = false -> pumpTimes st = st.
Proof.
  intros Ha. unfold pumpTimes. rewrite andThen_apply.
  rewrite (when_false _ _ st) by (rewrite Ha; apply andb_false_r).
  apply when_false. rewrite Ha. apply andb_false_r.
Qed.

Lemma pumpTimes_other_time (st : State) :
  getHour (time st) <> 7 \/ getSecond (time st) <> 0
  \/ (getMinute (time st) <> 10 /\ getMinute (time st) <> 12) ->
  pumpTimes st = st.
Proof.
  intros H. unfold pumpTimes. rewrite andThen_apply.
  rewrite (when_false _ _ st).
  - apply when_false. rewrite (timeIs_false (-1) 7 12 0); [reflexivity | lia].
  - rewrite (timeIs_false (-1) 7 10 0); [reflexivity | lia].
Qed.

(** The pump run neither reads nor writes the cells of the two sequences. *)
Lemma pumpTimes_independent (g : Stmt) (st : State) :
  time (g st) = time st -> automation (g st) = automation st ->
  (forall v, safeRelayWrite pins.pump v (g st) = g (safeRelayWrite pins.pump v st)) ->
  pumpTimes (g st) = g (pumpTimes st).
Proof.
  intros Ht Ha Hc.
  destruct (Automation.fertPump (automation st)) eqn:Ep.
  2:{ rewrite !pumpTimes_disabled by congruence. reflexivity. }
  destruct (Z.eq_dec (getHour (time st)) 7) as [Eh|Eh].
  2:{ rewrite !pumpTimes_other_time by (rewrite ?Ht; lia). reflexivity. }
  destruct (Z.eq_dec (getSecond (time st)) 0) as [Es|Es].
  2:{ rewrite !pumpTimes_other_time by (rewrite ?Ht; lia). reflexivity. }
  destruct (Z.eq_dec (getMinute (time st)) 10) as [Em|Em].
  { rewrite !pumpTimes_on by (rewrite ?Ht, ?Ha; auto). apply Hc. }
  destruct (Z.eq_dec (getMinute (time st)) 12) as [Em'|Em'].
  { rewrite !pumpTimes_off by (rewrite ?Ht, ?Ha; auto). apply Hc. }
  rewrite !pumpTimes_other_time by (rewrite ?Ht; lia). reflexivity.
Qed.

Lemma pumpTimes_set_fertilising (f : Fertilising.t) (st : State) :
  pumpTimes (set_fertilising f st) = set_fertilising f (pumpTimes st).
Proof. apply (pumpTimes_independent (set_fertilising f)); reflexivity. Qed.

Lemma pumpTimes_set_watering (w : Watering.t) (st : State) :
  pumpTimes (set_watering w st) = set_watering w (pumpTimes st).
Proof. apply (pumpTimes_independent (set_watering w)); reflexivity. Qed.

(** ** Loops over the six lines, seen from one line *)

Lemma fold_lines_keeps {A} (obs : State -> A) (body : nat -> Stmt) (l : list nat) :
  (forall j, In j l -> keeps obs (body j)) ->
  forall st, obs (fold_left (fun s j => body j s) l st) = obs st.
Proof.
  induction l as [|j l IH]; intros H st; cbn [fold_left]; [reflexivity|].
  rewrite IH by (intros k Hk; apply H; right; exact Hk).
  apply H. left. reflexivity.
Qed.

Lemma fold_lines_preserves (P : State -> Prop) (body : nat -> Stmt) (l : list nat) :
  (forall j, preserves P (body j)) ->
  forall st, P st -> P (fold_left (fun s j => body j s) l st).
Proof.
  intros H. induction l as [|j l IH]; intros st Hst; cbn [fold_left]; auto.
  apply IH, H, Hst.
Qed.

Lemma lines_split (i : nat) :
  (i < 6)%nat ->
  lines = seq 0 i ++ i :: seq (S i) (5 - i)
  /\ ~ In i (seq 0 i) /\ ~ In i (seq (S i) (5 - i)).
Proof.
  intros H. unfold lines. split; [|split].
  - replace 6%nat with (i + S (5 - i))%nat at 1 by lia.
    rewrite seq_app. reflexivity.
  - rewrite in_seq. lia.
  - rewrite in_seq. lia.
Qed.

(** If the bodies of the other lines keep both [obs] and the value [F]
    that the body of line [i] gives to [obs], the whole loop gives [F]. *)
Lemma forLines_focus {A} (obs F : State -> A) (body : nat -> Stmt)
    (I : State -> Prop) (i : nat) :
  (i < 6)%nat ->
  (forall j, preserves I (body j)) ->
  (forall j, j <> i -> keeps obs (body j)) ->
  (forall j, j <> i -> keeps F (body j)) ->
  (forall s, I s -> obs (body i s) = F s) ->
  forall st, I st -> obs (forLines body st) = F st.
Proof.
  intros Hi HI Hobs HF Hat st Hst.
  destruct (lines_split i Hi) as (E & N1 & N2).
  unfold forLines. rewrite E, fold_left_app. cbn [fold_left].
  rewrite fold_lines_keeps
    by (intros j Hj; apply Hobs; intros ->; contradiction).
  rewrite Hat by (apply fold_lines_preserves; assumption).
  apply fold_lines_keeps. intros j Hj. apply HF. intros ->. contradiction.
Qed.

(** ** The hack timers (lines 460-482) *)

Lemma timerOf_frame (i : nat) (st st' : State) :
  haxTimers st' = haxTimers st -> timerOf i st' = timerOf i st.
Proof. unfold timerOf, timerMode, timerTrigger, timerIsOn. intros ->. reflexivity. Qed.

Ltac timer_cells :=
  unfold timerOf, timerMode, timerTrigger, timerIsOn, desired in *;
  unfold_setters; proj_simpl;
  cbn [HaxTimers.haxTimerState HaxTimers.triggers HaxTimers.isOn
       HaxSolenoidOn.desiredState HaxSolenoidOn.oldState HaxSolenoidOn.lock].

Lemma timerOf_haxTimer_other (i j : nat) :
  j <> i -> keeps (timerOf i) (haxTimer j).
Proof.
  intros H.
  assert (L1 : forall v, keeps (timerOf i) (set_isOn j v))
    by (intros v st; timer_cells; rewrite nth_upd_other by auto; reflexivity).
  assert (L2 : forall v, keeps (timerOf i) (set_trigger j v))
    by (intros v st; timer_cells; rewrite nth_upd_other by auto; reflexivity).
  assert (L3 : forall v, keeps (timerOf i) (set_timerMode j v))
    by (intros v st; timer_cells; rewrite nth_upd_other by auto; reflexivity).
  unfold haxTimer.
  repeat first
    [ apply keeps_when | apply keeps_andThen | apply keeps_ifElse
    | apply keeps_reading; intro | apply L1 | apply L2 | apply L3
    | solve [intro; reflexivity] ].
Qed.

Lemma desired_haxTimer_other (i j : nat) :
  j <> i -> keeps (desired i) (haxTimer j).
Proof.
  intros H.
  assert (L : forall v, keeps (desired i) (haxSolenoidSet (Z.of_nat j) v)).
  { intros v st. timer_cells. rewrite Nat2Z.id.
    rewrite nth_upd_other by auto. reflexivity. }
  unfold haxTimer.
  repeat first
    [ apply keeps_when | apply keeps_andThen | apply keeps_ifElse
    | apply keeps_reading; intro | apply L
    | solve [intro; reflexivity] ].
Qed.

Lemma wf_set_isOn i v st : wf st -> wf (set_isOn i v st).
Proof. revert st. wf_leaf. Qed.

Lemma wf_set_trigger i v st : wf st -> wf (set_trigger i v st).
Proof. revert st. wf_leaf. Qed.

Lemma wf_haxSolenoidSet z v st : wf st -> wf (haxSolenoidSet z v st).
Proof. revert st. wf_leaf. Qed.

Lemma timerOf_set_isOn (i : nat) (v : bool) (st : State) :
  wf st -> (i < 6)%nat ->
  timerOf i (set_isOn i v st) = (timerMode i st, timerTrigger i st, v).
Proof.
  intros (_&_&H1&H2&H3&_) Hi. timer_cells. rewrite nth_upd_same by lia. reflexivity.
Qed.

Lemma timerOf_set_trigger (i : nat) (v : Z) (st : State) :
  wf st -> (i < 6)%nat ->
  timerOf i (set_trigger i v st) = (timerMode i st, v, timerIsOn i st).
Proof.
  intros (_&_&H1&H2&H3&_) Hi. timer_cells. rewrite nth_upd_same by lia. reflexivity.
Qed.

Lemma timerOf_set_timerMode (i : nat) (v : Z) (st : State) :
  wf st -> (i < 6)%nat ->
  timerOf i (set_timerMode i v st) = (v, timerTrigger i st, timerIsOn i st).
Proof.
  intros (_&_&H1&H2&H3&_) Hi. timer_cells. rewrite nth_upd_same by lia. reflexivity.
Qed.

Lemma timerOf_cells (i : nat) (st : State) (m tr : Z) (on : bool) :
  timerOf i st = (m, tr, on) ->
  timerMode i st = m /\ timerTrigger i st = tr /\ timerIsOn i st = on.
Proof. unfold timerOf. intros E. inversion E. auto. Qed.

Lemma timerOf_haxTimer (i : nat) (st : State) :
  wf st -> (i < 6)%nat ->
  timerOf i (haxTimer i st) = timerStep (now st) (timerOf i st).
Proof.
  intros Hwf Hi. unfold haxTimer, timerStep, timerOf at 2.
  destruct (1 <? timerMode i st) eqn:E1; cbn [andb];
    [rewrite when_true by exact E1 | rewrite when_false by exact E1; reflexivity].
  destruct (timerTrigger i st =? now st) eqn:E2;
    [rewrite when_true by exact E2 | rewrite when_false by exact E2; reflexivity].
  rewrite andThen_apply, reading_apply, andThen_apply, reading_apply.
  set (s1 := set_isOn i (negb (timerIsOn i st)) st).
  assert (W1 : wf s1) by (apply wf_set_isOn, Hwf).
  pose proof (timerOf_cells _ _ _ _ _
                (timerOf_set_isOn i (negb (timerIsOn i st)) st Hwf Hi))
    as (M1 & T1 & O1).
  fold s1 in M1, T1, O1.
  set (s2 := haxSolenoidSet (Z.of_nat i) (timerIsOn i s1) s1).
  assert (W2 : wf s2) by (apply wf_haxSolenoidSet, W1).
  assert (E : timerOf i s2 = timerOf i s1) by (apply timerOf_frame; reflexivity).
  unfold timerOf in E. rewrite M1, T1, O1 in E.
  apply timerOf_cells in E. destruct E as (M2 & T2 & O2).
  unfold ifElse. rewrite M2.
  destruct ((timerMode i st =? 4) || (timerMode i st =? 5)).
  - rewrite O2, reading_apply. destruct (timerIsOn i st); cbn [negb].
    + rewrite andThen_apply, !reading_apply.
      rewrite timerOf_set_trigger by (auto using wf_set_trigger).
      pose proof (timerOf_cells _ _ _ _ _ (timerOf_set_trigger i (timerTrigger i s2 + 604800) s2 W2 Hi))
        as (M3 & T3 & O3).
      rewrite M3, T3, O3, M2, T2, O2. reflexivity.
    + rewrite timerOf_set_trigger by assumption.
      rewrite M2, T2, O2. reflexivity.
  - rewrite andThen_apply.
    rewrite timerOf_set_timerMode by (auto using wf_set_trigger).
    pose proof (timerOf_cells _ _ _ _ _ (timerOf_set_trigger i 0 s2 W2 Hi))
      as (M3 & T3 & O3).
    rewrite T3, O3, O2. reflexivity.
Qed.

Lemma desired_haxTimer (i : nat) (st : State) :
  wf st -> (i < 6)%nat ->
  desired i (haxTimer i st)
  = if (1 <? timerMode i st) && (timerTrigger i st =? now st)
    then negb (timerIsOn i st) else desired i st.
Proof.
  intros (H0&_&H1&H2&H3&_) Hi. unfold haxTimer.
  destruct (1 <? timerMode i st) eqn:E1; cbn [andb];
    [rewrite when_true by exact E1 | rewrite when_false by exact E1; reflexivity].
  destruct (timerTrigger i st =? now st) eqn:E2;
    [rewrite when_true by exact E2 | rewrite when_false by exact E2; reflexivity].
  rewrite andThen_apply, reading_apply, andThen_apply, reading_apply.
  match goal with
  | |- desired i (ifElse ?c ?f ?g ?s) = _ =>
      assert (K : keeps (desired i) (ifElse c f g)) by keeps_tac; rewrite K; clear K
  end.
  timer_cells. rewrite Nat2Z.id.
  rewrite !nth_upd_same by lia. reflexivity.
Qed.

Lemma now_haxTimer (i : nat) : keeps now (haxTimer i).
Proof. keeps_tac. Qed.

Lemma timerOf_haxTimersLoop (i : nat) (st : State) :
  wf st -> (i < 6)%nat ->
  timerOf i (haxTimersLoop st) = timerStep (now st) (timerOf i st).
Proof.
  intros Hwf Hi. unfold haxTimersLoop.
  apply (forLines_focus (timerOf i) (fun s => timerStep (now s) (timerOf i s))
           haxTimer wf i); auto.
  - intros j. apply wf_haxTimer.
  - intros j Hj. apply timerOf_haxTimer_other, Hj.
  - intros j Hj s. rewrite now_haxTimer, timerOf_haxTimer_other by exact Hj.
    reflexivity.
  - intros s Hs. apply timerOf_haxTimer; assumption.
Qed.

Lemma desired_haxTimersLoop (i : nat) (st : State) :
  wf st -> (i < 6)%nat ->
  desired i (haxTimersLoop st)
  = if (1 <? timerMode i st) && (timerTrigger i st =? now st)
    then negb (timerIsOn i st) else desired i st.
Proof.
  intros Hwf Hi. unfold haxTimersLoop.
  apply (forLines_focus (desired i)
           (fun s => if (1 <? timerMode i s) && (timerTrigger i s =? now s)
                     then negb (timerIsOn i s) else desired i s)
           haxTimer wf i); auto.
  - intros j. apply wf_haxTimer.
  - intros j Hj. apply desired_haxTimer_other, Hj.
  - intros j Hj s. pose proof (timerOf_haxTimer_other i j Hj s) as E.
    unfold timerOf in E. inversion E as [[E1 E2 E3]].
    rewrite E1, E2, E3, now_haxTimer, desired_haxTimer_other by exact Hj.
    reflexivity.
  - intros s Hs. apply desired_haxTimer; assumption.
Qed.

Lemma timerOf_everySecond cfg r q (i : nat) (st : State) :
  wf st -> (i < 6)%nat ->
  timerOf i (everySecond cfg r q st) = timerStep (now st) (timerOf i st).
Proof.
  intros Hwf Hi.
  assert (Hpre : preserves wf (countDown ;; rainReset r ;; everyMinute q ;; pumpTimes ;;
                  dailyRotation ;; wateringSequence cfg ;; fertiliseTrigger ;;
                  fertilisePriming ;; fertiliseSweep cfg)) by preserves_wf.
  specialize (Hpre st Hwf).
  unfold everySecond. rewrite !andThen_apply in *.
  match goal with
  | |- timerOf i (endOfSecond (haxTimersLoop ?P)) = _ => set (p := P) in *
  end.
  transitivity (timerOf i (haxTimersLoop p)).
  { apply timerOf_frame.
    assert (H : keeps haxTimers endOfSecond) by keeps_tac. apply H. }
  rewrite timerOf_haxTimersLoop by assumption. subst p.
  f_equal.
  - unfold now. push time. reflexivity.
  - apply timerOf_frame. push haxTimers. reflexivity.
Qed.

Lemma desired_everySecond_fires cfg r q (i : nat) (st : State) :
  wf st -> (i < 6)%nat ->
  1 < timerMode i st -> timerTrigger i st = now st ->
  desired i (everySecond cfg r q st) = negb (timerIsOn i st).
Proof.
  intros Hwf Hi Hm Ht.
  assert (Hpre : preserves wf (countDown ;; rainReset r ;; everyMinute q ;; pumpTimes ;;
                  dailyRotation ;; wateringSequence cfg ;; fertiliseTrigger ;;
                  fertilisePriming ;; fertiliseSweep cfg)) by preserves_wf.
  specialize (Hpre st Hwf).
  unfold everySecond. rewrite !andThen_apply in *.
  match goal with
  | |- desired i (endOfSecond (haxTimersLoop ?P)) = _ => set (p := P) in *
  end.
  assert (Ep : haxTimers p = haxTimers st) by (subst p; push haxTimers; reflexivity).
  assert (Et : now p = now st) by (subst p; unfold now; push time; reflexivity).
  transitivity (desired i (haxTimersLoop p)).
  { unfold desired.
    assert (H : keeps haxSolenoidOn endOfSecond) by keeps_tac. rewrite H.
    reflexivity. }
  rewrite desired_haxTimersLoop by assumption.
  unfold timerMode, timerTrigger, timerIsOn in *. rewrite Ep, Et.
  replace (1 <? _) with true by (symmetry; apply Z.ltb_lt; exact Hm).
  rewrite Ht, Z.eqb_refl. reflexivity.
Qed.

Lemma timerOf_loop cfg inp (i : nat) (st : State) :
  wf st -> (i < 6)%nat -> newSecond inp st ->
  timerOf i (loop cfg inp st) = timerStep (getUnixTime (rtcNow inp)) (timerOf i st).
Proof.
  intros Hwf Hi Hn. rewrite loop_newSecond by auto.
  rewrite timerOf_everySecond by first [assumption | apply wf_everyPass; assumption].
  unfold now. rewrite time_everyPass. f_equal.
  apply timerOf_frame. push haxTimers. reflexivity.
Qed.

Lemma timerOf_loop_sameSecond cfg inp (i : nat) (st : State) :
  getSecond (rtcNow inp) = lastSecond st ->
  timerOf i (loop cfg inp st) = timerOf i st.
Proof.
  intros H. rewrite loop_sameSecond by auto.
  apply timerOf_frame. push haxTimers. reflexivity.
Qed.

Lemma desired_loop_fires cfg inp (i : nat) (st : State) :
  wf st -> (i < 6)%nat -> newSecond inp st ->
  1 < timerMode i st -> timerTrigger i st = getUnixTime (rtcNow inp) ->
  desired i (loop cfg inp st) = negb (timerIsOn i st).
Proof.
  intros Hwf Hi Hn Hm Ht. rewrite loop_newSecond by auto.
  assert (E : haxTimers (everyPass inp st) = haxTimers st)
    by (push haxTimers; reflexivity).
  rewrite desired_everySecond_fires.
  - unfold timerIsOn. rewrite E. reflexivity.
  - apply wf_everyPass; assumption.
  - assumption.
  - unfold timerMode in *. rewrite E. assumption.
  - unfold timerTrigger, now in *. rewrite E, time_everyPass. assumption.
Qed.

(** ** Runs of passes, one per second *)

Lemma oncePerSecond_split cfg (l1 l2 : list Inputs) (st : State) (t : Z) :
  oncePerSecond (lastSecond st) t (l1 ++ l2) ->
  oncePerSecond (lastSecond st) t l1
  /\ oncePerSecond (lastSecond (runLoop cfg l1 st)) (t + Z.of_nat (length l1)) l2.
Proof.
  revert st t. induction l1 as [|inp l1 IH]; intros st t H.
  - cbn [app length runLoop fold_left Z.of_nat] in *. rewrite Z.add_0_r.
    split; [exact I | exact H].
  - cbn [app oncePerSecond] in H. destruct H as (H1 & H2 & H3).
    rewrite runLoop_cons.
    rewrite <- (lastSecond_loop cfg inp st) in H3.
    destruct (IH _ _ H3) as (IH1 & IH2).
    split.
    + cbn [oncePerSecond]. rewrite lastSecond_loop in IH1. auto.
    + replace (t + Z.of_nat (length (inp :: l1)))
        with (t + 1 + Z.of_nat (length l1)) by (cbn [length]; lia).
      exact IH2.
Qed.

Lemma timerStep_quiet (t m tr : Z) (on : bool) :
  m <= 1 \/ tr <> t -> timerStep t (m, tr, on) = (m, tr, on).
Proof.
  intros H. unfold timerStep.
  destruct (Z.ltb_spec 1 m); destruct (Z.eqb_spec tr t); cbn [andb];
    try reflexivity; lia.
Qed.

Lemma timer_quiet_run cfg (i : nat) (inps : list Inputs) :
  forall (st : State) (t m tr : Z) (on : bool),
    wf st -> (i < 6)%nat ->
    oncePerSecond (lastSecond st) t inps ->
    timerOf i st = (m, tr, on) ->
    m <= 1 \/ tr < t \/ t + Z.of_nat (length inps) <= tr ->
    timerOf i (runLoop cfg inps st) = (m, tr, on).
Proof.
  induction inps as [|inp inps IH]; intros st t m tr on Hwf Hi Ho Ht Hq.
  - exact Ht.
  - cbn [oncePerSecond] in Ho. destruct Ho as (H1 & H2 & H3).
    rewrite runLoop_cons. apply (IH _ (t + 1)).
    + apply wf_loop, Hwf.
    + exact Hi.
    + rewrite lastSecond_loop. exact H3.
    + rewrite timerOf_loop by assumption. rewrite Ht, H2.
      apply timerStep_quiet. cbn [length] in Hq. lia.
    + cbn [length] in Hq. lia.
Qed.

(** A timer that is off or permanently on is never touched again,
    whatever the passes are. *)
Lemma timer_off_run cfg (i : nat) (inps : list Inputs) :
  forall (st : State) (m tr : Z) (on : bool),
    wf st -> (i < 6)%nat ->
    timerOf i st = (m, tr, on) -> m <= 1 ->
    timerOf i (runLoop cfg inps st) = (m, tr, on).
Proof.
  induction inps as [|inp inps IH]; intros st m tr on Hwf Hi Ht Hm.
  - exact Ht.
  - rewrite runLoop_cons. apply IH; auto.
    + apply wf_loop, Hwf.
    + destruct (Z.eq_dec (getSecond (rtcNow inp)) (lastSecond st)) as [E|E].
      * rewrite timerOf_loop_sameSecond by exact E. exact Ht.
      * rewrite timerOf_loop by assumption. rewrite Ht.
        apply timerStep_quiet. lia.
Qed.

(** The pass at the trigger time fires the timer; the passes after it see
    the timer as the firing left it, as long as the new trigger time is
    not reached. *)
Lemma timer_fire_run cfg (i : nat) (inp : Inputs) (inps : list Inputs)
    (st : State) (t m tr' : Z) (on on' : bool) (m' : Z) :
  wf st -> (i < 6)%nat ->
  oncePerSecond (lastSecond st) t (inp :: inps) ->
  timerOf i st = (m, t, on) ->
  timerStep t (m, t, on) = (m', tr', on') ->
  m' <= 1 \/ tr' < t + 1 \/ t + 1 + Z.of_nat (length inps) <= tr' ->
  timerOf i (runLoop cfg (inp :: inps) st) = (m', tr', on').
Proof.
  intros Hwf Hi Ho Ht Hs Hq.
  cbn [oncePerSecond] in Ho. destruct Ho as (H1 & H2 & H3).
  rewrite runLoop_cons. apply (timer_quiet_run cfg i inps _ (t + 1)).
  - apply wf_loop, Hwf.
  - exact Hi.
  - rewrite lastSecond_loop. exact H3.
  - rewrite timerOf_loop by assumption. rewrite Ht, H2. exact Hs.
  - exact Hq.
Qed.

Lemma weekly_on (t m : Z) :
  m = 4 \/ m = 5 ->
  timerStep t (m, t, false) = (m, t + (if m =? 4 then 600 else 1200), true).
Proof. intros [-> | ->]; unfold timerStep; rewrite Z.eqb_refl; reflexivity. Qed.

Lemma weekly_off (t m : Z) :
  m = 4 \/ m = 5 ->
  timerStep t (m, t, true)
  = (m, t + 604800 - (if m =? 4 then 600 else 1200), false).
Proof. intros [-> | ->]; unfold timerStep; rewrite Z.eqb_refl; reflexivity. Qed.

Lemma one_shot (t m : Z) (on : bool) :
  m = 2 \/ m = 3 -> timerStep t (m, t, on) = (0, 0, negb on).
Proof. intros [-> | ->]; unfold timerStep; rewrite Z.eqb_refl; reflexivity. Qed.

Lemma weekly_run_on cfg (i : nat) (inps : list Inputs) (st : State) (t m : Z) :
  wf st -> (i < 6)%nat -> m = 4 \/ m = 5 ->
  timerOf i st = (m, t, false) ->
  oncePerSecond (lastSecond st) t inps ->
  1 <= Z.of_nat (length inps) <= (if m =? 4 then 600 else 1200) ->
  timerOf i (runLoop cfg inps st) = (m, t + (if m =? 4 then 600 else 1200), true).
Proof.
  intros Hwf Hi Hm Ht Ho Hn.
  destruct inps as [|inp inps]; [cbn [length] in Hn; lia|].
  apply (timer_fire_run cfg i inp inps st t m _ false); auto.
  - apply weekly_on, Hm.
  - cbn [length] in Hn. lia.
Qed.

Lemma weekly_run_off cfg (i : nat) (inps : list Inputs) (st : State) (t m : Z) :
  wf st -> (i < 6)%nat -> m = 4 \/ m = 5 ->
  timerOf i st = (m, t, true) ->
  oncePerSecond (lastSecond st) t inps ->
  1 <= Z.of_nat (length inps) <= 604800 - (if m =? 4 then 600 else 1200) ->
  timerOf i (runLoop cfg inps st)
  = (m, t + 604800 - (if m =? 4 then 600 else 1200), false).
Proof.
  intros Hwf Hi Hm Ht Ho Hn.
  destruct inps as [|inp inps]; [cbn [length] in Hn; lia|].
  apply (timer_fire_run cfg i inp inps st t m _ true); auto.
  - apply weekly_off, Hm.
  - cbn [length] in Hn. destruct Hm as [-> | ->]; cbn in *; lia.
Qed.

Lemma firstn_skipn_lengths {A} (k : nat) (l : list A) :
  (k <= length l)%nat ->
  length (firstn k l) = k /\ length (skipn k l) = (length l - k)%nat.
Proof.
  intros H. split; [apply firstn_length_le, H | apply length_skipn].
Qed.

(** ** The weekly and the one-shot hack timers *)

(** C7.  A weekly hack timer (mode 4, [Timer10Weekly], with 600 seconds, or
    mode 5, [Timer20Weekly], with 1200 seconds) that fires at epoch second
    [t] with the line off switches the line on and is armed for [t + span];
    it stays so for the passes up to [t + span - 1]; the pass at [t + span]
    switches the line off and arms the timer for [t + 604800], where the
    next firing switches the line on again.  The mode never changes. *)
Theorem C7_weekly_timer_rearms (cfg : Settings) (i : nat) (mode : Z)
    (inps : list Inputs) (st : State) (t : Z) :
  wf st -> (i < 6)%nat ->
  mode = 4 \/ mode = 5 ->
  timerOf i st = (mode, t, false) ->
  oncePerSecond (lastSecond st) t inps ->
  let span := if mode =? 4 then 600 else 1200 in
  let n := Z.of_nat (length inps) in
  (1 <= n -> desired i (runLoop cfg (firstn 1 inps) st) = true)
  /\ (1 <= n <= span ->
      timerOf i (runLoop cfg inps st) = (mode, t + span, true))
  /\ (span < n <= 604800 ->
      timerOf i (runLoop cfg inps st) = (mode, t + 604800, false)
      /\ desired i (runLoop cfg (firstn (Z.to_nat span + 1) inps) st) = false)
  /\ (n = 604801 ->
      timerOf i (runLoop cfg inps st) = (mode, t + 604800 + span, true)
      /\ desired i (runLoop cfg inps st) = true).
Proof.
  intros Hwf Hi Hm Ht Ho span n.
  assert (Hspan : 600 <= span <= 1200) by (subst span; destruct Hm as [-> | ->]; cbn; lia).
  (* the state after the first [k] passes and the run that follows *)
  assert (Hsplit : forall k, (k <= length inps)%nat ->
            oncePerSecond (lastSecond st) t (firstn k inps)
            /\ oncePerSecond (lastSecond (runLoop cfg (firstn k inps) st))
                 (t + Z.of_nat k) (skipn k inps)
            /\ runLoop cfg inps st
               = runLoop cfg (skipn k inps) (runLoop cfg (firstn k inps) st)
            /\ length (firstn k inps) = k
            /\ length (skipn k inps) = (length inps - k)%nat).
  { intros k Hk. destruct (firstn_skipn_lengths k inps Hk) as (L1 & L2).
    pose proof Ho as Ho'. rewrite <- (firstn_skipn k inps) in Ho'.
    apply (oncePerSecond_split cfg) in Ho'. rewrite L1 in Ho'.
    destruct Ho' as (A & B). repeat split; auto.
    rewrite <- runLoop_app, firstn_skipn. reflexivity. }
  (* the pass at [t] *)
  assert (P1 : 1 <= n -> desired i (runLoop cfg (firstn 1 inps) st) = true).
  { intros Hn. destruct inps as [|inp inps]; [cbn in n; lia|].
    cbn [firstn]. rewrite runLoop_cons. cbn [runLoop fold_left].
    cbn [oncePerSecond] in Ho. destruct Ho as (H1 & H2 & _).
    destruct (timerOf_cells _ _ _ _ _ Ht) as (M & T & O).
    rewrite desired_loop_fires
      by first [assumption | lia | congruence].
    rewrite O. reflexivity. }
  (* the passes at [t .. t + span - 1] *)
  assert (P2 : forall l s, wf s -> timerOf i s = (mode, t, false) ->
                 oncePerSecond (lastSecond s) t l ->
                 1 <= Z.of_nat (length l) <= span ->
                 timerOf i (runLoop cfg l s) = (mode, t + span, true)).
  { intros l s Hs Hts Hos Hl. apply weekly_run_on; auto. }
  (* the passes at [t + span .. t + 604799] *)
  assert (P3 : forall l s, wf s -> timerOf i s = (mode, t, false) ->
                 oncePerSecond (lastSecond s) t l ->
                 span < Z.of_nat (length l) <= 604800 ->
                 timerOf i (runLoop cfg l s) = (mode, t + 604800, false)).
  { intros l s Hs Hts Hos Hl. clear Hsplit P1.
    assert (Hk : (Z.to_nat span <= length l)%nat) by lia.
    destruct (firstn_skipn_lengths (Z.to_nat span) l Hk) as (L1 & L2).
    pose proof Hos as Ho'. rewrite <- (firstn_skipn (Z.to_nat span) l) in Ho'.
    apply (oncePerSecond_split cfg) in Ho'. rewrite L1 in Ho'.
    destruct Ho' as (A & B).
    rewrite <- (firstn_skipn (Z.to_nat span) l), runLoop_app.
    replace (t + 604800) with (t + span + 604800 - span) by lia.
    apply weekly_run_off; auto.
    - apply wf_runLoop, Hs.
    - apply P2; auto; lia.
    - replace (t + span) with (t + Z.of_nat (Z.to_nat span)) by lia. exact B.
    - fold span. lia. }
  split; [exact P1|]. split; [intros Hn; apply P2; auto|].
  split; intros Hn; split.
  - apply P3; auto.
  - destruct Hn as (Hn1 & Hn2).
    destruct (Hsplit (Z.to_nat span + 1)%nat ltac:(lia)) as (A & B & C & L1 & L2).
    destruct (Hsplit (Z.to_nat span) ltac:(lia)) as (A' & B' & C' & L1' & L2').
    (* the pass at [t + span] fires with the line on *)
    assert (E : firstn (Z.to_nat span + 1) inps
                = firstn (Z.to_nat span) inps
                  ++ firstn 1 (skipn (Z.to_nat span) inps)).
    { rewrite <- (firstn_skipn (Z.to_nat span) inps) at 1.
      rewrite firstn_app, L1'.
      rewrite firstn_all2 by (rewrite L1'; lia).
      replace (Z.to_nat span + 1 - Z.to_nat span)%nat with 1%nat by lia.
      reflexivity. }
    rewrite E, runLoop_app.
    destruct (skipn (Z.to_nat span) inps) as [|inp rest] eqn:Es;
      [cbn [length] in L2'; lia|].
    cbn [firstn]. rewrite runLoop_cons. cbn [runLoop fold_left].
    cbn [oncePerSecond] in B'. destruct B' as (H1 & H2 & _).
    assert (Tm : timerOf i (runLoop cfg (firstn (Z.to_nat span) inps) st)
                 = (mode, t + span, true)) by (apply P2; auto; lia).
    destruct (timerOf_cells _ _ _ _ _ Tm) as (M & T & O).
    rewrite desired_loop_fires
      by first [assumption | apply wf_runLoop; assumption | lia | congruence].
    rewrite O. reflexivity.
  - destruct (Hsplit (Z.to_nat 604800) ltac:(lia)) as (A & B & C & L1 & L2).
    rewrite C.
    destruct (skipn (Z.to_nat 604800) inps) as [|inp rest] eqn:Es;
      [cbn [length] in L2; lia|].
    assert (rest = []) by (destruct rest; [reflexivity | cbn [length] in L2; lia]).
    subst rest. rewrite runLoop_cons. cbn [runLoop fold_left].
    cbn [oncePerSecond] in B. destruct B as (H1 & H2 & _).
    assert (Tm : timerOf i (runLoop cfg (firstn (Z.to_nat 604800) inps) st)
                 = (mode, t + 604800, false)) by (apply P3; auto; lia).
    rewrite timerOf_loop
      by first [assumption | apply wf_runLoop; assumption].
    rewrite Tm, H2. replace (t + Z.of_nat (Z.to_nat 604800)) with (t + 604800) by lia.
    rewrite weekly_on by exact Hm. reflexivity.
  - destruct (Hsplit (Z.to_nat 604800) ltac:(lia)) as (A & B & C & L1 & L2).
    rewrite C.
    destruct (skipn (Z.to_nat 604800) inps) as [|inp rest] eqn:Es;
      [cbn [length] in L2; lia|].
    assert (rest = []) by (destruct rest; [reflexivity | cbn [length] in L2; lia]).
    subst rest. rewrite runLoop_cons. cbn [runLoop fold_left].
    cbn [oncePerSecond] in B. destruct B as (H1 & H2 & _).
    assert (Tm : timerOf i (runLoop cfg (firstn (Z.to_nat 604800) inps) st)
                 = (mode, t + 604800, false)) by (apply P3; auto; lia).
    destruct (timerOf_cells _ _ _ _ _ Tm) as (M & T & O).
    rewrite desired_loop_fires
      by first [assumption | apply wf_runLoop; assumption | lia | congruence].
    rewrite O. reflexivity.
Qed.

Lemma C7_weekly_timer_rearms_witness :
  desired 0 (runLoop settings (firstn 1 weekLater) weeklyOff) = true
  /\ timerOf 0 (runLoop settings weekLater weeklyOff) = (4, 1604800 + 600, true).
Proof.
  destruct (C7_weekly_timer_rearms settings 0 4 weekLater weeklyOff 1604800)
    as (H1 & H2 & _).
  - vm_compute. repeat split.
  - lia.
  - left. reflexivity.
  - vm_compute. reflexivity.
  - vm_compute. repeat split; discriminate.
  - split; [apply H1 | apply H2]; cbn; lia.
Defined.

(** C8 (as amended).  When the trigger time of a timer in a non-weekly
    timed mode (2, [Timer10], or 3, [Timer20]) is reached, the pass toggles
    [isOn] once, asks the line to take the new position, clears the trigger
    time and puts the mode back to 0 ([Off]); no later pass touches the
    timer again. *)
Theorem C8_one_shot_timer_reverts_to_off (cfg : Settings) (i : nat)
    (inp : Inputs) (later : list Inputs) (st : State) :
  wf st -> (i < 6)%nat -> newSecond inp st ->
  timerMode i st = 2 \/ timerMode i st = 3 ->
  timerTrigger i st = getUnixTime (rtcNow inp) ->
  timerOf i (loop cfg inp st) = (0, 0, negb (timerIsOn i st))
  /\ desired i (loop cfg inp st) = negb (timerIsOn i st)
  /\ timerOf i (runLoop cfg later (loop cfg inp st)) = (0, 0, negb (timerIsOn i st)).
Proof.
  intros Hwf Hi Hn Hm Ht.
  assert (E : timerOf i (loop cfg inp st) = (0, 0, negb (timerIsOn i st))).
  { rewrite timerOf_loop by assumption. unfold timerOf. rewrite Ht.
    apply one_shot, Hm. }
  split; [exact E|]. split.
  - apply desired_loop_fires; auto. lia.
  - apply timer_off_run; auto; try lia. apply wf_loop, Hwf.
Qed.

Lemma C8_one_shot_timer_reverts_to_off_witness :
  timerOf 0 (loop settings tenMinutesLater oneShotArmed) = (0, 0, false)
  /\ desired 0 (loop settings tenMinutesLater oneShotArmed) = false.
Proof.
  destruct (C8_one_shot_timer_reverts_to_off settings 0 tenMinutesLater []
              oneShotArmed) as (H1 & H2 & _).
  - vm_compute. repeat split.
  - lia.
  - vm_compute. discriminate.
  - left. reflexivity.
  - reflexivity.
  - split; [exact H1 | exact H2].
Defined.

Lemma C8_mode_does_not_stay : ~ oneShotKeepsMode.
Proof.
  intros H.
  destruct (H settings tenMinutesLater oneShotArmed 0%nat) as (_ & E).
  - vm_compute. repeat split.
  - lia.
  - vm_compute. discriminate.
  - left. reflexivity.
  - reflexivity.
  - vm_compute in E. discriminate.
Qed.

(** ** The relay gate and the cooldown counter *)

Lemma isRelay_spinPin (i : nat) : isRelay (spinPin i) = false.
Proof. do 7 (destruct i as [|i]; [reflexivity|]). reflexivity. Qed.

Lemma relayLog_digitalWrite (p : Z) (v : bool) (st : State) :
  relayLog (digitalWrite p v st)
  = if isRelay p then (p, v) :: relayLog st else relayLog st.
Proof. unfold relayLog, digitalWrite. cbn [pinLog set_pinLog filter fst]. reflexivity. Qed.

Lemma relayLog_spin (i : nat) (v : bool) : keeps relayLog (digitalWrite (spinPin i) v).
Proof. intros st. rewrite relayLog_digitalWrite, isRelay_spinPin. reflexivity. Qed.

Lemma relayLog_frame (st st' : State) :
  pinLog st' = pinLog st -> relayLog st' = relayLog st.
Proof. unfold relayLog. intros ->. reflexivity. Qed.

Ltac keeps_relay :=
  lazymatch goal with
  | |- keeps _ (_ ;; _) => apply keeps_andThen; keeps_relay
  | |- keeps _ (when _ _) => apply keeps_when; keeps_relay
  | |- keeps _ (ifElse _ _ _) => apply keeps_ifElse; keeps_relay
  | |- keeps _ (reading _ _) => apply keeps_reading; intro; keeps_relay
  | |- keeps _ (forLines _) => apply keeps_forLines; intro; keeps_relay
  | |- keeps _ skip => apply keeps_skip
  | |- keeps _ (digitalWrite (spinPin _) _) => apply relayLog_spin
  | |- keeps _ _ => first [ open_block; keeps_relay | intro; reflexivity ]
  end.

Lemma relayLog_everyPass inp : keeps relayLog (everyPass inp).
Proof. keeps_relay. Qed.

Lemma noPinInterrupts_everyPass inp : keeps noPinInterrupts (everyPass inp).
Proof. keeps_tac. Qed.

Section Gated.
Lemma gated_keeps (f : Stmt) :
  keeps relayLog f -> keeps noPinInterrupts f -> gated f.
Proof. intros H1 H2 st. left. split; [apply H1 | apply H2]. Qed.

Lemma gated_andThen (f g : Stmt) : gated f -> gated g -> gated (f ;; g).
Proof.
  intros Hf Hg st. unfold andThen.
  destruct (Hf st) as [(F1 & F2) | (F1 & F2)];
    destruct (Hg (f st)) as [(G1 & G2) | (G1 & G2)].
  - left. split; congruence.
  - right. split; [rewrite <- F1; exact G1 | exact G2].
  - right. split; [rewrite G1; exact F1 | congruence].
  - right. split; [lia | exact G2].
Qed.

Lemma gated_when (c : State -> bool) (f : Stmt) : gated f -> gated (when c f).
Proof.
  intros Hf st. unfold when. destruct (c st); [apply Hf | left; auto].
Qed.

Lemma gated_ifElse (c : State -> bool) (f g : Stmt) :
  gated f -> gated g -> gated (ifElse c f g).
Proof. intros Hf Hg st. unfold ifElse. destruct (c st); [apply Hf | apply Hg]. Qed.

Lemma gated_safeRelayWrite (p : Z) (v : bool) :
  isRelay p = true -> gated (safeRelayWrite p v).
Proof.
  intros Hp st. right. unfold safeRelayWrite, andThen.
  rewrite relayLog_digitalWrite, Hp. cbn [length]. split; [|reflexivity].
  rewrite (relayLog_frame st (set_noPinInterrupts 2 st)) by reflexivity. lia.
Qed.

End Gated.

Ltac gated_tac :=
  lazymatch goal with
  | |- gated (_ ;; _) => apply gated_andThen; gated_tac
  | |- gated (when _ _) => apply gated_when; gated_tac
  | |- gated (ifElse _ _ _) => apply gated_ifElse; gated_tac
  | |- gated (safeRelayWrite _ _) => apply gated_safeRelayWrite; reflexivity
  | |- gated _ =>
      first [ apply gated_keeps; [keeps_relay | keeps_tac]
            | progress unfold everySecond, pumpTimes, fertilisePriming; gated_tac ]
  end.

(** Everything the timed procedures do after the countdown is gated. *)
Lemma gated_afterCountDown cfg r q :
  gated (rainReset r ;; everyMinute q ;; pumpTimes ;; dailyRotation ;;
         wateringSequence cfg ;; fertiliseTrigger ;; fertilisePriming ;;
         fertiliseSweep cfg ;; haxTimersLoop ;; endOfSecond).
Proof. gated_tac. Qed.

Lemma noPinInterrupts_countDown (st : State) :
  noPinInterrupts (countDown st)
  = if noPinInterrupts st =? 0 then 0 else noPinInterrupts st - 1.
Proof.
  unfold countDown, when, reading.
  destruct (Z.eqb_spec (noPinInterrupts st) 0) as [E|E]; cbn [negb]; auto.
Qed.

(** A pass that shows a new second either makes no relay write and counts
    the cooldown down by one, or makes one and leaves the counter at 2. *)
Lemma cooldown_newSecond cfg inp (st : State) :
  newSecond inp st ->
  (relayLog (loop cfg inp st) = relayLog st
   /\ noPinInterrupts (loop cfg inp st)
      = if noPinInterrupts st =? 0 then 0 else noPinInterrupts st - 1)
  \/ ((length (relayLog st) < length (relayLog (loop cfg inp st)))%nat
      /\ noPinInterrupts (loop cfg inp st) = 2).
Proof.
  intros Hn. rewrite loop_newSecond by exact Hn.
  unfold everySecond. rewrite andThen_apply.
  pose proof (gated_afterCountDown cfg (rainRead inp) (tempRead inp)
                (countDown (everyPass inp st))) as G.
  assert (R : relayLog (countDown (everyPass inp st)) = relayLog st).
  { rewrite <- (relayLog_everyPass inp st). apply relayLog_frame.
    assert (K : keeps pinLog countDown) by keeps_tac. apply K. }
  assert (C : noPinInterrupts (countDown (everyPass inp st))
              = if noPinInterrupts st =? 0 then 0 else noPinInterrupts st - 1).
  { rewrite noPinInterrupts_countDown, !noPinInterrupts_everyPass. reflexivity. }
  rewrite R, C in G. exact G.
Qed.

(** A pass within the same second leaves the relays and the counter alone. *)
Lemma cooldown_sameSecond cfg inp (st : State) :
  getSecond (rtcNow inp) = lastSecond st ->
  relayLog (loop cfg inp st) = relayLog st
  /\ noPinInterrupts (loop cfg inp st) = noPinInterrupts st.
Proof.
  intros H. rewrite loop_sameSecond by exact H.
  split; [apply relayLog_everyPass | apply noPinInterrupts_everyPass].
Qed.

Lemma echo_ignored (echo : bool) (micros : Z) (st : State) :
  noPinInterrupts st <> 0 -> waterTankUltrasonicEcho echo micros st = st.
Proof.
  intros H. unfold waterTankUltrasonicEcho. apply ifElse_true.
  apply negb_true_iff, Z.eqb_neq, H.
Qed.

Lemma echo_taken (echo : bool) (micros : Z) (st : State) :
  noPinInterrupts st = 0 ->
  waterTankUltrasonicEcho echo micros st
  = if echo then set_waterTankUltrasonicTimer micros st
    else set_todayTankLevel (to_ulong (micros - waterTankUltrasonicTimer st)) st.
Proof.
  intros H. unfold waterTankUltrasonicEcho.
  rewrite ifElse_false by (rewrite H; reflexivity).
  unfold ifElse, reading. reflexivity.
Qed.

(** C9.  [safeRelayWrite] sets the cooldown counter to 2, and so does every
    pass of [loop] that writes to a relay.  From a state with the counter
    at 2, the first pass on a new second without a relay write leaves it
    at 1 and the second such pass at 0.  The interrupt handler changes
    nothing (no edge time, no sample) while the counter is not 0, that is
    up to the second of these passes, and stores the edge time or the
    sample once it is 0. *)
Theorem C9_interrupt_cooldown (cfg : Settings) (inp1 inp2 : Inputs) (st : State)
    (echo : bool) (micros : Z) :
  noPinInterrupts st = 2 ->
  newSecond inp1 st -> relayLog (loop cfg inp1 st) = relayLog st ->
  newSecond inp2 (loop cfg inp1 st) ->
  relayLog (loop cfg inp2 (loop cfg inp1 st)) = relayLog (loop cfg inp1 st) ->
  let s1 := loop cfg inp1 st in
  let s2 := loop cfg inp2 s1 in
  (forall pin v s, noPinInterrupts (safeRelayWrite pin v s) = 2)
  /\ waterTankUltrasonicEcho echo micros st = st
  /\ noPinInterrupts s1 = 1
  /\ waterTankUltrasonicEcho echo micros s1 = s1
  /\ noPinInterrupts s2 = 0
  /\ waterTankUltrasonicEcho true micros s2 = set_waterTankUltrasonicTimer micros s2
  /\ waterTankUltrasonicEcho false micros s2
     = set_todayTankLevel (to_ulong (micros - waterTankUltrasonicTimer s2)) s2.
Proof.
  intros H0 N1 R1 N2 R2 s1 s2.
  assert (C1 : noPinInterrupts s1 = 1).
  { destruct (cooldown_newSecond cfg inp1 st N1) as [(_ & C) | (L & _)].
    - subst s1. rewrite C, H0. reflexivity.
    - fold s1 in R1. subst s1. rewrite R1 in L. lia. }
  assert (C2 : noPinInterrupts s2 = 0).
  { destruct (cooldown_newSecond cfg inp2 s1 N2) as [(_ & C) | (L & _)].
    - subst s2. rewrite C, C1. reflexivity.
    - subst s2 s1. rewrite R2 in L. lia. }
  split; [reflexivity|].
  split; [apply echo_ignored; lia|].
  split; [exact C1|].
  split; [apply echo_ignored; lia|].
  split; [exact C2|].
  split; [exact (echo_taken true micros s2 C2) | exact (echo_taken false micros s2 C2)].
Qed.

Lemma C9_interrupt_cooldown_witness :
  noPinInterrupts (loop settings oneSecondLater pumpSwitched) = 1
  /\ noPinInterrupts
       (loop settings twoSecondsLater (loop settings oneSecondLater pumpSwitched)) = 0.
Proof.
  destruct (C9_interrupt_cooldown settings oneSecondLater twoSecondsLater
              pumpSwitched true 0) as (_ & _ & H1 & _ & H2 & _).
  - reflexivity.
  - vm_compute. discriminate.
  - vm_compute. reflexivity.
  - vm_compute. discriminate.
  - vm_compute. reflexivity.
  - split; [exact H1 | exact H2].
Defined.

(** ** What a pass adds to the log of relay writes *)

Section RelayExtends.
Lemma relayExtends_keeps (f : Stmt) : keeps relayLog f -> relayExtends f.
Proof. intros H st. exists []. apply H. Qed.

Lemma relayExtends_andThen (f g : Stmt) :
  relayExtends f -> relayExtends g -> relayExtends (f ;; g).
Proof.
  intros Hf Hg st. unfold andThen.
  destruct (Hf st) as (m1 & E1). destruct (Hg (f st)) as (m2 & E2).
  exists (m2 ++ m1). rewrite E2, E1. apply app_assoc.
Qed.

Lemma relayExtends_when (c : State -> bool) (f : Stmt) :
  relayExtends f -> relayExtends (when c f).
Proof.
  intros Hf st. unfold when. destruct (c st); [apply Hf | exists []; reflexivity].
Qed.

Lemma relayExtends_safeRelayWrite (p : Z) (v : bool) :
  relayExtends (safeRelayWrite p v).
Proof.
  intros st. unfold safeRelayWrite, andThen. rewrite relayLog_digitalWrite.
  rewrite (relayLog_frame st (set_noPinInterrupts 2 st)) by reflexivity.
  destruct (isRelay p); [exists [(p, v)] | exists []]; reflexivity.
Qed.

End RelayExtends.

Ltac relayExtends_tac :=
  lazymatch goal with
  | |- relayExtends (_ ;; _) => apply relayExtends_andThen; relayExtends_tac
  | |- relayExtends (when _ _) => apply relayExtends_when; relayExtends_tac
  | |- relayExtends (safeRelayWrite _ _) => apply relayExtends_safeRelayWrite
  | |- relayExtends _ =>
      first [ apply relayExtends_keeps; keeps_relay
            | progress unfold everySecond, pumpTimes, fertilisePriming;
              relayExtends_tac ]
  end.

Lemma relayExtends_afterPump cfg :
  relayExtends (dailyRotation ;; wateringSequence cfg ;; fertiliseTrigger ;;
                fertilisePriming ;; fertiliseSweep cfg ;; haxTimersLoop ;;
                endOfSecond).
Proof. relayExtends_tac. Qed.

Lemma relayLog_safeRelayWrite (p : Z) (v : bool) (st : State) :
  isRelay p = true -> relayLog (safeRelayWrite p v st) = (p, v) :: relayLog st.
Proof.
  intros Hp. unfold safeRelayWrite, andThen. rewrite relayLog_digitalWrite, Hp.
  rewrite (relayLog_frame st (set_noPinInterrupts 2 st)) by reflexivity.
  reflexivity.
Qed.

(** The state in which a pass on a new second reaches the daily pump run. *)
Lemma loop_through_pumpTimes cfg inp (st : State) :
  newSecond inp st ->
  exists s,
    loop cfg inp st
    = (dailyRotation ;; wateringSequence cfg ;; fertiliseTrigger ;;
       fertilisePriming ;; fertiliseSweep cfg ;; haxTimersLoop ;; endOfSecond)
        (pumpTimes s)
    /\ time s = rtcNow inp /\ automation s = automation st
    /\ relayLog s = relayLog st.
Proof.
  intros Hn. rewrite loop_newSecond by exact Hn.
  exists (everyMinute (tempRead inp) (rainReset (rainRead inp)
            (countDown (everyPass inp st)))).
  split; [reflexivity|]. split; [|split].
  - push time. apply time_everyPass.
  - push automation. reflexivity.
  - rewrite <- (relayLog_everyPass inp st).
    assert (K : keeps relayLog (countDown ;; rainReset (rainRead inp) ;;
                                everyMinute (tempRead inp))) by keeps_relay.
    apply (K (everyPass inp st)).
Qed.

(** C10.  The daily pump run (lines 352-357): in a pass that shows the new
    second 07:10:00, on any day of the week, with the pump switch on, the
    first relay write of the pass switches the pump relay on through
    [safeRelayWrite]; in the pass at 07:12:00 it switches it off.  With the
    pump switch off, or at any other clock reading, the block does nothing.
    The block leaves the cells of the watering and the fertilising sequence
    alone and acts the same whatever they hold. *)
Theorem C10_daily_pump_run (cfg : Settings) (inp : Inputs) (st : State)
    (minute : Z) (v : bool) :
  newSecond inp st ->
  getHour (rtcNow inp) = 7 -> getMinute (rtcNow inp) = minute ->
  getSecond (rtcNow inp) = 0 ->
  (minute = 10 /\ v = HIGH) \/ (minute = 12 /\ v = LOW) ->
  (Automation.fertPump (automation st) = true ->
   exists more,
     relayLog (loop cfg inp st) = more ++ (pins.pump, v) :: relayLog st)
  /\ (forall s, time s = rtcNow inp ->
        pumpTimes s
        = if Automation.fertPump (automation s)
          then safeRelayWrite pins.pump v s else s)
  /\ (forall s, getHour (time s) <> 7 \/ getSecond (time s) <> 0
                \/ (getMinute (time s) <> 10 /\ getMinute (time s) <> 12) ->
        pumpTimes s = s)
  /\ (forall s f w,
        pumpTimes (set_fertilising f s) = set_fertilising f (pumpTimes s)
        /\ pumpTimes (set_watering w s) = set_watering w (pumpTimes s)
        /\ fertilising (pumpTimes s) = fertilising s
        /\ watering (pumpTimes s) = watering s).
Proof.
  intros Hn Hh Hm Hs Hv.
  assert (Block : forall s, time s = rtcNow inp ->
            pumpTimes s
            = if Automation.fertPump (automation s)
              then safeRelayWrite pins.pump v s else s).
  { intros s Ht. destruct (Automation.fertPump (automation s)) eqn:Ep.
    - destruct Hv as [(-> & ->) | (-> & ->)].
      + apply pumpTimes_on; congruence.
      + apply pumpTimes_off; congruence.
    - apply pumpTimes_disabled, Ep. }
  split; [|split; [exact Block|split]].
  - intros Ep. destruct (loop_through_pumpTimes cfg inp st Hn) as (s & E & Ht & Ha & Hr).
    rewrite E, (Block s Ht), Ha, Ep.
    destruct (relayExtends_afterPump cfg (safeRelayWrite pins.pump v s)) as (more & Em).
    exists more. rewrite Em, relayLog_safeRelayWrite, Hr by reflexivity. reflexivity.
  - intros s. apply pumpTimes_other_time.
  - intros s f w. split; [apply pumpTimes_set_fertilising|].
    split; [apply pumpTimes_set_watering|]. split.
    + assert (K : keeps fertilising pumpTimes) by keeps_tac. apply K.
    + assert (K : keeps watering pumpTimes) by keeps_tac. apply K.
Qed.

Lemma C10_daily_pump_run_witness :
  (exists more,
     relayLog (loop settings tenPastSeven beforeTenPast)
     = more ++ (pins.pump, HIGH) :: relayLog beforeTenPast)
  /\ (exists more,
        relayLog (loop settings twelvePastSeven beforeTwelvePast)
        = more ++ (pins.pump, LOW) :: relayLog beforeTwelvePast).
Proof.
  split.
  - apply (C10_daily_pump_run settings tenPastSeven beforeTenPast 10 HIGH);
      try reflexivity.
    + vm_compute. discriminate.
    + left. split; reflexivity.
  - apply (C10_daily_pump_run settings twelvePastSeven beforeTwelvePast 12 LOW);
      try reflexivity.
    + vm_compute. discriminate.
    + right. split; reflexivity.
Defined.

(** ** The solenoid position controller (lines 289-308) *)

(** C1.  The feedback switch of line 0 bounces while line 1 holds the lock
    and is being driven: line 0, which does not hold the lock, takes the
    release branch and frees it, line 2 takes the lock, and the spin
    outputs of lines 1 and 2 are HIGH together. *)
Theorem C1_two_lines_spin_together :
  let before := runLoop settings (firstn 3 bounce) booted in
  let after := runLoop settings bounce booted in
  lockOf before = 1 /\ spinning 1 before = true /\ spinning 2 before = false
  /\ lockOf after = 2 /\ spinning 1 after = true /\ spinning 2 after = true.
Proof. vm_compute. repeat split. Qed.

(** A line whose turn finds the lock held by another line writes no HIGH:
    it leaves the log alone or writes LOW. *)
Lemma spin_needs_lock (i : nat) (newState : bool) (st : State) :
  lockOf st <> Z.of_nat i -> 0 <= lockOf st ->
  pinLog (serviceSolenoid i newState st) = pinLog st
  \/ pinLog (serviceSolenoid i newState st) = (spinPin i, LOW) :: pinLog st.
Proof.
  intros H1 H2. unfold serviceSolenoid. rewrite andThen_apply.
  match goal with
  | |- context [when ?c ?f (ifElse ?a ?b ?d st)] =>
      assert (K : keeps pinLog (when c f)) by keeps_tac; rewrite !K; clear K
  end.
  unfold ifElse. destruct (_ || _).
  - left. rewrite when_false; [reflexivity|].
    apply orb_false_iff. split; [apply Z.eqb_neq, H1 | apply Z.ltb_ge, H2].
  - unfold when. destruct (negb _); [right | left]; reflexivity.
Qed.

(** ** The watering sequence (lines 375-401) *)

Lemma calcWater_frame cfg (st st' : State) (dayIx line : nat) :
  Watering.tallies (watering st') = Watering.tallies (watering st) ->
  dayAt dayIx st' = dayAt dayIx st ->
  calcWater cfg st' dayIx line = calcWater cfg st dayIx line.
Proof. unfold calcWater, calcWaterLong. intros -> ->. reflexivity. Qed.

Lemma dayAt_set_day_other (i j : nat) (d : Day) (st : State) :
  i <> j -> dayAt j (set_day i d st) = dayAt j st.
Proof.
  intros H. unfold dayAt, set_day. cbn [previousDays set_previousDays].
  apply nth_upd_other, H.
Qed.

Lemma yesterday_set_today (f : Day -> Day) :
  keeps (dayAt 1) (fun st => set_day 2 (f (dayAt 2 st)) st).
Proof. intros st. apply dayAt_set_day_other. discriminate. Qed.

Ltac keeps_yesterday :=
  lazymatch goal with
  | |- keeps _ (_ ;; _) => apply keeps_andThen; keeps_yesterday
  | |- keeps _ (when _ _) => apply keeps_when; keeps_yesterday
  | |- keeps _ (ifElse _ _ _) => apply keeps_ifElse; keeps_yesterday
  | |- keeps _ (reading _ _) => apply keeps_reading; intro; keeps_yesterday
  | |- keeps _ (forLines _) => apply keeps_forLines; intro; keeps_yesterday
  | |- keeps _ skip => apply keeps_skip
  | |- keeps _ (set_todayMaxTemp _) =>
      intros ?; apply dayAt_set_day_other; discriminate
  | |- keeps _ (set_todayRainFlips _) =>
      intros ?; apply dayAt_set_day_other; discriminate
  | |- keeps _ (set_todayTankLevel _) =>
      intros ?; apply dayAt_set_day_other; discriminate
  | |- keeps _ (set_todayTotalAdded _) =>
      intros ?; apply dayAt_set_day_other; discriminate
  | |- keeps _ _ => first [ open_block; keeps_yesterday | intro; reflexivity ]
  end.

Lemma tallies_wateringSequence cfg :
  keeps (fun st => Watering.tallies (watering st)) (wateringSequence cfg).
Proof. keeps_tac. Qed.

Lemma yesterday_wateringSequence cfg : keeps (dayAt 1) (wateringSequence cfg).
Proof. keeps_yesterday. Qed.

(** The sequence waits: the cursor is idle or the line is still open. *)
Lemma wateringSequence_waits cfg (st : State) :
  wateringLine st < -1 \/ now st < Watering.finishTime (watering st) ->
  wateringSequence cfg st = st.
Proof.
  intros H. unfold wateringSequence. apply when_false.
  apply andb_false_iff. rewrite Z.leb_gt, Z.leb_gt. lia.
Qed.

(** The sequence moves on: the line that was open is closed, and the next
    line is opened if its dose reaches its buffer. *)
Lemma wateringSequence_moves cfg (st : State) :
  -1 <= wateringLine st -> Watering.finishTime (watering st) <= now st ->
  let closed :=
    if 0 <=? wateringLine st then haxSolenoidSet (wateringLine st) false st else st in
  let cur := wateringLine st + 1 in
  let added := calcWater cfg st 1 (Z.to_nat cur) in
  wateringSequence cfg st
  = if lineCount <=? cur then
      set_wateringFinish 0 (set_wateringLine (-2) closed)
    else if to_uint (nth (Z.to_nat cur) (bufferSize cfg) 0) <=? added then
      haxSolenoidSet cur true
        (set_wateringFinish (now st + added)
           (set_todayTotalAdded (to_uint (totalAdded (dayAt 2 st) + added))
              (set_wateringLine cur closed)))
    else
      set_todayTotalAdded (to_uint (totalAdded (dayAt 2 st) + added))
        (set_wateringLine cur closed).
Proof.
  intros H1 H2 closed cur added. unfold wateringSequence.
  rewrite when_true by (apply andb_true_iff; rewrite !Z.leb_le; auto).
  rewrite andThen_apply.
  assert (E1 : when (fun st => 0 <=? wateringLine st)
                 (reading wateringLine (fun c => haxSolenoidSet c false)) st = closed).
  { unfold when, reading, closed. reflexivity. }
  rewrite E1. clear E1.
  assert (Ec : wateringLine closed = wateringLine st)
    by (unfold closed; destruct (0 <=? wateringLine st); reflexivity).
  assert (Ew : watering closed = watering st)
    by (unfold closed; destruct (0 <=? wateringLine st); reflexivity).
  assert (Ed : previousDays closed = previousDays st)
    by (unfold closed; destruct (0 <=? wateringLine st); reflexivity).
  assert (Et : now closed = now st)
    by (unfold closed; destruct (0 <=? wateringLine st); reflexivity).
  rewrite andThen_apply, reading_apply, Ec. fold cur.
  unfold ifElse.
  change (wateringLine (set_wateringLine cur closed)) with cur.
  destruct (lineCount <=? cur); [reflexivity|].
  rewrite reading_apply.
  change (wateringLine (set_wateringLine cur closed)) with cur.
  assert (Ea : calcWater cfg (set_wateringLine cur closed) 1 (Z.to_nat cur) = added).
  { apply calcWater_frame.
    - change (Watering.tallies (watering (set_wateringLine cur closed)))
        with (Watering.tallies (watering closed)). rewrite Ew. reflexivity.
    - unfold dayAt.
      change (previousDays (set_wateringLine cur closed)) with (previousDays closed).
      rewrite Ed. reflexivity. }
  rewrite Ea. rewrite andThen_apply, reading_apply.
  assert (Etot : totalAdded (dayAt 2 (set_wateringLine cur closed))
                 = totalAdded (dayAt 2 st)).
  { unfold dayAt.
    change (previousDays (set_wateringLine cur closed)) with (previousDays closed).
    rewrite Ed. reflexivity. }
  rewrite Etot. unfold when.
  match goal with
  | |- context [wateringLine (set_todayTotalAdded ?v ?s)] =>
      change (wateringLine (set_todayTotalAdded v s)) with cur
  end.
  destruct (_ <=? added); [|reflexivity].
  rewrite andThen_apply, !reading_apply.
  match goal with
  | |- context [now (set_todayTotalAdded ?v ?s)] =>
      change (now (set_todayTotalAdded v s)) with (now closed)
  end.
  rewrite Et. reflexivity.
Qed.

Lemma wateringView_wateringSequence cfg (st : State) :
  wateringView (wateringSequence cfg st)
  = wateringStep cfg (calcWater cfg st 1) (now st) (wateringView st).
Proof.
  unfold wateringView, wateringStep.
  destruct (Z.leb_spec (-1) (wateringLine st)) as [H1|H1]; cbn [andb].
  2:{ rewrite wateringSequence_waits by lia. reflexivity. }
  destruct (Z.leb_spec (Watering.finishTime (watering st)) (now st)) as [H2|H2].
  2:{ rewrite wateringSequence_waits by lia. reflexivity. }
  rewrite wateringSequence_moves by assumption. cbv zeta.
  destruct (lineCount <=? wateringLine st + 1); [reflexivity|].
  destruct (_ <=? calcWater cfg st 1 _);
    destruct (0 <=? wateringLine st); reflexivity.
Qed.

Lemma dailyRotation_skips (st : State) :
  getHour (time st) <> 8 \/ getMinute (time st) <> 0 \/ getSecond (time st) <> 0 ->
  dailyRotation st = st.
Proof.
  intros H. unfold dailyRotation. apply when_false. apply timeIs_false. lia.
Qed.

Lemma wateringStep_ext cfg (dose dose' : nat -> Z) (t : Z) (w : Z * Z) :
  (forall i, dose i = dose' i) ->
  wateringStep cfg dose t w = wateringStep cfg dose' t w.
Proof.
  intros H. unfold wateringStep. destruct w as (cur, fin).
  rewrite !H. reflexivity.
Qed.

Lemma wateringView_frame (st st' : State) :
  watering st' = watering st -> wateringView st' = wateringView st.
Proof. unfold wateringView, wateringLine. intros ->. reflexivity. Qed.

(** What a pass on a new second, not the one of the daily rotation, does
    to the watering sequence; the doses stay what they were. *)
Lemma watering_loop cfg inp (st : State) :
  newSecond inp st -> noRotation inp ->
  wateringView (loop cfg inp st)
  = wateringStep cfg (calcWater cfg st 1) (getUnixTime (rtcNow inp)) (wateringView st)
  /\ (forall i, calcWater cfg (loop cfg inp st) 1 i = calcWater cfg st 1 i).
Proof.
  intros Hn Hr. rewrite loop_newSecond by exact Hn.
  unfold everySecond. rewrite !andThen_apply.
  set (s0 := everyPass inp st).
  set (s1 := pumpTimes (everyMinute (tempRead inp)
                (rainReset (rainRead inp) (countDown s0)))).
  assert (T1 : time s1 = rtcNow inp).
  { subst s1. push time. subst s0. apply time_everyPass. }
  assert (W1 : watering s1 = watering st).
  { subst s1. push watering. subst s0. push watering. reflexivity. }
  assert (D1 : dayAt 1 s1 = dayAt 1 st).
  { subst s1 s0.
    assert (K : keeps (dayAt 1)
                  (everyPass inp ;; countDown ;; rainReset (rainRead inp) ;;
                   everyMinute (tempRead inp) ;; pumpTimes)) by keeps_yesterday.
    apply (K st). }
  assert (C1 : forall i, calcWater cfg s1 1 i = calcWater cfg st 1 i).
  { intros i. apply calcWater_frame; [rewrite W1; reflexivity | exact D1]. }
  rewrite (dailyRotation_skips s1) by (rewrite T1; exact Hr).
  set (s3 := wateringSequence cfg s1).
  assert (K : keeps watering (fertiliseTrigger ;; fertilisePriming ;;
                fertiliseSweep cfg ;; haxTimersLoop ;; endOfSecond)) by keeps_tac.
  assert (Kd : keeps (dayAt 1) (fertiliseTrigger ;; fertilisePriming ;;
                fertiliseSweep cfg ;; haxTimersLoop ;; endOfSecond)) by keeps_yesterday.
  specialize (K s3). specialize (Kd s3). rewrite !andThen_apply in K, Kd.
  split.
  - rewrite (wateringView_frame _ _ K). subst s3.
    rewrite wateringView_wateringSequence.
    unfold now. rewrite T1, (wateringView_frame _ _ W1).
    apply wateringStep_ext, C1.
  - intros i. rewrite <- C1. apply calcWater_frame.
    + rewrite K. subst s3. apply tallies_wateringSequence.
    + rewrite Kd. subst s3. apply yesterday_wateringSequence.
Qed.

Lemma firstn_app_repeat {A} (x : A) (l : list A) (n m m' : nat) :
  (n <= length l + m)%nat -> (n <= length l + m')%nat ->
  firstn n (l ++ repeat x m) = firstn n (l ++ repeat x m').
Proof.
  revert n. induction l as [|a l IH]; intros n H1 H2.
  - cbn [app length] in *. revert m m' H1 H2.
    induction n as [|n IHn]; intros [|m] [|m'] H1 H2; cbn [repeat firstn];
      try lia; try reflexivity.
    f_equal. apply IHn; lia.
  - destruct n as [|n]; [reflexivity|]. cbn [app firstn]. f_equal.
    apply IH; cbn [length] in *; lia.
Qed.

Lemma trace_length {A} (obs : State -> A) cfg inps st :
  length (trace obs cfg inps st) = length inps.
Proof.
  revert st. induction inps as [|inp inps IH]; intros st; cbn [trace length]; auto.
Qed.

(** Once idle, the watering sequence stays idle. *)
Lemma watering_idle_trace cfg (inps : list Inputs) :
  forall (st : State) (t : Z),
    wateringLine st = -2 ->
    oncePerSecond (lastSecond st) t inps -> Forall noRotation inps ->
    trace wateringLine cfg inps st = repeat (-2) (length inps).
Proof.
  induction inps as [|inp inps IH]; intros st t Hc Ho Hr; [reflexivity|].
  cbn [oncePerSecond] in Ho. destruct Ho as (H1 & H2 & H3).
  apply Forall_cons_iff in Hr. destruct Hr as (R1 & R2).
  destruct (watering_loop cfg inp st H1 R1) as (V & _).
  assert (E : wateringLine (loop cfg inp st) = -2).
  { unfold wateringView in V. unfold wateringStep in V. rewrite Hc in V.
    cbn [Z.leb Z.compare andb] in V. inversion V. congruence. }
  cbn [trace length repeat]. rewrite E. f_equal.
  apply (IH _ (t + 1)); auto. rewrite lastSecond_loop. exact H3.
Qed.

Lemma wateringDwell_ext cfg (st st' : State) :
  (forall i, calcWater cfg st' 1 i = calcWater cfg st 1 i) ->
  forall ls, sweepOf (wateringDwell cfg st') ls = sweepOf (wateringDwell cfg st) ls.
Proof.
  intros H ls. unfold sweepOf. apply flat_map_ext. intros i.
  unfold wateringDwell. rewrite H. reflexivity.
Qed.

Lemma firstn_repeat_all {A} (x : A) (n : nat) : firstn n (repeat x n) = repeat x n.
Proof. rewrite <- (repeat_length x n) at 1. apply firstn_all. Qed.

(** The cursor of the watering sequence over a run: it stays on the
    current line for the time left, then on each later line for its dwell,
    and then idle. *)
Lemma watering_trace_from cfg (inps : list Inputs) :
  forall (st : State) (t : Z) (k rem : nat),
    (k <= 6)%nat ->
    wateringLine st = Z.of_nat k - 1 ->
    rem = Z.to_nat (Watering.finishTime (watering st) - t) ->
    oncePerSecond (lastSecond st) t inps -> Forall noRotation inps ->
    trace wateringLine cfg inps st
    = firstn (length inps)
        ((repeat (Z.of_nat k - 1) rem
          ++ sweepOf (wateringDwell cfg st) (seq k (6 - k)))
         ++ repeat (-2) (length inps)).
Proof.
  induction inps as [|inp inps IH]; intros st t k rem Hk Hc Hrem Ho Hr;
    [reflexivity|].
  cbn [oncePerSecond] in Ho. destruct Ho as (H1 & H2 & H3).
  apply Forall_cons_iff in Hr. destruct Hr as (R1 & R2).
  destruct (watering_loop cfg inp st H1 R1) as (V & D).
  rewrite <- (lastSecond_loop cfg inp st) in H3.
  set (st' := loop cfg inp st) in *.
  unfold wateringView in V. rewrite Hc, H2 in V. unfold wateringStep in V.
  cbn [trace length]. fold st'.
  destruct (Z.leb_spec (Watering.finishTime (watering st)) t) as [Hf|Hf].
  - (* the time is up: the sequence moves on *)
    assert (Hz : rem = 0%nat) by lia. rewrite Hz. clear Hz. cbn [repeat app].
    replace (-1 <=? Z.of_nat k - 1) with true in V by (symmetry; apply Z.leb_le; lia).
    cbn [andb] in V.
    replace (Z.of_nat k - 1 + 1) with (Z.of_nat k) in V by lia.
    rewrite Nat2Z.id in V.
    destruct (Z.leb_spec lineCount (Z.of_nat k)) as [Hl|Hl]; unfold lineCount in Hl.
    + (* the last line is done *)
      assert (k = 6)%nat by lia. subst k. cbn [Nat.sub seq sweepOf flat_map app].
      inversion V as [[V1 V2]]. rewrite V1.
      rewrite (watering_idle_trace cfg inps st' (t + 1)) by assumption.
      change (-2 :: repeat (-2) (length inps)) with (repeat (-2) (S (length inps))).
      symmetry. apply firstn_repeat_all.
    + (* line [k] is next *)
      replace (6 - k)%nat with (S (6 - S k)) by lia. cbn [seq sweepOf flat_map].
      fold (sweepOf (wateringDwell cfg st) (seq (S k) (6 - S k))).
      set (added := calcWater cfg st 1 k) in *.
      set (opened := to_uint (nth k (bufferSize cfg) 0) <=? added) in *.
      assert (Hd : wateringDwell cfg st k
                   = S (Z.to_nat (Watering.finishTime (watering st') - (t + 1)))).
      { unfold wateringDwell. fold added. fold opened.
        destruct opened; inversion V as [[V1 V2]]; rewrite V2; lia. }
      assert (Hc' : wateringLine st' = Z.of_nat (S k) - 1).
      { destruct opened; inversion V as [[V1 V2]]; rewrite V1; lia. }
      rewrite (IH st' (t + 1) (S k) _ ltac:(lia) Hc' eq_refl H3 R2).
      rewrite (wateringDwell_ext cfg st st' D).
      rewrite Hd, Hc'. cbn [repeat app firstn].
      replace (Z.of_nat (S k) - 1) with (Z.of_nat k) by lia. f_equal.
      change (-2 :: repeat (-2) (length inps)) with (repeat (-2) (S (length inps))).
      apply firstn_app_repeat; lia.
  - (* the line is still open *)
    replace (Watering.finishTime (watering st) <=? t) with false in V
      by (symmetry; apply Z.leb_gt; lia).
    rewrite andb_false_r in V. inversion V as [[V1 V2]].
    destruct rem as [|rem']; [lia|]. cbn [repeat app firstn]. rewrite V1. f_equal.
    assert (Hc' : wateringLine st' = Z.of_nat k - 1) by exact V1.
    rewrite (IH st' (t + 1) k rem' Hk Hc' ltac:(rewrite V2; lia) H3 R2).
    rewrite (wateringDwell_ext cfg st st' D).
    change (-2 :: repeat (-2) (length inps)) with (repeat (-2) (S (length inps))).
    apply firstn_app_repeat; lia.
Qed.

Lemma trace_last {A} (obs : State -> A) cfg (inps : list Inputs) (d : A) :
  forall st, inps <> [] ->
    last (trace obs cfg inps st) d = obs (runLoop cfg inps st).
Proof.
  induction inps as [|inp inps IH]; intros st H; [congruence|].
  rewrite runLoop_cons. cbn [trace].
  destruct inps as [|inp' inps]; [reflexivity|].
  rewrite <- IH by discriminate. reflexivity.
Qed.

Lemma last_app_repeat {A} (x d : A) (l : list A) (n : nat) :
  last (l ++ repeat x (S n)) d = x.
Proof.
  induction l as [|a l IH].
  - cbn [app]. induction n as [|n IHn]; [reflexivity|].
    change (repeat x (S (S n))) with (x :: repeat x (S n)).
    cbn [last]. exact IHn.
  - cbn [app last]. destruct (l ++ repeat x (S n)) eqn:E; [|exact IH].
    destruct l; discriminate.
Qed.

Lemma firstn_repeat {A} (x : A) (k n : nat) :
  (k <= n)%nat -> firstn k (repeat x n) = repeat x k.
Proof.
  revert n. induction k as [|k IH]; intros [|n] H; cbn [repeat firstn];
    try lia; try reflexivity.
  f_equal. apply IH. lia.
Qed.

Lemma firstn_past {A} (x : A) (l : list A) (n : nat) :
  (length l < n)%nat ->
  firstn n (l ++ repeat x n) = l ++ repeat x (S (n - length l - 1)).
Proof.
  intros H. rewrite firstn_app, firstn_all2 by lia. f_equal.
  rewrite firstn_repeat by lia. f_equal. lia.
Qed.

Lemma desired_haxSolenoidSet (i : nat) (z : Z) (v : bool) (st : State) :
  wf st -> (Z.to_nat z < 6)%nat ->
  desired i (haxSolenoidSet z v st)
  = if Nat.eqb i (Z.to_nat z) then v else desired i st.
Proof.
  intros (H0 & _) Hz. unfold desired, haxSolenoidSet. unfold_setters. proj_simpl.
  cbn [HaxSolenoidOn.desiredState].
  destruct (Nat.eqb_spec i (Z.to_nat z)) as [->|Hn].
  - apply nth_upd_same. lia.
  - apply nth_upd_other. auto.
Qed.

Lemma wateringDwell_positive cfg st i : (1 <= wateringDwell cfg st i)%nat.
Proof. unfold wateringDwell. destruct (_ <=? _); lia. Qed.

Lemma wf_watering_cells (a b c : Z) (s : State) :
  wf s -> wf (set_wateringFinish a (set_todayTotalAdded b (set_wateringLine c s))).
Proof. revert s. wf_leaf. Qed.

(** When the sequence moves on from a line, it asks that line to close. *)
Lemma wateringSequence_leaves_line cfg (s : State) :
  wf s -> 0 <= wateringLine s <= 5 ->
  Watering.finishTime (watering s) <= now s ->
  desired (Z.to_nat (wateringLine s)) (wateringSequence cfg s) = false
  /\ wateringLine (wateringSequence cfg s)
     = if wateringLine s =? 5 then -2 else wateringLine s + 1.
Proof.
  intros Hwf Hl Hfin.
  rewrite wateringSequence_moves by lia. cbv zeta.
  replace (0 <=? wateringLine s) with true by (symmetry; apply Z.leb_le; lia).
  set (closed := haxSolenoidSet (wateringLine s) false s).
  assert (Wc : wf closed) by (apply wf_haxSolenoidSet, Hwf).
  assert (Dc : desired (Z.to_nat (wateringLine s)) closed = false).
  { unfold closed. rewrite desired_haxSolenoidSet by (auto; lia).
    rewrite Nat.eqb_refl. reflexivity. }
  destruct (Z.eqb_spec (wateringLine s) 5) as [E5|E5].
  { replace (lineCount <=? wateringLine s + 1) with true
      by (symmetry; apply Z.leb_le; unfold lineCount; lia).
    split; [exact Dc | reflexivity]. }
  replace (lineCount <=? wateringLine s + 1) with false
    by (symmetry; apply Z.leb_gt; unfold lineCount; lia).
  destruct (_ <=? calcWater cfg s 1 _).
  + split; [|reflexivity].
    rewrite desired_haxSolenoidSet.
    * replace (Nat.eqb _ _) with false
        by (symmetry; apply Nat.eqb_neq; lia).
      exact Dc.
    * apply wf_watering_cells, Wc.
    * lia.
  + split; [exact Dc | reflexivity].
Qed.

(** What the pass of 08:00:00 does to the watering sequence when the
    watering switch is on: the rotation puts the cursor at Starting and the
    sequence moves on from there in the same pass, with the doses of the
    day that has just become yesterday. *)
Lemma watering_loop_rotation cfg inp (st : State) :
  newSecond inp st -> atRotation inp ->
  Automation.water (automation st) = true ->
  wateringView (loop cfg inp st)
  = wateringStep cfg (calcWater cfg (loop cfg inp st) 1) (getUnixTime (rtcNow inp))
      (-1, Watering.finishTime (watering st)).
Proof.
  intros Hn (Hh & Hm & Hs) Ha. rewrite loop_newSecond by exact Hn.
  unfold everySecond. rewrite !andThen_apply.
  set (s0 := everyPass inp st).
  set (s1 := pumpTimes (everyMinute (tempRead inp)
                (rainReset (rainRead inp) (countDown s0)))).
  assert (T1 : time s1 = rtcNow inp).
  { subst s1. push time. subst s0. apply time_everyPass. }
  assert (W1 : watering s1 = watering st).
  { subst s1. push watering. subst s0. push watering. reflexivity. }
  assert (A1 : automation s1 = automation st).
  { subst s1. push automation. subst s0. push automation. reflexivity. }
  set (s2 := dailyRotation s1).
  assert (E2 : s2 = set_wateringLine (-1) (rotateDays s1)).
  { subst s2. unfold dailyRotation.
    rewrite when_true by (apply timeIs_true; rewrite T1; lia).
    rewrite andThen_apply. apply when_true.
    change (automation (rotateDays s1)) with (automation s1).
    rewrite A1. exact Ha. }
  assert (V2 : wateringView s2 = (-1, Watering.finishTime (watering st))).
  { rewrite E2. unfold wateringView, wateringLine.
    change (watering (set_wateringLine (-1) (rotateDays s1)))
      with (Watering.mk (-1) (Watering.tallies (watering s1))
              (Watering.finishTime (watering s1))).
    rewrite W1. reflexivity. }
  assert (T2 : now s2 = getUnixTime (rtcNow inp)).
  { rewrite E2. unfold now.
    change (time (set_wateringLine (-1) (rotateDays s1))) with (time s1).
    rewrite T1. reflexivity. }
  set (s3 := wateringSequence cfg s2).
  assert (K : keeps watering (fertiliseTrigger ;; fertilisePriming ;;
                fertiliseSweep cfg ;; haxTimersLoop ;; endOfSecond)) by keeps_tac.
  assert (Kd : keeps (dayAt 1) (fertiliseTrigger ;; fertilisePriming ;;
                fertiliseSweep cfg ;; haxTimersLoop ;; endOfSecond)) by keeps_yesterday.
  specialize (K s3). specialize (Kd s3). rewrite !andThen_apply in K, Kd.
  rewrite (wateringView_frame _ _ K). subst s3.
  rewrite wateringView_wateringSequence, T2, V2.
  apply wateringStep_ext. intros i. symmetry. apply calcWater_frame.
  - rewrite K. apply tallies_wateringSequence.
  - rewrite Kd. apply yesterday_wateringSequence.
Qed.

Lemma calcWater_nonneg cfg st dayIx line : 0 <= calcWater cfg st dayIx line.
Proof. unfold calcWater, to_uint. apply Z.mod_pos_bound. lia. Qed.

(** A whole daily invocation: the pass of 08:00:00 and the passes after
    it. *)
Lemma watering_invocation cfg (inp : Inputs) (inps : list Inputs) (st : State) (t : Z) :
  Automation.water (automation st) = true ->
  Watering.finishTime (watering st) <= t ->
  oncePerSecond (lastSecond st) t (inp :: inps) ->
  atRotation inp -> Forall noRotation inps ->
  trace wateringLine cfg (inp :: inps) st
  = firstn (S (length inps))
      (sweepOf (wateringDwell cfg (loop cfg inp st)) lines
       ++ repeat (-2) (S (length inps))).
Proof.
  intros Ha Hf Ho Hr Hn.
  cbn [oncePerSecond] in Ho. destruct Ho as (H1 & H2 & H3).
  assert (V := watering_loop_rotation cfg inp st H1 Hr Ha).
  rewrite <- (lastSecond_loop cfg inp st) in H3.
  set (st' := loop cfg inp st) in *.
  rewrite H2 in V. unfold wateringView, wateringStep in V.
  change (-1 <=? -1) with true in V.
  replace (Watering.finishTime (watering st) <=? t) with true in V
    by (symmetry; apply Z.leb_le; lia).
  cbn [andb] in V. change (lineCount <=? -1 + 1) with false in V.
  change (Z.to_nat (-1 + 1)) with 0%nat in V. change (-1 + 1) with 0 in V.
  set (added := calcWater cfg st' 1 0) in *.
  assert (Hadd : 0 <= added) by apply calcWater_nonneg.
  set (opened := to_uint (nth 0 (bufferSize cfg) 0) <=? added) in *.
  assert (Hd : wateringDwell cfg st' 0
               = S (Z.to_nat (Watering.finishTime (watering st') - (t + 1)))).
  { unfold wateringDwell. fold added. fold opened.
    destruct opened; inversion V as [[V1 V2]]; rewrite V2; lia. }
  assert (Hc' : wateringLine st' = Z.of_nat 1 - 1).
  { destruct opened; inversion V as [[V1 V2]]; rewrite V1; reflexivity. }
  cbn [trace]. fold st'.
  rewrite (watering_trace_from cfg inps st' (t + 1) 1 _ ltac:(lia) Hc' eq_refl H3 Hn).
  change lines with (0%nat :: seq 1 (6 - 1)). cbn [sweepOf flat_map].
  fold (sweepOf (wateringDwell cfg st') (seq 1 (6 - 1))).
  rewrite Hd, Hc'. cbn [repeat app firstn]. change (Z.of_nat 1 - 1) with 0.
  change (Z.of_nat 0) with 0. f_equal.
  change (-2 :: repeat (-2) (length inps)) with (repeat (-2) (S (length inps))).
  apply firstn_app_repeat; lia.
Qed.

(** C4.  From a state with the cursor at Starting (-1) and no open line to
    wait for, over passes that come once a second and do not show the time
    of the daily rotation, the cursor after each pass follows the schedule
    line 0, line 1, ..., line 5, Idle: it stays on each line for the
    [wateringDwell] of the line (at least one pass), in ascending order,
    and is then -2 for good.  When the sequence moves on from a line it has
    asked that line to close before it asks the next one to open.  A daily
    invocation follows the same schedule: the pass of 08:00:00 with the
    watering switch on puts the cursor at Starting and moves it on to line
    0 at once, and the passes after it go through the lines. *)
Theorem C4_watering_visits_every_line_once (cfg : Settings)
    (inps : list Inputs) (st : State) (t : Z) :
  wateringLine st = -1 -> Watering.finishTime (watering st) <= t ->
  oncePerSecond (lastSecond st) t inps -> Forall noRotation inps ->
  let schedule := sweepOf (wateringDwell cfg st) lines in
  trace wateringLine cfg inps st
  = firstn (length inps) (schedule ++ repeat (-2) (length inps))
  /\ (forall i, (1 <= wateringDwell cfg st i)%nat)
  /\ ((length schedule < length inps)%nat ->
      wateringLine (runLoop cfg inps st) = -2)
  /\ (forall s, wf s -> 0 <= wateringLine s <= 5 ->
        Watering.finishTime (watering s) <= now s ->
        desired (Z.to_nat (wateringLine s)) (wateringSequence cfg s) = false
        /\ wateringLine (wateringSequence cfg s)
           = if wateringLine s =? 5 then -2 else wateringLine s + 1)
  /\ (forall (inp0 : Inputs) (later : list Inputs) (s0 : State) (t0 : Z),
        Automation.water (automation s0) = true ->
        Watering.finishTime (watering s0) <= t0 ->
        oncePerSecond (lastSecond s0) t0 (inp0 :: later) ->
        atRotation inp0 -> Forall noRotation later ->
        trace wateringLine cfg (inp0 :: later) s0
        = firstn (S (length later))
            (sweepOf (wateringDwell cfg (loop cfg inp0 s0)) lines
             ++ repeat (-2) (S (length later)))).
Proof.
  intros Hc Hf Ho Hr schedule.
  assert (T : trace wateringLine cfg inps st
              = firstn (length inps) (schedule ++ repeat (-2) (length inps))).
  { rewrite (watering_trace_from cfg inps st t 0 0) by (auto; lia).
    reflexivity. }
  split; [exact T|]. split; [apply wateringDwell_positive|]. split.
  - intros Hl. rewrite <- (trace_last wateringLine cfg inps 0)
      by (destruct inps; [cbn in Hl; lia | discriminate]).
    rewrite T, firstn_past by exact Hl. apply last_app_repeat.
  - split.
    + intros s Hwf Hl Hfin. apply wateringSequence_leaves_line; assumption.
    + intros inp0 later s0 t0. apply watering_invocation.
Qed.

Lemma C4_watering_visits_every_line_once_witness :
  trace wateringLine settings (quietSeconds 3 (tick eightOClock)) wateringStarted
  = [0; 0; 0]
  /\ wateringDwell settings wateringStarted 0 = 135%nat.
Proof.
  destruct (C4_watering_visits_every_line_once settings
              (quietSeconds 3 (tick eightOClock)) wateringStarted 1072001)
    as (H & _).
  - reflexivity.
  - vm_compute. discriminate.
  - vm_compute. repeat split; discriminate.
  - repeat (apply Forall_cons; [vm_compute; right; right; discriminate|]).
    apply Forall_nil.
  - split; [rewrite H|]; vm_compute; reflexivity.
Defined.

(** The whole sequence of the scenario, pass by pass: the pass at 08:00:00
    rotates the history and starts the sequence; each line is open for 135
    passes; after 6 * 135 passes the cursor is idle. *)
Example watering_scenario_run :
  trace wateringLine settings (quietSeconds 815 eightOClock) beforeEight
  = sweepOf (fun _ => 135%nat) lines ++ repeat (-2) 5.
Proof. vm_compute. reflexivity. Qed.

Example watering_scenario_lines :
  map (fun n => map (fun i => desired i (runLoop settings (quietSeconds n eightOClock)
                                           beforeEight)) lines)
      [1; 135; 136; 810; 811]%nat
  = [[true; false; false; false; false; false];
     [true; false; false; false; false; false];
     [false; true; false; false; false; false];
     [false; false; false; false; false; true];
     [false; false; false; false; false; false]].
Proof. vm_compute. reflexivity. Qed.





Example cool_start_dose :
  maxTemp (dayAt 2 coolStart) = 7456533 # 134217728
  /\ specDose settings 20 (20 # 1) (dayAt 2 coolStart) = 0
  /\ calcWater settings coolStart 2 0 = 1.
Proof. vm_compute. repeat split. Qed.

(** After a reading of 7282 degrees the formula gives 65538 and
    [calcWater], an [unsigned int], returns 2. *)
Example hot_start_dose :
  maxTemp (dayAt 2 hotStart) = 7282 # 1
  /\ specDose settings 20 (20 # 1) (dayAt 2 hotStart) = 65538
  /\ calcWater settings hotStart 2 0 = 2.
Proof. vm_compute. repeat split. Qed.

(** ** The fertilising sequence (lines 407-456) *)

Lemma fertilising_fertilisePriming (st : State) :
  fertilising (fertilisePriming st) = primingStep (now st) (fertilising st).
Proof.
  unfold fertilisePriming. rewrite !andThen_apply.
  set (s1 := when _ (safeRelayWrite pins.tapWater HIGH) st).
  set (s2 := when _ (safeRelayWrite pins.tapWater LOW ;; _) s1).
  set (s3 := when _ (safeRelayWrite pins.tapWater HIGH ;; _) s2).
  assert (F3 : fertilising s3 = fertilising st).
  { subst s3 s2 s1. push fertilising. reflexivity. }
  assert (T3 : now s3 = now st).
  { subst s3 s2 s1. unfold now. push time. reflexivity. }
  unfold when, primingStep. rewrite T3, F3.
  destruct (now st =? Fertilising.startTime (fertilising st) + 72); [|exact F3].
  rewrite !andThen_apply.
  change (fertilising (set_startTime 0 (set_fertLine (-1)
            (safeRelayWrite pins.tapWater LOW s3))))
    with (Fertilising.mk 0 (-1) (Fertilising.dumpCount (fertilising s3))
            (Fertilising.finishTime (fertilising s3))).
  rewrite F3. reflexivity.
Qed.

Lemma relayLog_fertilisePriming (st : State) :
  relayLog (fertilisePriming st)
  = primingWrites (now st) (Fertilising.startTime (fertilising st)) ++ relayLog st.
Proof.
  unfold fertilisePriming, primingWrites. rewrite !andThen_apply.
  set (start := Fertilising.startTime (fertilising st)).
  set (s1 := when _ (safeRelayWrite pins.tapWater HIGH) st).
  assert (R1 : relayLog s1
               = (if now st =? start then [(pins.tapWater, HIGH)] else [])
                 ++ relayLog st).
  { subst s1. unfold when. fold start. destruct (now st =? start); [|reflexivity].
    apply relayLog_safeRelayWrite. reflexivity. }
  assert (F1 : fertilising s1 = fertilising st) by (subst s1; push fertilising; reflexivity).
  assert (T1 : now s1 = now st) by (subst s1; unfold now; push time; reflexivity).
  set (s2 := when _ (safeRelayWrite pins.tapWater LOW ;; _) s1).
  assert (R2 : relayLog s2
               = (if now st =? start + 32
                  then [(pins.fertiliser, HIGH); (pins.pump, HIGH); (pins.tapWater, LOW)]
                  else []) ++ relayLog s1).
  { subst s2. unfold when. rewrite T1, F1. fold start.
    destruct (now st =? start + 32); [|reflexivity].
    rewrite !andThen_apply. rewrite !relayLog_safeRelayWrite by reflexivity.
    reflexivity. }
  assert (F2 : fertilising s2 = fertilising st) by (subst s2 s1; push fertilising; reflexivity).
  assert (T2 : now s2 = now st) by (subst s2 s1; unfold now; push time; reflexivity).
  set (s3 := when _ (safeRelayWrite pins.tapWater HIGH ;; _) s2).
  assert (R3 : relayLog s3
               = (if now st =? start + 40
                  then [(pins.fertiliser, LOW); (pins.pump, LOW); (pins.tapWater, HIGH)]
                  else []) ++ relayLog s2).
  { subst s3. unfold when. rewrite T2, F2. fold start.
    destruct (now st =? start + 40); [|reflexivity].
    rewrite !andThen_apply. rewrite !relayLog_safeRelayWrite by reflexivity.
    reflexivity. }
  assert (F3 : fertilising s3 = fertilising st)
    by (subst s3 s2 s1; push fertilising; reflexivity).
  assert (T3 : now s3 = now st) by (subst s3 s2 s1; unfold now; push time; reflexivity).
  unfold when. rewrite T3, F3. fold start.
  rewrite <- !app_assoc, <- R1, <- R2, <- R3.
  destruct (now st =? start + 72); [|reflexivity].
  rewrite !andThen_apply.
  transitivity (relayLog (safeRelayWrite pins.tapWater LOW s3)).
  - apply relayLog_frame. reflexivity.
  - apply relayLog_safeRelayWrite. reflexivity.
Qed.

Lemma fertilising_fertiliseSweep cfg (st : State) :
  fertilising (fertiliseSweep cfg st) = sweepStep cfg (now st) (fertilising st).
Proof.
  unfold fertiliseSweep, sweepStep, when. fold (fertLine st).
  destruct ((-1 <=? fertLine st) && _); [|reflexivity].
  rewrite andThen_apply.
  set (s1 := if 0 <=? fertLine st
             then reading fertLine (fun cur => haxSolenoidSet cur false) st else st).
  assert (F1 : fertilising s1 = fertilising st)
    by (subst s1; destruct (0 <=? fertLine st); reflexivity).
  assert (T1 : now s1 = now st)
    by (subst s1; destruct (0 <=? fertLine st); reflexivity).
  assert (L1 : fertLine s1 = fertLine st) by (unfold fertLine; rewrite F1; reflexivity).
  rewrite andThen_apply, reading_apply, L1. unfold ifElse.
  change (fertLine (set_fertLine (fertLine st + 1) s1)) with (fertLine st + 1).
  destruct (lineCount <=? fertLine st + 1).
  - rewrite !andThen_apply, reading_apply. unfold when.
    change (Fertilising.dumpCount (fertilising
              (set_fertFinish 0 (set_fertLine (-1) (set_fertLine (fertLine st + 1) s1)))))
      with (Fertilising.dumpCount (fertilising s1)).
    rewrite F1.
    match goal with
    | |- context [Fertilising.dumpCount (fertilising (set_dumpCount ?v ?s))] =>
        change (Fertilising.dumpCount (fertilising (set_dumpCount v s))) with v
    end.
    destruct (Fertilising.dumpCount (fertilising st) + 1 =? 3).
    + transitivity (Fertilising.mk (Fertilising.startTime (fertilising s1)) (-2) 0 0);
        [reflexivity | rewrite F1; reflexivity].
    + transitivity (Fertilising.mk (Fertilising.startTime (fertilising s1)) (-1)
                      (Fertilising.dumpCount (fertilising st) + 1) 0);
        [reflexivity | rewrite F1; reflexivity].
  - unfold when.
    change (fertLine (set_fertLine (fertLine st + 1) s1)) with (fertLine st + 1).
    destruct (0 <? nth (Z.to_nat (fertLine st + 1)) (fertTimes cfg) 0).
    + rewrite andThen_apply, !reading_apply.
      change (fertLine (set_fertLine (fertLine st + 1) s1)) with (fertLine st + 1).
      change (now (set_fertLine (fertLine st + 1) s1)) with (now s1).
      rewrite T1.
      transitivity (Fertilising.mk (Fertilising.startTime (fertilising s1))
                      (fertLine st + 1) (Fertilising.dumpCount (fertilising s1))
                      (now st + nth (Z.to_nat (fertLine st + 1)) (fertTimes cfg) 0));
        [reflexivity | rewrite F1; reflexivity].
    + transitivity (Fertilising.mk (Fertilising.startTime (fertilising s1))
                      (fertLine st + 1) (Fertilising.dumpCount (fertilising s1))
                      (Fertilising.finishTime (fertilising s1)));
        [reflexivity | rewrite F1; reflexivity].
Qed.

Lemma relayLog_pumpTimes (st : State) :
  exists w, relayLog (pumpTimes st) = w ++ relayLog st
            /\ Forall (fun e => fst e = pins.pump) w.
Proof.
  unfold pumpTimes. rewrite andThen_apply. unfold when.
  destruct (timeIs (-1) 7 10 0 st && _).
  - destruct (timeIs (-1) 7 12 0 _ && _).
    + exists [(pins.pump, LOW); (pins.pump, HIGH)].
      rewrite !relayLog_safeRelayWrite by reflexivity.
      split; [reflexivity | repeat constructor].
    + exists [(pins.pump, HIGH)].
      rewrite !relayLog_safeRelayWrite by reflexivity.
      split; [reflexivity | repeat constructor].
  - destruct (timeIs (-1) 7 12 0 _ && _).
    + exists [(pins.pump, LOW)].
      rewrite !relayLog_safeRelayWrite by reflexivity.
      split; [reflexivity | repeat constructor].
    + exists []. split; [reflexivity | constructor].
Qed.

Lemma automation_loop cfg inp : keeps automation (loop cfg inp).
Proof. keeps_tac. Qed.

Lemma automation_runLoop cfg (inps : list Inputs) :
  forall st, automation (runLoop cfg inps st) = automation st.
Proof.
  induction inps as [|inp inps IH]; intros st; [reflexivity|].
  rewrite runLoop_cons, IH. apply automation_loop.
Qed.

Lemma autoStart_ext (st st' : State) (inp : Inputs) :
  automation st' = automation st -> autoStart st' inp = autoStart st inp.
Proof. unfold autoStart. intros ->. reflexivity. Qed.

(** The cells of the fertilising sequence as the automatic trigger of a
    pass at epoch second [t] leaves them. *)
Lemma fertilising_fertiliseTrigger (s : State) :
  fertilising (fertiliseTrigger s)
  = if timeIs 0 16 0 0 s && Automation.fertilise (automation s)
    then Fertilising.mk (now s) (Fertilising.currentSolenoid (fertilising s))
           (Fertilising.dumpCount (fertilising s))
           (Fertilising.finishTime (fertilising s))
    else fertilising s.
Proof. unfold fertiliseTrigger, when. destruct (_ && _); reflexivity. Qed.

(** What a pass on a new second does to the cells of the fertilising
    sequence and to the relays: [f0] is what the automatic trigger leaves. *)
Lemma fertilising_loop_trigger cfg inp (st : State) :
  newSecond inp st ->
  let t := getUnixTime (rtcNow inp) in
  let f := fertilising st in
  let f0 := if autoStart st inp
            then Fertilising.mk t (Fertilising.currentSolenoid f)
                   (Fertilising.dumpCount f) (Fertilising.finishTime f)
            else f in
  fertilising (loop cfg inp st) = sweepStep cfg t (primingStep t f0)
  /\ exists w,
       relayLog (loop cfg inp st)
       = primingWrites t (Fertilising.startTime f0) ++ w ++ relayLog st
       /\ Forall (fun e => fst e = pins.pump) w.
Proof.
  intros Hn t f f0. rewrite loop_newSecond by exact Hn.
  unfold everySecond. rewrite !andThen_apply.
  set (sA := everyMinute (tempRead inp) (rainReset (rainRead inp)
               (countDown (everyPass inp st)))).
  assert (KA : keeps relayLog (everyPass inp ;; countDown ;; rainReset (rainRead inp) ;;
                               everyMinute (tempRead inp))) by keeps_relay.
  assert (RA : relayLog sA = relayLog st) by (apply (KA st)).
  assert (FA : fertilising sA = fertilising st)
    by (subst sA; push fertilising; reflexivity).
  assert (TA : time sA = rtcNow inp)
    by (subst sA; push time; apply time_everyPass).
  assert (AA : automation sA = automation st)
    by (subst sA; push automation; reflexivity).
  set (sB := pumpTimes sA).
  destruct (relayLog_pumpTimes sA) as (w & RB & Hpump). fold sB in RB.
  assert (FB : fertilising sB = fertilising st)
    by (subst sB; push fertilising; exact FA).
  assert (TB : time sB = rtcNow inp) by (subst sB; push time; exact TA).
  assert (AB : automation sB = automation st)
    by (subst sB; push automation; exact AA).
  set (sC := wateringSequence cfg (dailyRotation sB)).
  assert (KC : keeps relayLog (dailyRotation ;; wateringSequence cfg)) by keeps_relay.
  assert (RC : relayLog sC = relayLog sB) by (apply (KC sB)).
  assert (FC : fertilising sC = fertilising st)
    by (subst sC; push fertilising; exact FB).
  assert (TC : time sC = rtcNow inp) by (subst sC; push time; exact TB).
  assert (AC : automation sC = automation st)
    by (subst sC; push automation; exact AB).
  set (sD := fertiliseTrigger sC).
  assert (FD : fertilising sD = f0).
  { subst sD. rewrite fertilising_fertiliseTrigger. unfold now.
    rewrite TC, FC, AC.
    rewrite (timeIs_time 0 16 0 0 (set_time (rtcNow inp) st) sC) by exact TC.
    reflexivity. }
  assert (TD : time sD = rtcNow inp) by (subst sD; push time; exact TC).
  assert (RD : relayLog sD = relayLog sC).
  { assert (K : keeps relayLog fertiliseTrigger) by keeps_relay. apply K. }
  set (sE := fertilisePriming sD).
  assert (FE : fertilising sE = primingStep t f0).
  { subst sE. rewrite fertilising_fertilisePriming. unfold now.
    rewrite TD, FD. reflexivity. }
  assert (RE : relayLog sE
               = primingWrites t (Fertilising.startTime f0) ++ w ++ relayLog st).
  { subst sE. rewrite relayLog_fertilisePriming. unfold now.
    rewrite TD, FD, RD, RC, RB, RA. reflexivity. }
  assert (TE : time sE = rtcNow inp) by (subst sE; push time; exact TD).
  set (sF := fertiliseSweep cfg sE).
  assert (FF : fertilising sF = sweepStep cfg t (primingStep t f0)).
  { subst sF. rewrite fertilising_fertiliseSweep. unfold now.
    rewrite TE, FE. reflexivity. }
  assert (KF : keeps relayLog (fertiliseSweep cfg ;; haxTimersLoop ;; endOfSecond))
    by keeps_relay.
  assert (KF' : keeps fertilising (haxTimersLoop ;; endOfSecond)) by keeps_tac.
  split.
  - specialize (KF' sF). rewrite andThen_apply in KF'. rewrite KF'. exact FF.
  - exists w. split; [|exact Hpump].
    specialize (KF sE). rewrite !andThen_apply in KF. fold sF in KF.
    rewrite KF. exact RE.
Qed.

(** The same when the automatic trigger does not fire, or fires at the
    start time the sequence has. *)
Lemma fertilising_loop cfg inp (st st0 : State) :
  newSecond inp st -> automation st = automation st0 ->
  calm st0 (Fertilising.startTime (fertilising st)) inp ->
  let t := getUnixTime (rtcNow inp) in
  fertilising (loop cfg inp st) = sweepStep cfg t (primingStep t (fertilising st))
  /\ exists w,
       relayLog (loop cfg inp st)
       = primingWrites t (Fertilising.startTime (fertilising st)) ++ w ++ relayLog st
       /\ Forall (fun e => fst e = pins.pump) w.
Proof.
  intros Hn Ha Hc t.
  assert (G := fertilising_loop_trigger cfg inp st Hn). cbv zeta in G. fold t in G.
  assert (E : (if autoStart st inp
               then Fertilising.mk t (Fertilising.currentSolenoid (fertilising st))
                      (Fertilising.dumpCount (fertilising st))
                      (Fertilising.finishTime (fertilising st))
               else fertilising st) = fertilising st).
  { destruct (autoStart st inp) eqn:A; [|reflexivity].
    rewrite (autoStart_ext st0 st inp Ha) in A. specialize (Hc A). fold t in Hc.
    rewrite Hc. destruct (fertilising st). reflexivity. }
  rewrite E in G. exact G.
Qed.

Lemma fertilising_loop_sameSecond cfg inp (st : State) :
  getSecond (rtcNow inp) = lastSecond st ->
  fertilising (loop cfg inp st) = fertilising st.
Proof.
  intros H. rewrite loop_sameSecond by exact H. push fertilising. reflexivity.
Qed.

Lemma level_relayLog (p : Z) (st : State) :
  isRelay p = true -> level p st = levelIn p (relayLog st).
Proof.
  intros Hp. unfold level, relayLog.
  induction (pinLog st) as [|(q, v) log IH]; [reflexivity|].
  cbn [levelIn filter fst]. destruct (Z.eqb_spec q p) as [->|Hq].
  - rewrite Hp. cbn [levelIn]. rewrite Z.eqb_refl. reflexivity.
  - destruct (isRelay q); [cbn [levelIn]|]; try exact IH.
    destruct (Z.eqb_spec q p); [contradiction | exact IH].
Qed.

Lemma levelIn_skip_pump (p : Z) (w log : list (Z * bool)) :
  p <> pins.pump -> Forall (fun e => fst e = pins.pump) w ->
  levelIn p (w ++ log) = levelIn p log.
Proof.
  intros Hp Hw. induction Hw as [|(q, v) w Hq Hw IH]; [reflexivity|].
  cbn [app levelIn]. cbn [fst] in Hq. subst q.
  destruct (Z.eqb_spec pins.pump p); [congruence | exact IH].
Qed.

Lemma primingWrites_cases (t s : Z) :
  primingWrites t s
  = if t =? s then [(pins.tapWater, HIGH)]
    else if t =? s + 32
         then [(pins.fertiliser, HIGH); (pins.pump, HIGH); (pins.tapWater, LOW)]
    else if t =? s + 40
         then [(pins.fertiliser, LOW); (pins.pump, LOW); (pins.tapWater, HIGH)]
    else if t =? s + 72 then [(pins.tapWater, LOW)]
    else [].
Proof.
  unfold primingWrites.
  destruct (Z.eqb_spec t s); destruct (Z.eqb_spec t (s + 32));
    destruct (Z.eqb_spec t (s + 40)); destruct (Z.eqb_spec t (s + 72));
    try lia; reflexivity.
Qed.

Lemma sweepStep_idle cfg (t : Z) (f : Fertilising.t) :
  Fertilising.currentSolenoid f = -2 -> sweepStep cfg t f = f.
Proof. intros H. unfold sweepStep. rewrite H. reflexivity. Qed.

Lemma primingStep_waits (t : Z) (f : Fertilising.t) :
  t <> Fertilising.startTime f + 72 -> primingStep t f = f.
Proof.
  intros H. unfold primingStep.
  destruct (Z.eqb_spec t (Fertilising.startTime f + 72)); [contradiction|reflexivity].
Qed.

Lemma startTime_sweepStep cfg (t : Z) (f : Fertilising.t) :
  Fertilising.startTime (sweepStep cfg t f) = Fertilising.startTime f.
Proof.
  unfold sweepStep. destruct (_ && _); [|reflexivity].
  destruct (lineCount <=? _).
  - destruct (_ =? 3); reflexivity.
  - destruct (0 <? _); reflexivity.
Qed.

(** Until the pass at [start + 72], priming leaves the cells of the
    sequence as they are: dispensing has not begun. *)
Lemma priming_run cfg (st0 : State) (inps : list Inputs) :
  forall (st : State) (t : Z),
    automation st = automation st0 ->
    fertLine st = -2 ->
    t + Z.of_nat (length inps) <= Fertilising.startTime (fertilising st) + 72 ->
    oncePerSecond (lastSecond st) t inps ->
    notRestarted st0 inps (Fertilising.startTime (fertilising st)) ->
    fertilising (runLoop cfg inps st) = fertilising st.
Proof.
  induction inps as [|inp inps IH]; intros st t Ha Hc Ht Ho Hw; [reflexivity|].
  cbn [oncePerSecond] in Ho. destruct Ho as (H1 & H2 & H3).
  apply Forall_cons_iff in Hw. destruct Hw as (W1 & W2).
  destruct (fertilising_loop cfg inp st st0 H1 Ha W1) as (F & _). cbv zeta in F.
  cbn [length] in Ht.
  rewrite primingStep_waits in F by lia.
  rewrite sweepStep_idle in F by exact Hc.
  rewrite runLoop_cons. rewrite <- F.
  apply (IH _ (t + 1)).
  - rewrite automation_loop. exact Ha.
  - unfold fertLine. rewrite F. exact Hc.
  - rewrite F. lia.
  - rewrite lastSecond_loop. exact H3.
  - rewrite F. exact W2.
Qed.

(** Until the pass at [start + 72] the start time stays as it is, wherever
    the cursor is. *)
Lemma startTime_run cfg (st0 : State) (inps : list Inputs) :
  forall (st : State) (t : Z),
    automation st = automation st0 ->
    t + Z.of_nat (length inps) <= Fertilising.startTime (fertilising st) + 72 ->
    oncePerSecond (lastSecond st) t inps ->
    notRestarted st0 inps (Fertilising.startTime (fertilising st)) ->
    Fertilising.startTime (fertilising (runLoop cfg inps st))
    = Fertilising.startTime (fertilising st).
Proof.
  induction inps as [|inp inps IH]; intros st t Ha Ht Ho Hw; [reflexivity|].
  cbn [oncePerSecond] in Ho. destruct Ho as (H1 & H2 & H3).
  apply Forall_cons_iff in Hw. destruct Hw as (W1 & W2).
  destruct (fertilising_loop cfg inp st st0 H1 Ha W1) as (F & _). cbv zeta in F.
  cbn [length] in Ht.
  rewrite primingStep_waits in F by lia.
  assert (S1 : Fertilising.startTime (fertilising (loop cfg inp st))
               = Fertilising.startTime (fertilising st))
    by (rewrite F; apply startTime_sweepStep).
  rewrite runLoop_cons. rewrite <- S1.
  apply (IH _ (t + 1)).
  - rewrite automation_loop. exact Ha.
  - rewrite S1. lia.
  - rewrite lastSecond_loop. exact H3.
  - rewrite S1. exact W2.
Qed.

Lemma primingsIn_app (a b : list (Z * bool)) :
  primingsIn (a ++ b) = (primingsIn a + primingsIn b)%nat.
Proof. unfold primingsIn. rewrite filter_app, length_app. reflexivity. Qed.

Lemma primingsIn_pump (w : list (Z * bool)) :
  Forall (fun e => fst e = pins.pump) w -> primingsIn w = 0%nat.
Proof.
  intros H. unfold primingsIn. induction H as [|(q, v) w Hq Hw IH]; [reflexivity|].
  cbn [filter]. cbn [fst] in *. subst q. exact IH.
Qed.

Lemma primingsIn_primingWrites (t s : Z) :
  primingsIn (primingWrites t s) = if t =? s + 32 then 1%nat else 0%nat.
Proof.
  rewrite primingWrites_cases.
  destruct (Z.eqb_spec t s); destruct (Z.eqb_spec t (s + 32));
    destruct (Z.eqb_spec t (s + 40)); destruct (Z.eqb_spec t (s + 72));
    try lia; reflexivity.
Qed.

(** The start time as the automatic trigger of a pass leaves it. *)
Lemma trigger_start (st st0 : State) (inp : Inputs) (start : Z) :
  automation st = automation st0 ->
  Fertilising.startTime (fertilising st) = start \/ autoStart st0 inp = true ->
  calm st0 start inp ->
  Fertilising.startTime
    (if autoStart st inp
     then Fertilising.mk (getUnixTime (rtcNow inp))
            (Fertilising.currentSolenoid (fertilising st))
            (Fertilising.dumpCount (fertilising st))
            (Fertilising.finishTime (fertilising st))
     else fertilising st) = start.
Proof.
  intros Ha Hs Hc. rewrite (autoStart_ext st0 st inp Ha).
  destruct (autoStart st0 inp) eqn:A.
  - cbn [Fertilising.startTime]. apply Hc, A.
  - destruct Hs as [Hs|Hs]; [exact Hs | discriminate].
Qed.

(** The pass at [start + k] of a priming that started at [start]. *)
Lemma priming_pass cfg inp (before st0 : State) (start k : Z) :
  newSecond inp before -> automation before = automation st0 ->
  Fertilising.startTime (fertilising before) = start \/ autoStart st0 inp = true ->
  calm st0 start inp ->
  getUnixTime (rtcNow inp) = start + k ->
  let after := loop cfg inp before in
  Fertilising.startTime (fertilising after) = (if k =? 72 then 0 else start)
  /\ (k = 0 -> level pins.tapWater after = HIGH)
  /\ (k = 32 -> level pins.tapWater after = LOW
                /\ level pins.pump after = HIGH
                /\ level pins.fertiliser after = HIGH)
  /\ (k = 40 -> level pins.tapWater after = HIGH
                /\ level pins.pump after = LOW
                /\ level pins.fertiliser after = LOW)
  /\ (k = 72 -> level pins.tapWater after = LOW
                /\ fertLine after
                   = if Fertilising.finishTime (fertilising before) <=? start + 72
                     then 0 else -1)
  /\ (fertLine before = -2 -> k <> 72 ->
      fertLine after = -2
      /\ Fertilising.dumpCount (fertilising after)
         = Fertilising.dumpCount (fertilising before)
      /\ Fertilising.finishTime (fertilising after)
         = Fertilising.finishTime (fertilising before))
  /\ primingCount after
     = ((if (k =? 32)%Z then 1 else 0) + primingCount before)%nat.
Proof.
  intros N Ha Hs Hc U after.
  destruct (fertilising_loop_trigger cfg inp before N) as (F & w & R & Hpump).
  cbv zeta in F, R. fold after in F, R.
  assert (S0 := trigger_start before st0 inp start Ha Hs Hc).
  set (f0 := if autoStart before inp then _ else _) in *.
  assert (C0 : Fertilising.currentSolenoid f0
               = Fertilising.currentSolenoid (fertilising before))
    by (subst f0; destruct (autoStart before inp); reflexivity).
  assert (D0 : Fertilising.dumpCount f0 = Fertilising.dumpCount (fertilising before))
    by (subst f0; destruct (autoStart before inp); reflexivity).
  assert (E0 : Fertilising.finishTime f0 = Fertilising.finishTime (fertilising before))
    by (subst f0; destruct (autoStart before inp); reflexivity).
  rewrite S0, U in R. rewrite U in F.
  assert (Lt : level pins.tapWater after
               = levelIn pins.tapWater (primingWrites (start + k) start
                                        ++ w ++ relayLog before))
    by (rewrite level_relayLog, R; reflexivity).
  assert (Lp : level pins.pump after
               = levelIn pins.pump (primingWrites (start + k) start
                                    ++ w ++ relayLog before))
    by (rewrite level_relayLog, R; reflexivity).
  assert (Lf : level pins.fertiliser after
               = levelIn pins.fertiliser (primingWrites (start + k) start
                                          ++ w ++ relayLog before))
    by (rewrite level_relayLog, R; reflexivity).
  rewrite primingWrites_cases in Lt, Lp, Lf.
  split; [|split; [|split; [|split; [|split; [|split]]]]].
  - rewrite F, startTime_sweepStep. unfold primingStep. rewrite S0.
    destruct (Z.eqb_spec k 72) as [E|E].
    + rewrite E, Z.eqb_refl. reflexivity.
    + replace (start + k =? start + 72) with false by (symmetry; apply Z.eqb_neq; lia).
      exact S0.
  - intros E. rewrite Lt, E, Z.add_0_r, Z.eqb_refl. reflexivity.
  - intros E. rewrite Lt, Lp, Lf, E.
    replace (start + 32 =? start) with false by (symmetry; apply Z.eqb_neq; lia).
    rewrite Z.eqb_refl. repeat split.
  - intros E. rewrite Lt, Lp, Lf, E.
    replace (start + 40 =? start) with false by (symmetry; apply Z.eqb_neq; lia).
    replace (start + 40 =? start + 32) with false by (symmetry; apply Z.eqb_neq; lia).
    rewrite Z.eqb_refl. repeat split.
  - intros E. rewrite Lt, E.
    replace (start + 72 =? start) with false by (symmetry; apply Z.eqb_neq; lia).
    replace (start + 72 =? start + 32) with false by (symmetry; apply Z.eqb_neq; lia).
    replace (start + 72 =? start + 40) with false by (symmetry; apply Z.eqb_neq; lia).
    rewrite Z.eqb_refl. split; [reflexivity|].
    rewrite E in F. unfold primingStep in F. rewrite S0, Z.eqb_refl, E0 in F.
    unfold sweepStep in F. cbn [Fertilising.currentSolenoid Fertilising.finishTime
                                 Fertilising.dumpCount Fertilising.startTime] in F.
    change (-1 <=? -1) with true in F. cbn [andb] in F.
    change (lineCount <=? -1 + 1) with false in F.
    unfold fertLine. rewrite F.
    destruct (Fertilising.finishTime (fertilising before) <=? start + 72);
      [destruct (0 <? nth (Z.to_nat (-1 + 1)) (fertTimes cfg) 0)|]; reflexivity.
  - intros Hi E. rewrite primingStep_waits in F by (rewrite S0; lia).
    rewrite sweepStep_idle in F by (rewrite C0; exact Hi).
    unfold fertLine. rewrite F, C0, D0, E0. repeat split. exact Hi.
  - unfold primingCount. rewrite R, !primingsIn_app, primingsIn_primingWrites.
    rewrite (primingsIn_pump w Hpump).
    destruct (Z.eqb_spec (start + k) (start + 32)); destruct (Z.eqb_spec k 32);
      try lia; reflexivity.
Qed.



(** The state the passes [pre] of a priming that started at [start] lead
    to. *)
Lemma priming_before cfg (pre : list Inputs) (inp : Inputs) (st : State) (start : Z) :
  startsAt st (pre ++ [inp]) start ->
  notRestarted st pre start ->
  oncePerSecond (lastSecond st) start pre ->
  (length pre <= 72)%nat ->
  (Fertilising.startTime (fertilising (runLoop cfg pre st)) = start
   \/ autoStart st inp = true)
  /\ (fertLine st = -2 ->
      fertLine (runLoop cfg pre st) = -2
      /\ Fertilising.dumpCount (fertilising (runLoop cfg pre st))
         = Fertilising.dumpCount (fertilising st)
      /\ Fertilising.finishTime (fertilising (runLoop cfg pre st))
         = Fertilising.finishTime (fertilising st)).
Proof.
  intros Hs Hn Ho Hl.
  destruct pre as [|first pre'].
  { cbn [runLoop fold_left app] in *. split.
    - destruct Hs as [Hs|Hs]; auto.
    - intros Hi. repeat split. exact Hi. }
  cbn [app] in Hs.
  cbn [oncePerSecond] in Ho. destruct Ho as (N1 & U1 & O').
  apply Forall_cons_iff in Hn. destruct Hn as (C1 & Hn').
  destruct (priming_pass cfg first st st start 0 N1 eq_refl Hs C1 ltac:(lia))
    as (S1 & _ & _ & _ & _ & I1 & _).
  cbv zeta in S1, I1. change (0 =? 72) with false in S1.
  set (st1 := loop cfg first st) in *.
  rewrite <- (lastSecond_loop cfg first st) in O'. fold st1 in O'.
  assert (A1 : automation st1 = automation st) by apply automation_loop.
  cbn [length] in Hl.
  rewrite runLoop_cons. fold st1.
  assert (Hn1 : notRestarted st pre' (Fertilising.startTime (fertilising st1)))
    by (rewrite S1; exact Hn').
  split.
  - left.
    rewrite (startTime_run cfg st pre' st1 (start + 1) A1); [exact S1 | | exact O' | exact Hn1].
    rewrite S1. lia.
  - intros Hi. destruct (I1 Hi ltac:(lia)) as (L1 & D1 & E1).
    assert (PR := priming_run cfg st pre' st1 (start + 1) A1 L1
                    ltac:(rewrite S1; lia) O' Hn1).
    unfold fertLine in *. rewrite PR, D1, E1. repeat split. exact L1.
Qed.

(** C2 (as amended).  In the first pass of a second that the clock shows
    as weekday 0 (Sunday), 16:00:00, with the fertilising switch on, the
    test of the automatic trigger holds; after the pass the start time is
    the epoch second of the pass, and the tap-water relay is HIGH: priming
    has begun. *)
Theorem C2_automatic_start_on_day_0 (cfg : Settings) (inp : Inputs) (st : State) :
  Automation.fertilise (automation st) = true -> newSecond inp st ->
  getWeekDay (rtcNow inp) = 0 -> getHour (rtcNow inp) = 16 ->
  getMinute (rtcNow inp) = 0 -> getSecond (rtcNow inp) = 0 ->
  timeIs 0 16 0 0 (set_time (rtcNow inp) st) = true
  /\ Fertilising.startTime (fertilising (loop cfg inp st)) = getUnixTime (rtcNow inp)
  /\ level pins.tapWater (loop cfg inp st) = HIGH.
Proof.
  intros Ha N Hd Hh Hm Hs.
  assert (T : timeIs 0 16 0 0 (set_time (rtcNow inp) st) = true).
  { apply timeIs_true. cbn [time set_time]. rewrite Hd, Hh, Hm, Hs. lia. }
  assert (A : autoStart st inp = true) by (unfold autoStart; rewrite T, Ha; reflexivity).
  split; [exact T|].
  destruct (priming_pass cfg inp st st (getUnixTime (rtcNow inp)) 0 N eq_refl
              (or_intror A) (fun _ => eq_refl) ltac:(lia))
    as (S1 & L1 & _).
  cbv zeta in S1, L1. split; [exact S1 | apply L1; reflexivity].
Qed.

Lemma C2_automatic_start_on_day_0_witness :
  Fertilising.startTime (fertilising beforeSundayAfternoon) = 0
  /\ Fertilising.startTime
       (fertilising (loop settings sundayAfternoon beforeSundayAfternoon)) = 1446400
  /\ level pins.tapWater (loop settings sundayAfternoon beforeSundayAfternoon) = HIGH.
Proof.
  split; [reflexivity|].
  destruct (C2_automatic_start_on_day_0 settings sundayAfternoon beforeSundayAfternoon)
    as (_ & H1 & H2); try reflexivity.
  - vm_compute. discriminate.
  - split; [exact H1 | exact H2].
Defined.

(** No clock reading with a weekday from 1 to 7 passes the test of the
    automatic trigger: it asks for weekday 0. *)
Lemma C2_no_start_on_days_1_to_7 : ~ autoStartInContractRange.
Proof.
  intros (st & d & Hd & _ & _ & _ & T).
  rewrite timeIs_false in T; [discriminate|].
  left. cbn [time set_time]. lia.
Qed.

(** C5 (as amended).  Priming starts at epoch second [start], by the menu
    or by the automatic trigger in the pass at [start], and the automatic
    trigger does not start it again.  Over passes that come once a second
    from [start] on: after the pass at [start] the tap-water relay is
    HIGH; after the pass at [start + 32] it is LOW and the pump and the
    fertiliser valve are HIGH; after the pass at [start + 40] it is HIGH
    again and the pump and the valve are LOW; in the pass at [start + 72]
    the priming block writes tap-water LOW, sets the cursor to Starting
    (-1) and clears the start time, and the sweep block of the same pass
    moves the cursor on to line 0 if the finish time is not in the future.
    The start time stays [start] until then, and in no earlier pass does
    the priming block touch the cells of the sequence; if the sequence was
    idle (cursor -2) when priming started, it is idle after every pass
    before the one at [start + 72]: dispensing has not begun. *)
Theorem C5_priming_schedule (cfg : Settings) (pre : list Inputs) (inp : Inputs)
    (st : State) (start : Z) :
  startsAt st (pre ++ [inp]) start ->
  notRestarted st (pre ++ [inp]) start ->
  oncePerSecond (lastSecond st) start (pre ++ [inp]) ->
  (length pre <= 72)%nat ->
  let k := Z.of_nat (length pre) in
  let before := runLoop cfg pre st in
  let after := loop cfg inp before in
  getUnixTime (rtcNow inp) = start + k
  /\ Fertilising.startTime (fertilising after) = (if k =? 72 then 0 else start)
  /\ (k = 0 -> level pins.tapWater after = HIGH)
  /\ (k = 32 -> level pins.tapWater after = LOW
                /\ level pins.pump after = HIGH
                /\ level pins.fertiliser after = HIGH)
  /\ (k = 40 -> level pins.tapWater after = HIGH
                /\ level pins.pump after = LOW
                /\ level pins.fertiliser after = LOW)
  /\ (k = 72 -> level pins.tapWater after = LOW
                /\ fertLine after
                   = if Fertilising.finishTime (fertilising before) <=? start + 72
                     then 0 else -1)
  /\ (fertLine st = -2 -> k < 72 -> fertLine before = -2 /\ fertLine after = -2)
  /\ (forall s,
        (now s <> Fertilising.startTime (fertilising s) + 72 ->
         fertilising (fertilisePriming s) = fertilising s)
        /\ (now s = Fertilising.startTime (fertilising s) + 72 ->
            fertLine (fertilisePriming s) = -1
            /\ Fertilising.startTime (fertilising (fertilisePriming s)) = 0
            /\ relayLog (fertilisePriming s) = (pins.tapWater, LOW) :: relayLog s)).
Proof.
  intros Hs Hn Ho Hk k before after.
  destruct (oncePerSecond_split cfg pre [inp] st start Ho) as (O1 & O2).
  cbn [oncePerSecond] in O2. destruct O2 as (N & U & _). fold before in N. fold k in U.
  assert (Hn' := Hn). apply Forall_app in Hn'. destruct Hn' as (Hn1 & Hn2).
  apply Forall_cons_iff in Hn2. destruct Hn2 as (Cinp & _).
  assert (A : automation before = automation st) by apply automation_runLoop.
  destruct (priming_before cfg pre inp st start Hs Hn1 O1 Hk) as (B1 & B2).
  fold before in B1, B2.
  destruct (priming_pass cfg inp before st start k N A B1 Cinp U)
    as (P1 & P2 & P3 & P4 & P5 & P6 & _).
  cbv zeta in P1, P2, P3, P4, P5, P6. fold after in P1, P2, P3, P4, P5, P6.
  split; [exact U|]. split; [exact P1|]. split; [exact P2|]. split; [exact P3|].
  split; [exact P4|]. split; [exact P5|]. split.
  - intros Hi Hlt. destruct (B2 Hi) as (L & _). split; [exact L|].
    destruct (P6 L ltac:(lia)) as (L' & _). exact L'.
  - intros s. split.
    + intros E. rewrite fertilising_fertilisePriming. apply primingStep_waits, E.
    + intros E. unfold fertLine.
      rewrite fertilising_fertilisePriming, relayLog_fertilisePriming.
      unfold primingStep. rewrite E, Z.eqb_refl, primingWrites_cases.
      replace (_ + 72 =? Fertilising.startTime (fertilising s)) with false
        by (symmetry; apply Z.eqb_neq; lia).
      replace (_ + 72 =? _ + 32) with false by (symmetry; apply Z.eqb_neq; lia).
      replace (_ + 72 =? _ + 40) with false by (symmetry; apply Z.eqb_neq; lia).
      rewrite Z.eqb_refl. repeat split.
Qed.

(** The passes of a concrete run do not fire the automatic trigger again. *)
Ltac not_restarted :=
  apply Forall_forall; intros ? ?;
  match goal with
  | Hx : In ?x ?l |- calm ?st ?start ?x =>
      let Hb := fresh in
      assert (Hb : forallb (fun i => negb (autoStart st i)
                                     || (getUnixTime (rtcNow i) =? start)) l = true)
        by (vm_compute; reflexivity);
      apply (proj1 (forallb_forall _ _) Hb) in Hx;
      let A := fresh in
      intros A; rewrite A in Hx; cbn [negb orb] in Hx; apply Z.eqb_eq, Hx
  end.

Ltac passes_once_per_second :=
  vm_compute; repeat split; discriminate.

Lemma C5_priming_schedule_witness :
  level pins.tapWater
    (loop settings (quietPass (mkDateTime 0 16 0 32 1446432))
       (runLoop settings (quietSeconds 32 sundayFour) beforeSundayAfternoon)) = LOW
  /\ level pins.pump
       (loop settings (quietPass (mkDateTime 0 16 0 32 1446432))
          (runLoop settings (quietSeconds 32 sundayFour) beforeSundayAfternoon)) = HIGH
  /\ level pins.fertiliser
       (loop settings (quietPass (mkDateTime 0 16 0 32 1446432))
          (runLoop settings (quietSeconds 32 sundayFour) beforeSundayAfternoon)) = HIGH.
Proof.
  destruct (C5_priming_schedule settings (quietSeconds 32 sundayFour)
              (quietPass (mkDateTime 0 16 0 32 1446432)) beforeSundayAfternoon 1446400)
    as (_ & _ & _ & H & _).
  - right. vm_compute. reflexivity.
  - not_restarted.
  - passes_once_per_second.
  - cbn. lia.
  - apply H. reflexivity.
Defined.

(** The menu starts priming at 15:59:30 on a Sunday, with the fertilising
    switch on: the automatic trigger of 16:00:00 sets the start time again,
    and the pass 32 seconds after the first start finds tap-water still
    HIGH and the pump and the valve still LOW. *)
Lemma C5_restart_breaks_schedule : ~ primingOffsetsHold.
Proof.
  intros H.
  destruct (H settings (quietSeconds 33 lateStartClock) lateStart 1446370) as (H1 & _).
  - reflexivity.
  - passes_once_per_second.
  - reflexivity.
  - vm_compute in H1. discriminate.
Qed.

Example late_start_run :
  Fertilising.startTime (fertilising lateStart) = 1446370
  /\ Fertilising.startTime
       (fertilising (runLoop settings (quietSeconds 33 lateStartClock) lateStart))
     = 1446400
  /\ relayLog (runLoop settings (quietSeconds 33 lateStartClock) lateStart)
     = [(pins.tapWater, HIGH); (pins.tapWater, HIGH)].
Proof. vm_compute. repeat split. Qed.

(** The priming of the scenario, relay write by relay write. *)
Example priming_scenario_run :
  relayLog (runLoop settings (quietSeconds 73 primingStart) primed)
  = [(pins.tapWater, LOW);
     (pins.fertiliser, LOW); (pins.pump, LOW); (pins.tapWater, HIGH);
     (pins.fertiliser, HIGH); (pins.pump, HIGH); (pins.tapWater, LOW);
     (pins.tapWater, HIGH)]
  /\ fertView (runLoop settings (quietSeconds 72 primingStart) primed) = (-2, 0)
  /\ fertView (runLoop settings (quietSeconds 73 primingStart) primed) = (0, 0).
Proof. vm_compute. repeat split. Qed.

(** The whole fertilising sequence of the scenario: 72 passes of priming,
    three sweeps of six lines for 20 passes each, and no relay write after
    the priming. *)
Example fertilising_scenario_run :
  trace fertView settings (quietSeconds 440 primingStart) primed
  = fertSchedule settings ++ repeat (-2, 0) 6
  /\ relayLog (runLoop settings (quietSeconds 440 primingStart) primed)
     = relayLog (runLoop settings (quietSeconds 73 primingStart) primed).
Proof. vm_compute. split; reflexivity. Qed.

Lemma fertSweepOf_cons cfg rep i ls :
  fertSweepOf cfg rep (i :: ls)
  = repeat (Z.of_nat i, Z.of_nat rep) (fertDwell cfg i) ++ fertSweepOf cfg rep ls.
Proof. reflexivity. Qed.






(** ** Counting priming sequences *)







Lemma fertSchedule_length cfg : (72 < length (fertSchedule cfg))%nat.
Proof.
  unfold fertSchedule. change lines with (0%nat :: seq 1 5).
  rewrite fertSweepOf_cons, !length_app, !repeat_length.
  unfold fertDwell. destruct (Z.ltb_spec 0 (nth 0 (fertTimes cfg) 0)); lia.
Qed.






(** The run of that restart: the cursor is on line 2 of the second sweep
    when the menu command is taken; the second priming ends with the cursor
    at Starting and the repetition counter at 2 while line 0 is still asked
    to open; line 0 is asked to open for 40 passes on end, twice its
    configured time; the run has seen two priming sequences when the
    sequence is idle again. *)
Example mid_sweep_restart :
  fertView (runLoop settings (quietSeconds 250 primingStart) primed) = (2, 1)
  /\ Fertilising.startTime (fertilising midSweep) = 1000251
  /\ fertView (runLoop settings (quietSeconds 73 midSweepClock) midSweep) = (-1, 2)
  /\ desired 0 (runLoop settings (quietSeconds 73 midSweepClock) midSweep) = true
  /\ length (filter (fun open => open)
               (trace (desired 0) settings (quietSeconds 230 midSweepClock) midSweep))
     = 40%nat
  /\ fertView (runLoop settings (quietSeconds 230 midSweepClock) midSweep) = (-2, 0)
  /\ primingCount (runLoop settings (quietSeconds 230 midSweepClock) midSweep) = 2%nat.
Proof. vm_compute. repeat split. Qed.
(** * Properties of the rest of the sketch *)

(** ** Persistent memory *)

(** X1.  The automation switches survive in the EEPROM: the byte that
    [updatePersistentMemory] writes is read back by the three calls of
    [getEEPROMBit] in [setup] as the same three switches, whatever the
    EEPROM held before, and no other address of the EEPROM is written. *)
Theorem X1_switches_round_trip (st : State) (e : EEPROM) :
  readSwitches (updatePersistentMemory st e) = automation st
  /\ (forall addr, addr <> softwareConstants.automationSwitches ->
        updatePersistentMemory st e addr = e addr).
Proof.
  split.
  - unfold readSwitches, updatePersistentMemory, getEEPROMBit, EEPROM_update.
    cbv zeta. rewrite Z.eqb_refl.
    destruct (automation st) as [[] [] []]; reflexivity.
  - intros addr H. unfold updatePersistentMemory, EEPROM_update. cbv zeta.
    destruct (Z.eqb_spec addr softwareConstants.automationSwitches);
      [contradiction | reflexivity].
Qed.

(** ** The display helpers *)

(** X2.  [waterToMins] converts seconds of watering to minutes, rounded up:
    the result is the least number of whole minutes that covers the
    seconds. *)
Theorem X2_waterToMins_rounds_up (water : Z) :
  0 <= water ->
  water <= 60 * waterToMins water < water + 60
  /\ (forall m, water <= 60 * m -> waterToMins water <= m).
Proof.
  intros H. unfold waterToMins.
  assert (D := Z.div_mod water 60 ltac:(lia)).
  assert (B := Z.mod_pos_bound water 60 ltac:(lia)).
  destruct (Z.eqb_spec (water mod 60) 0); split; try lia; intros m Hm; nia.
Qed.

Lemma X2_waterToMins_rounds_up_witness :
  135 <= 60 * waterToMins 135 < 135 + 60.
Proof.
  apply (X2_waterToMins_rounds_up 135). lia.
Defined.

(** ** The ultrasonic echo *)

(** X3.  The interrupt handler measures the length of the echo pulse also
    when the 32 bit microsecond counter wraps around between the two
    edges: with the cooldown counter at 0, a rising edge at counter value
    [m1] and a falling edge [d] microseconds later store [d] as the tank
    reading of the current day. *)
Theorem X3_echo_pulse_length (st : State) (m1 d : Z) :
  wf st -> noPinInterrupts st = 0 ->
  0 <= m1 < 4294967296 -> 0 <= d < 4294967296 ->
  waterTankLevel
    (dayAt 2 (waterTankUltrasonicEcho false ((m1 + d) mod 4294967296)
                (waterTankUltrasonicEcho true m1 st))) = d.
Proof.
  intros Hwf H0 Hm Hd.
  rewrite (echo_taken true m1 st H0).
  rewrite echo_taken by exact H0.
  change (waterTankUltrasonicTimer (set_waterTankUltrasonicTimer m1 st)) with m1.
  destruct Hwf as (_ & _ & _ & _ & _ & Hp).
  unfold set_todayTankLevel, set_day, dayAt.
  change (previousDays (set_waterTankUltrasonicTimer m1 st)) with (previousDays st).
  change (previousDays (set_previousDays ?l ?s)) with l.
  rewrite nth_upd_same by lia. cbn [waterTankLevel].
  unfold to_ulong. rewrite Zminus_mod_idemp_l.
  replace (m1 + d - m1) with d by lia. apply Z.mod_small. lia.
Qed.

Lemma X3_echo_pulse_length_witness :
  waterTankLevel
    (dayAt 2 (waterTankUltrasonicEcho false ((4294967000 + 5000) mod 4294967296)
                (waterTankUltrasonicEcho true 4294967000 booted))) = 5000.
Proof.
  apply (X3_echo_pulse_length booted 4294967000 5000).
  - vm_compute. repeat split.
  - reflexivity.
  - lia.
  - lia.
Defined.
(** ** Skipped ticks *)

(** X4.  A hack timer fires only in a pass whose epoch second equals its
    trigger time.  Over any run of passes none of which shows that second
    (the tick was skipped, or the trigger time is already past) the mode,
    the trigger time and the on flag of the timer stay as they are: a
    missed trigger is never caught up. *)
Theorem X4_missed_trigger_never_fires (cfg : Settings) (i : nat)
    (inps : list Inputs) (st : State) (m tr : Z) (on : bool) :
  wf st -> (i < 6)%nat ->
  timerOf i st = (m, tr, on) ->
  Forall (fun inp => getUnixTime (rtcNow inp) <> tr) inps ->
  timerOf i (runLoop cfg inps st) = (m, tr, on).
Proof.
  intros Hwf Hi. revert st Hwf.
  induction inps as [|inp inps IH]; intros st Hwf Ht Hn; [exact Ht|].
  apply Forall_cons_iff in Hn. destruct Hn as (N1 & N2).
  rewrite runLoop_cons. apply IH; [apply wf_loop, Hwf | | exact N2].
  destruct (Z.eq_dec (getSecond (rtcNow inp)) (lastSecond st)) as [E|E].
  - rewrite timerOf_loop_sameSecond by exact E. exact Ht.
  - rewrite timerOf_loop by assumption. rewrite Ht.
    apply timerStep_quiet. right. auto.
Qed.

Lemma X4_missed_trigger_never_fires_witness :
  timerOf 0 (runLoop settings [afterTenMinutes] oneShotArmed) = (2, 1000600, true).
Proof.
  apply (X4_missed_trigger_never_fires settings 0 [afterTenMinutes] oneShotArmed).
  - vm_compute. repeat split.
  - lia.
  - reflexivity.
  - apply Forall_cons; [vm_compute; discriminate | apply Forall_nil].
Defined.

(** X5.  The priming of the fertiliser sequence ends only in the pass
    whose epoch second is [startTime + 72].  If the sketch makes no pass at
    that second, then over every later run of passes in which the automatic
    start does not fire (none of them is a pass of 16:00:00 on weekday 0
    with automatic fertilising switched on) the sequence stays where it is
    (cursor idle, [startTime] still set), the tap water relay keeps the
    level it had, and the menu command that starts the sequence does
    nothing. *)
Theorem X5_missed_priming_tick (cfg : Settings) (inps : list Inputs)
    (st : State) (start : Z) :
  Fertilising.startTime (fertilising st) = start -> 0 < start ->
  fertLine st = -2 ->
  Forall (fun inp => start + 72 < getUnixTime (rtcNow inp)) inps ->
  Forall (fun inp => autoStart st inp = false) inps ->
  fertilising (runLoop cfg inps st) = fertilising st
  /\ level pins.tapWater (runLoop cfg inps st) = level pins.tapWater st
  /\ menuFertilise (runLoop cfg inps st) = runLoop cfg inps st.
Proof.
  intros Hs H0 Hc Ht Hw.
  assert (K : forall s, automation s = automation st ->
              Fertilising.startTime (fertilising s) = start -> fertLine s = -2 ->
              fertilising (runLoop cfg inps s) = fertilising s
              /\ level pins.tapWater (runLoop cfg inps s) = level pins.tapWater s).
  { clear Hs Hc.
    induction inps as [|inp inps IH]; intros s Ha Hs Hc; [split; reflexivity|].
    apply Forall_cons_iff in Ht. destruct Ht as (T1 & T2).
    apply Forall_cons_iff in Hw. destruct Hw as (W1 & W2).
    rewrite runLoop_cons.
    assert (P : fertilising (loop cfg inp s) = fertilising s
                /\ level pins.tapWater (loop cfg inp s) = level pins.tapWater s).
    { rewrite !(level_relayLog pins.tapWater) by reflexivity.
      destruct (Z.eq_dec (getSecond (rtcNow inp)) (lastSecond s)) as [E|E].
      - split; [apply fertilising_loop_sameSecond, E|].
        destruct (cooldown_sameSecond cfg inp s E) as (R & _).
        rewrite R. reflexivity.
      - assert (C : calm st (Fertilising.startTime (fertilising s)) inp)
          by (intros A; rewrite W1 in A; discriminate A).
        destruct (fertilising_loop cfg inp s st E Ha C) as (F & w & R & Hp).
        cbv zeta in F. rewrite primingStep_waits in F by lia.
        rewrite sweepStep_idle in F by exact Hc.
        split; [exact F|].
        rewrite R, primingWrites_cases, Hs.
        replace (_ =? start) with false by (symmetry; apply Z.eqb_neq; lia).
        replace (_ =? start + 32) with false by (symmetry; apply Z.eqb_neq; lia).
        replace (_ =? start + 40) with false by (symmetry; apply Z.eqb_neq; lia).
        replace (_ =? start + 72) with false by (symmetry; apply Z.eqb_neq; lia).
        cbn [app]. apply levelIn_skip_pump; [discriminate | exact Hp]. }
    destruct P as (P1 & P2).
    destruct (IH T2 W2 (loop cfg inp s)) as (Q1 & Q2).
    - rewrite automation_loop. exact Ha.
    - rewrite P1. exact Hs.
    - unfold fertLine. rewrite P1. exact Hc.
    - split; [rewrite Q1; exact P1 | rewrite Q2; exact P2]. }
  destruct (K st eq_refl Hs Hc) as (K1 & K2).
  split; [exact K1|]. split; [exact K2|].
  unfold menuFertilise. apply when_false. rewrite K1, Hs.
  apply Z.eqb_neq. lia.
Qed.

Lemma X5_missed_priming_tick_witness :
  fertilising (runLoop settings [afterPriming] primingUnderWay)
  = Fertilising.mk 1000001 (-2) 0 0
  /\ level pins.tapWater (runLoop settings [afterPriming] primingUnderWay) = HIGH.
Proof.
  destruct (X5_missed_priming_tick settings [afterPriming] primingUnderWay 1000001)
    as (H1 & H2 & _).
  - reflexivity.
  - lia.
  - reflexivity.
  - apply Forall_cons; [vm_compute; reflexivity | apply Forall_nil].
  - apply Forall_cons; [vm_compute; reflexivity | apply Forall_nil].
  - split; [rewrite H1 | rewrite H2]; reflexivity.
Defined.

(** ** The record of the current day *)

Lemma today_keeps {A} (f : Day -> A) (g : Day -> Day) :
  (forall d, f (g d) = f d) ->
  keeps (fun st => f (dayAt 2 st)) (fun st => set_day 2 (g (dayAt 2 st)) st).
Proof.
  intros H st. cbv beta. unfold dayAt, set_day.
  change (previousDays (set_previousDays ?l ?s)) with l.
  unfold upd. set (l := previousDays st).
  destruct l as [|a [|b [|c l']]]; cbn; try reflexivity. apply H.
Qed.

Lemma today_set (d : Day) (st : State) :
  wf st -> dayAt 2 (set_day 2 d st) = d.
Proof.
  intros (_ & _ & _ & _ & _ & H). unfold dayAt, set_day.
  change (previousDays (set_previousDays ?l ?s)) with l.
  apply nth_upd_same. lia.
Qed.

(** [keeps_today f] shows that a block leaves the field [f] of the record
    of the current day alone. *)
Ltac keeps_today f :=
  lazymatch goal with
  | |- keeps _ (_ ;; _) => apply keeps_andThen; keeps_today f
  | |- keeps _ (when _ _) => apply keeps_when; keeps_today f
  | |- keeps _ (ifElse _ _ _) => apply keeps_ifElse; keeps_today f
  | |- keeps _ (reading _ _) => apply keeps_reading; intro; keeps_today f
  | |- keeps _ (forLines _) => apply keeps_forLines; intro; keeps_today f
  | |- keeps _ skip => apply keeps_skip
  | |- keeps _ (set_todayMaxTemp ?v) =>
      apply (today_keeps f (fun d => mkDay (day d) v (rainFlips d)
                                       (waterTankLevel d) (totalAdded d)));
      intro; reflexivity
  | |- keeps _ (set_todayRainFlips ?v) =>
      apply (today_keeps f (fun d => mkDay (day d) (maxTemp d) v
                                       (waterTankLevel d) (totalAdded d)));
      intro; reflexivity
  | |- keeps _ (set_todayTankLevel ?v) =>
      apply (today_keeps f (fun d => mkDay (day d) (maxTemp d) (rainFlips d)
                                       v (totalAdded d)));
      intro; reflexivity
  | |- keeps _ (set_todayTotalAdded ?v) =>
      apply (today_keeps f (fun d => mkDay (day d) (maxTemp d) (rainFlips d)
                                       (waterTankLevel d) v));
      intro; reflexivity
  | |- keeps _ _ => first [ open_block; keeps_today f | intro; reflexivity ]
  end.

Lemma keeps_seq {A} (proj : State -> A) (f g : Stmt) (st : State) :
  keeps proj (f ;; g) -> proj (g (f st)) = proj st.
Proof. intros K. exact (K st). Qed.

Lemma everySecond_split cfg r q st :
  everySecond cfg r q st
  = afterRotation cfg (dailyRotation (beforeRotation r q st)).
Proof. reflexivity. Qed.

Lemma time_beforeRotation r q : keeps time (beforeRotation r q).
Proof. unfold beforeRotation. keeps_tac. Qed.

Lemma everySecond_noRotation cfg r q st :
  getHour (time st) <> 8 \/ getMinute (time st) <> 0 \/ getSecond (time st) <> 0 ->
  everySecond cfg r q st = afterRotation cfg (beforeRotation r q st).
Proof.
  intros H. rewrite everySecond_split, dailyRotation_skips; [reflexivity|].
  rewrite time_beforeRotation. exact H.
Qed.

(** ** The rain counter *)

Lemma rain_rainEdge (r : bool) (st : State) :
  wf st ->
  rainFlips (dayAt 2 (rainEdge r st))
  = rainFlips (dayAt 2 st) + (if r && negb (rainSensorTripped st) then 1 else 0)
  /\ rainSensorTripped (rainEdge r st) = rainSensorTripped st || r.
Proof.
  intros Hwf. unfold rainEdge, when.
  destruct r; destruct (rainSensorTripped st) eqn:E; cbn [andb negb orb];
    rewrite ?E; try (split; [lia | reflexivity]).
  rewrite andThen_apply, reading_apply. split; [|reflexivity].
  unfold set_todayRainFlips. rewrite today_set; [reflexivity|].
  destruct Hwf as (?&?&?&?&?&?). repeat split; assumption.
Qed.

Lemma rain_everyPass inp (st : State) :
  wf st ->
  rainFlips (dayAt 2 (everyPass inp st))
  = rainFlips (dayAt 2 st)
    + (if rainRead inp && negb (rainSensorTripped st) then 1 else 0)
  /\ rainSensorTripped (everyPass inp st) = rainSensorTripped st || rainRead inp.
Proof.
  intros Hwf. unfold everyPass. rewrite !andThen_apply.
  assert (W0 : wf (serviceSolenoids (solenoidRead inp) (set_time (rtcNow inp) st))).
  { assert (P : preserves wf (serviceSolenoids (solenoidRead inp))) by preserves_wf.
    apply P. destruct Hwf as (?&?&?&?&?&?). repeat split; assumption. }
  destruct (rain_rainEdge (rainRead inp) _ W0) as (F & T). rewrite F, T.
  assert (K1 : keeps (dayAt 2) (serviceSolenoids (solenoidRead inp))) by keeps_tac.
  assert (K2 : keeps rainSensorTripped (serviceSolenoids (solenoidRead inp)))
    by keeps_tac.
  rewrite (K1 (set_time (rtcNow inp) st)), (K2 (set_time (rtcNow inp) st)).
  split; reflexivity.
Qed.




(** ** The maximum temperature of the day *)

Lemma everyMinute_due (s : State) :
  timeIs (-1) (-1) (-1) 0 s = (getSecond (time s) =? 0).
Proof.
  unfold timeIs, timeCheck. change (-1 <? 0) with true. change (0 <? 0) with false.
  cbn [orb andb]. apply Z.eqb_sym.
Qed.

Lemma maxTemp_everyMinute (q : Q) (s : State) :
  wf s ->
  maxTemp (dayAt 2 (everyMinute q s))
  = (if (getSecond (time s) =? 0) || firstLoop s
     then if Qle_bool q (maxTemp (dayAt 2 s)) then maxTemp (dayAt 2 s) else q
     else maxTemp (dayAt 2 s))
  /\ temperature (everyMinute q s)
     = (if (getSecond (time s) =? 0) || firstLoop s then q else temperature s).
Proof.
  intros Hwf. unfold everyMinute.
  destruct ((getSecond (time s) =? 0) || firstLoop s) eqn:E.
  2:{ rewrite when_false by (rewrite everyMinute_due; exact E). split; reflexivity. }
  rewrite when_true by (rewrite everyMinute_due; exact E).
  rewrite !andThen_apply.
  set (s1 := set_temperature q s).
  assert (W1 : wf s1) by (destruct Hwf as (?&?&?&?&?&?); repeat split; assumption).
  assert (Km : keeps (fun st => maxTemp (dayAt 2 st))
            (when (fun st => noPinInterrupts st =? 0)
               (digitalWrite pins.trigger LOW ;; digitalWrite pins.trigger HIGH ;;
                digitalWrite pins.trigger LOW) ;;
             when (fun st => Menu.mode (menu st) =? 0) (set_menuChanged true)))
    by (keeps_today maxTemp).
  assert (Kt : keeps temperature
            (when (fun st => noPinInterrupts st =? 0)
               (digitalWrite pins.trigger LOW ;; digitalWrite pins.trigger HIGH ;;
                digitalWrite pins.trigger LOW) ;;
             when (fun st => Menu.mode (menu st) =? 0) (set_menuChanged true)))
    by keeps_tac.
  split.
  - match goal with
    | |- maxTemp (dayAt 2 (?g (?f ?x))) = _ =>
        rewrite (keeps_seq (fun st => maxTemp (dayAt 2 st)) _ _ x Km)
    end.
    change (temperature s1) with q. change (dayAt 2 s1) with (dayAt 2 s).
    unfold when. change (temperature s1) with q. change (dayAt 2 s1) with (dayAt 2 s).
    destruct (Qle_bool q (maxTemp (dayAt 2 s))); cbn [negb]; [reflexivity|].
    rewrite reading_apply. unfold set_todayMaxTemp. rewrite today_set by exact W1.
    reflexivity.
  - match goal with
    | |- temperature (?g (?f ?x)) = _ =>
        rewrite (keeps_seq temperature _ _ x Kt)
    end.
    unfold when. destruct (negb _); reflexivity.
Qed.

Lemma wf_beforeRotation r q : preserves wf (beforeRotation r q).
Proof. unfold beforeRotation. preserves_wf. Qed.

Lemma wf_afterRotation cfg : preserves wf (afterRotation cfg).
Proof. unfold afterRotation. preserves_wf. Qed.

Lemma maxTemp_beforeRotation (r : bool) (q : Q) (s : State) :
  wf s ->
  maxTemp (dayAt 2 (beforeRotation r q s))
  = (if (getSecond (time s) =? 0) || firstLoop s
     then if Qle_bool q (maxTemp (dayAt 2 s)) then maxTemp (dayAt 2 s) else q
     else maxTemp (dayAt 2 s))
  /\ temperature (beforeRotation r q s)
     = (if (getSecond (time s) =? 0) || firstLoop s then q else temperature s).
Proof.
  intros Hwf. unfold beforeRotation. rewrite !andThen_apply.
  assert (W : wf (rainReset r (countDown s))).
  { assert (P : preserves wf (countDown ;; rainReset r)) by preserves_wf.
    apply (P s Hwf). }
  destruct (maxTemp_everyMinute q _ W) as (M & T).
  assert (Kp : keeps (fun st => maxTemp (dayAt 2 st)) pumpTimes)
    by (keeps_today maxTemp).
  assert (Kq : keeps temperature pumpTimes) by keeps_tac.
  rewrite (Kp (everyMinute q (rainReset r (countDown s)))), M.
  rewrite (Kq (everyMinute q (rainReset r (countDown s)))), T.
  assert (K1 : keeps time (countDown ;; rainReset r)) by keeps_tac.
  assert (K2 : keeps firstLoop (countDown ;; rainReset r)) by keeps_tac.
  assert (K3 : keeps (dayAt 2) (countDown ;; rainReset r)) by keeps_tac.
  assert (K4 : keeps temperature (countDown ;; rainReset r)) by keeps_tac.
  rewrite (keeps_seq time _ _ s K1), (keeps_seq firstLoop _ _ s K2),
    (keeps_seq (dayAt 2) _ _ s K3), (keeps_seq temperature _ _ s K4).
  split; reflexivity.
Qed.

Lemma maxTemp_everyPass inp : keeps (fun st => maxTemp (dayAt 2 st)) (everyPass inp).
Proof. keeps_today maxTemp. Qed.

Lemma firstLoop_everyPass inp : keeps firstLoop (everyPass inp).
Proof. keeps_tac. Qed.

Lemma maxTemp_afterRotation cfg :
  keeps (fun st => maxTemp (dayAt 2 st)) (afterRotation cfg).
Proof. unfold afterRotation. keeps_today maxTemp. Qed.

(** What one pass does to the maximum temperature of the current day. *)
Lemma maxTemp_loop cfg inp (st : State) :
  wf st -> noRotation inp ->
  maxTemp (dayAt 2 (loop cfg inp st))
  = (if negb (getSecond (rtcNow inp) =? lastSecond st)
        && ((getSecond (rtcNow inp) =? 0) || firstLoop st)
     then if Qle_bool (tempRead inp) (maxTemp (dayAt 2 st))
          then maxTemp (dayAt 2 st) else tempRead inp
     else maxTemp (dayAt 2 st)).
Proof.
  intros Hwf Hr.
  destruct (Z.eqb_spec (getSecond (rtcNow inp)) (lastSecond st)) as [E|E]; cbn [negb andb].
  - rewrite loop_sameSecond by exact E. apply maxTemp_everyPass.
  - rewrite loop_newSecond by exact E.
    rewrite everySecond_noRotation by (rewrite time_everyPass; exact Hr).
    rewrite maxTemp_afterRotation.
    destruct (maxTemp_beforeRotation (rainRead inp) (tempRead inp) (everyPass inp st))
      as (M & _); [apply wf_everyPass, Hwf|].
    rewrite M, time_everyPass, firstLoop_everyPass, !(maxTemp_everyPass inp st).
    reflexivity.
Qed.

(** X7.  The maximum temperature of the current day never goes down
    between two daily rotations, and a pass that reads the temperature
    sensor (a new second that is second 0 of a minute, or the first pass
    after the start) leaves it at least as high as the reading. *)
Theorem X7_max_temperature_is_running_maximum (cfg : Settings)
    (inps : list Inputs) (st : State) :
  wf st -> Forall noRotation inps ->
  (maxTemp (dayAt 2 st) <= maxTemp (dayAt 2 (runLoop cfg inps st)))%Q
  /\ (forall inp, noRotation inp -> newSecond inp st ->
        getSecond (rtcNow inp) = 0 \/ firstLoop st = true ->
        (tempRead inp <= maxTemp (dayAt 2 (loop cfg inp st)))%Q).
Proof.
  intros Hwf Hr.
  assert (Step : forall inp s, wf s -> noRotation inp ->
            (maxTemp (dayAt 2 s) <= maxTemp (dayAt 2 (loop cfg inp s)))%Q).
  { intros inp s Hs Hi. rewrite maxTemp_loop by assumption.
    destruct (_ && _); [|apply Qle_refl].
    destruct (Qle_bool (tempRead inp) (maxTemp (dayAt 2 s))) eqn:E; [apply Qle_refl|].
    apply Qlt_le_weak, Qnot_le_lt. intros H. apply Qle_bool_iff in H. congruence. }
  split.
  - revert st Hwf. induction inps as [|inp inps IH]; intros st Hwf; [apply Qle_refl|].
    apply Forall_cons_iff in Hr. destruct Hr as (R1 & R2).
    rewrite runLoop_cons.
    apply Qle_trans with (maxTemp (dayAt 2 (loop cfg inp st))).
    + apply Step; assumption.
    + apply IH; [exact R2 | apply wf_loop, Hwf].
  - intros inp Hi Hn Hd. rewrite maxTemp_loop by assumption.
    replace (getSecond (rtcNow inp) =? lastSecond st) with false
      by (symmetry; apply Z.eqb_neq; exact Hn).
    replace ((getSecond (rtcNow inp) =? 0) || firstLoop st) with true.
    2:{ symmetry. apply orb_true_iff.
        destruct Hd as [Hd|Hd]; [left; apply Z.eqb_eq, Hd | right; exact Hd]. }
    cbn [negb andb].
    destruct (Qle_bool (tempRead inp) (maxTemp (dayAt 2 st))) eqn:E; [|apply Qle_refl].
    apply Qle_bool_iff, E.
Qed.

Lemma X7_max_temperature_is_running_maximum_witness :
  (maxTemp (dayAt 2 firstPass) <= maxTemp (dayAt 2 (runLoop settings warmMinute firstPass)))%Q
  /\ maxTemp (dayAt 2 (runLoop settings warmMinute firstPass)) = 31 # 1.
Proof.
  destruct (X7_max_temperature_is_running_maximum settings warmMinute firstPass)
    as (H & _).
  - vm_compute. repeat split.
  - repeat (apply Forall_cons; [vm_compute; left; discriminate|]). apply Forall_nil.
  - split; [exact H | reflexivity].
Defined.
(** ** The daily rotation of the history *)

Lemma previousDays_dailyRotation (s : State) :
  getHour (time s) = 8 -> getMinute (time s) = 0 -> getSecond (time s) = 0 ->
  previousDays (dailyRotation s)
  = [dayAt 1 s; dayAt 2 s;
     mkDay (getWeekDay (time s)) (temperature s) 0 (waterTankLevel (dayAt 2 s)) 0].
Proof.
  intros Hh Hm Hs. unfold dailyRotation.
  rewrite when_true by (apply timeIs_true; lia).
  rewrite andThen_apply. unfold when.
  destruct (Automation.water (automation (rotateDays s))); reflexivity.
Qed.

Lemma olderDays_afterRotation cfg :
  keeps (dayAt 0) (afterRotation cfg) /\ keeps (dayAt 1) (afterRotation cfg).
Proof. unfold afterRotation. split; keeps_yesterday. Qed.

Lemma olderDays_beforeRotation r q :
  keeps (dayAt 0) (beforeRotation r q) /\ keeps (dayAt 1) (beforeRotation r q).
Proof. unfold beforeRotation. split; keeps_yesterday. Qed.

(** What the timed procedures of the pass of 08:00:00 do to the history. *)
Lemma rotation_everySecond cfg (r : bool) (q : Q) (s : State) :
  wf s ->
  getHour (time s) = 8 -> getMinute (time s) = 0 -> getSecond (time s) = 0 ->
  dayAt 0 (everySecond cfg r q s) = dayAt 1 s
  /\ dayAt 1 (everySecond cfg r q s)
     = mkDay (day (dayAt 2 s))
         (if Qle_bool q (maxTemp (dayAt 2 s)) then maxTemp (dayAt 2 s) else q)
         (rainFlips (dayAt 2 s)) (waterTankLevel (dayAt 2 s))
         (totalAdded (dayAt 2 s))
  /\ day (dayAt 2 (everySecond cfg r q s)) = getWeekDay (time s)
  /\ maxTemp (dayAt 2 (everySecond cfg r q s)) = q
  /\ rainFlips (dayAt 2 (everySecond cfg r q s)) = 0
  /\ waterTankLevel (dayAt 2 (everySecond cfg r q s)) = waterTankLevel (dayAt 2 s).
Proof.
  intros Hwf Hh Hm Hs. rewrite everySecond_split.
  destruct (maxTemp_beforeRotation r q s Hwf) as (Bm & Bt).
  rewrite Hs in Bm, Bt. change (0 =? 0) with true in Bm, Bt. cbn [orb] in Bm, Bt.
  assert (B1 := proj2 (olderDays_beforeRotation r q) s).
  assert (Bd : day (dayAt 2 (beforeRotation r q s)) = day (dayAt 2 s)).
  { assert (K : keeps (fun st => day (dayAt 2 st)) (beforeRotation r q))
      by (unfold beforeRotation; keeps_today day).
    apply K. }
  assert (Br : rainFlips (dayAt 2 (beforeRotation r q s)) = rainFlips (dayAt 2 s)).
  { assert (K : keeps (fun st => rainFlips (dayAt 2 st)) (beforeRotation r q))
      by (unfold beforeRotation; keeps_today rainFlips).
    apply K. }
  assert (Bw : waterTankLevel (dayAt 2 (beforeRotation r q s))
               = waterTankLevel (dayAt 2 s)).
  { assert (K : keeps (fun st => waterTankLevel (dayAt 2 st)) (beforeRotation r q))
      by (unfold beforeRotation; keeps_today waterTankLevel).
    apply K. }
  assert (Ba : totalAdded (dayAt 2 (beforeRotation r q s)) = totalAdded (dayAt 2 s)).
  { assert (K : keeps (fun st => totalAdded (dayAt 2 st)) (beforeRotation r q))
      by (unfold beforeRotation; keeps_today totalAdded).
    apply K. }
  assert (BT := time_beforeRotation r q s).
  assert (R := previousDays_dailyRotation (beforeRotation r q s)).
  rewrite BT in R. specialize (R Hh Hm Hs). rewrite Bt, Bw, B1 in R.
  generalize dependent (beforeRotation r q s). intros sB Bm _ _ Bd Br Bw Ba _ R.
  assert (D0 : dayAt 0 (dailyRotation sB) = dayAt 1 s)
    by (unfold dayAt at 1; rewrite R; reflexivity).
  assert (D1 : dayAt 1 (dailyRotation sB) = dayAt 2 sB)
    by (unfold dayAt at 1; rewrite R; reflexivity).
  assert (D2 : dayAt 2 (dailyRotation sB)
               = mkDay (getWeekDay (time s)) q 0 (waterTankLevel (dayAt 2 s)) 0)
    by (unfold dayAt at 1; rewrite R; reflexivity).
  generalize dependent (dailyRotation sB). intros sR _ D0 D1 D2.
  rewrite (proj1 (olderDays_afterRotation cfg) sR), D0.
  rewrite (proj2 (olderDays_afterRotation cfg) sR), D1.
  assert (Kd : keeps (fun st => day (dayAt 2 st)) (afterRotation cfg))
    by (unfold afterRotation; keeps_today day).
  assert (Kr : keeps (fun st => rainFlips (dayAt 2 st)) (afterRotation cfg))
    by (unfold afterRotation; keeps_today rainFlips).
  assert (Kw : keeps (fun st => waterTankLevel (dayAt 2 st)) (afterRotation cfg))
    by (unfold afterRotation; keeps_today waterTankLevel).
  rewrite (Kd sR), (Kr sR), (Kw sR), (maxTemp_afterRotation cfg sR), D2.
  cbn [day maxTemp rainFlips waterTankLevel].
  repeat split.
  destruct (dayAt 2 sB) as [d m f w a]. cbn [day maxTemp rainFlips waterTankLevel totalAdded] in *.
  subst. reflexivity.
Qed.
Lemma rotation_switch_off cfg (r : bool) (q : Q) (s : State) :
  getHour (time s) = 8 -> getMinute (time s) = 0 -> getSecond (time s) = 0 ->
  Automation.water (automation s) = false -> wateringLine s = -2 ->
  wateringLine (everySecond cfg r q s) = -2
  /\ totalAdded (dayAt 2 (everySecond cfg r q s)) = 0.
Proof.
  intros Hh Hm Hs Ha Hc. rewrite everySecond_split.
  assert (BA : automation (beforeRotation r q s) = automation s).
  { assert (K : keeps automation (beforeRotation r q))
      by (unfold beforeRotation; keeps_tac).
    apply K. }
  assert (BW : watering (beforeRotation r q s) = watering s).
  { assert (K : keeps watering (beforeRotation r q))
      by (unfold beforeRotation; keeps_tac).
    apply K. }
  assert (BT := time_beforeRotation r q s).
  assert (R := previousDays_dailyRotation (beforeRotation r q s)).
  rewrite BT in R. specialize (R Hh Hm Hs).
  assert (E : watering (dailyRotation (beforeRotation r q s)) = watering s).
  { unfold dailyRotation.
    rewrite when_true by (apply timeIs_true; rewrite BT; lia).
    rewrite andThen_apply, when_false; [exact BW|].
    change (automation (rotateDays (beforeRotation r q s)))
      with (automation (beforeRotation r q s)).
    rewrite BA. exact Ha. }
  generalize dependent (dailyRotation (beforeRotation r q s)). intros sR R E.
  unfold afterRotation. rewrite andThen_apply.
  rewrite wateringSequence_waits by (left; unfold wateringLine; rewrite E; fold (wateringLine s); lia).
  assert (K1 : keeps watering (fertiliseTrigger ;; fertilisePriming ;;
                 fertiliseSweep cfg ;; haxTimersLoop ;; endOfSecond)) by keeps_tac.
  assert (K2 : keeps (fun st => totalAdded (dayAt 2 st))
                 (fertiliseTrigger ;; fertilisePriming ;;
                  fertiliseSweep cfg ;; haxTimersLoop ;; endOfSecond))
    by (keeps_today totalAdded).
  split.
  - unfold wateringLine. rewrite (K1 sR), E. exact Hc.
  - rewrite (K2 sR). unfold dayAt at 1. rewrite R. reflexivity.
Qed.

Lemma today_everyPass inp (st : State) :
  wf st ->
  dayAt 2 (everyPass inp st)
  = mkDay (day (dayAt 2 st)) (maxTemp (dayAt 2 st))
      (rainFlips (dayAt 2 st)
       + (if rainRead inp && negb (rainSensorTripped st) then 1 else 0))
      (waterTankLevel (dayAt 2 st)) (totalAdded (dayAt 2 st)).
Proof.
  intros Hwf.
  assert (Kd : keeps (fun s => day (dayAt 2 s)) (everyPass inp)) by (keeps_today day).
  assert (Kw : keeps (fun s => waterTankLevel (dayAt 2 s)) (everyPass inp))
    by (keeps_today waterTankLevel).
  assert (Ka : keeps (fun s => totalAdded (dayAt 2 s)) (everyPass inp))
    by (keeps_today totalAdded).
  destruct (rain_everyPass inp st Hwf) as (F & _).
  specialize (Kd st). specialize (Kw st). specialize (Ka st).
  assert (Km := maxTemp_everyPass inp st). cbv beta in *.
  destruct (dayAt 2 (everyPass inp st)) as [d m f w a].
  cbn [day maxTemp rainFlips waterTankLevel totalAdded] in *. subst. reflexivity.
Qed.

Lemma olderDays_everyPass inp :
  keeps (dayAt 0) (everyPass inp) /\ keeps (dayAt 1) (everyPass inp).
Proof. split; keeps_yesterday. Qed.

(** X8.  In the pass of 08:00:00 the history moves on by one day, whether
    or not the watering switch is on: the record of yesterday becomes the
    record of two days ago (the oldest record is dropped); the record of
    the current day, with a rain event and a temperature reading of this
    very pass still counted in, becomes the record of yesterday; the new
    current day starts with the day of the week of the clock, no rain
    events, the temperature just read as its maximum and the tank reading
    carried over.  With the watering switch off and the sequence idle, the
    sequence stays idle and the new day's total of water is 0. *)
Theorem X8_daily_rotation_shifts_history (cfg : Settings) (inp : Inputs)
    (st : State) :
  wf st -> newSecond inp st -> atRotation inp ->
  dayAt 0 (loop cfg inp st) = dayAt 1 st
  /\ dayAt 1 (loop cfg inp st)
     = mkDay (day (dayAt 2 st))
         (if Qle_bool (tempRead inp) (maxTemp (dayAt 2 st))
          then maxTemp (dayAt 2 st) else tempRead inp)
         (rainFlips (dayAt 2 st)
          + (if rainRead inp && negb (rainSensorTripped st) then 1 else 0))
         (waterTankLevel (dayAt 2 st)) (totalAdded (dayAt 2 st))
  /\ day (dayAt 2 (loop cfg inp st)) = getWeekDay (rtcNow inp)
  /\ maxTemp (dayAt 2 (loop cfg inp st)) = tempRead inp
  /\ rainFlips (dayAt 2 (loop cfg inp st)) = 0
  /\ waterTankLevel (dayAt 2 (loop cfg inp st)) = waterTankLevel (dayAt 2 st)
  /\ (Automation.water (automation st) = false -> wateringLine st = -2 ->
      wateringLine (loop cfg inp st) = -2
      /\ totalAdded (dayAt 2 (loop cfg inp st)) = 0).
Proof.
  intros Hwf Hn (Hh & Hm & Hs).
  rewrite loop_newSecond by exact Hn.
  assert (T := time_everyPass inp st).
  assert (W := wf_everyPass inp st Hwf).
  assert (D2 := today_everyPass inp st Hwf).
  assert (D1 := proj2 (olderDays_everyPass inp) st).
  assert (A : automation (everyPass inp st) = automation st).
  { assert (K : keeps automation (everyPass inp)) by keeps_tac. apply K. }
  assert (C : wateringLine (everyPass inp st) = wateringLine st).
  { assert (K : keeps wateringLine (everyPass inp)) by keeps_tac. apply K. }
  generalize dependent (everyPass inp st). intros sP T W D2 D1 A C.
  destruct (rotation_everySecond cfg (rainRead inp) (tempRead inp) sP W)
    as (R0 & R1 & R2 & R3 & R4 & R5); try (rewrite T; assumption).
  rewrite R0, R1, R2, R3, R4, R5, D1, D2, T.
  cbn [day maxTemp rainFlips waterTankLevel totalAdded].
  repeat split.
  all: apply (rotation_switch_off cfg (rainRead inp) (tempRead inp) sP);
    rewrite ?T, ?A, ?C; assumption.
Qed.

Lemma X8_daily_rotation_shifts_history_witness :
  dayAt 0 (loop settings rotationPass beforeEight) = emptyDay
  /\ dayAt 1 (loop settings rotationPass beforeEight) = mkDay 2 (30 # 1) 6 0 0
  /\ rainFlips (dayAt 2 (loop settings rotationPass beforeEight)) = 0.
Proof.
  destruct (X8_daily_rotation_shifts_history settings rotationPass beforeEight)
    as (H0 & H1 & _ & _ & H4 & _).
  - vm_compute. repeat split.
  - vm_compute. discriminate.
  - vm_compute. repeat split.
  - split; [rewrite H0; reflexivity|]. split; [rewrite H1; reflexivity | exact H4].
Defined.
(** ** The menu: what it leaves alone *)

Ltac open_menu :=
  progress unfold menuNavigate, wrapLevel, fertOut, menuHaxTimer, menuFertilise,
    safeRelayWrite; cbv zeta.

Ltac keeps_menu :=
  lazymatch goal with
  | |- keeps _ (_ ;; _) => apply keeps_andThen; keeps_menu
  | |- keeps _ (when _ _) => apply keeps_when; keeps_menu
  | |- keeps _ (ifElse _ _ _) => apply keeps_ifElse; keeps_menu
  | |- keeps _ (reading _ _) => apply keeps_reading; intro; keeps_menu
  | |- keeps _ skip => apply keeps_skip
  | |- keeps _ _ => first [ open_menu; keeps_menu | intro; reflexivity ]
  end.

(** The screens, one by one. *)
Ltac screen_cases :=
  unfold menuScreen; cbv beta zeta;
  repeat match goal with
         | |- context [if menuMode ?s =? ?k then _ else _] =>
             destruct (Z.eqb_spec (menuMode s) k)
         | |- context [if menuActivate ?s then _ else _] =>
             destruct (menuActivate s) eqn:?
         end;
  cbn [core onCore eeprom menuJoystick].

(** [menu_frame proj]: the menu part of a pass leaves [proj] alone. *)
Ltac menu_frame proj :=
  unfold menuPass; cbv zeta; cbn [core];
  match goal with
  | |- proj ((?f ;; ?g) ?s) = _ =>
      let K := fresh in
      assert (K : keeps proj (f ;; g)) by keeps_menu; rewrite (K s); clear K
  end;
  match goal with
  | |- context [if ?c then _ else _] => destruct c
  end;
  [ screen_cases | ];
  cbn [core onCore];
  repeat match goal with
         | |- proj (?f ?s) = _ =>
             let K := fresh in
             assert (K : keeps proj f) by keeps_menu; rewrite (K s); clear K
         end;
  reflexivity.

Lemma tallies_menuPass js p (sk : Sketch) :
  Watering.tallies (watering (core (menuPass js p sk)))
  = Watering.tallies (watering (core sk)).
Proof.
  set (proj := fun st => Watering.tallies (watering st)).
  change (proj (core (menuPass js p sk)) = proj (core sk)).
  menu_frame proj.
Qed.
(** ** The tallies *)

Lemma core_onCore (f : Stmt) (sk : Sketch) : core (onCore f sk) = f (core sk).
Proof. reflexivity. Qed.

Lemma sketchRun_cons cfg js ip passes (sk : Sketch) :
  sketchRun cfg js (ip :: passes) sk
  = sketchRun cfg js passes (sketchLoop cfg js (fst ip) (snd ip) sk).
Proof. reflexivity. Qed.

Lemma tallies_loop cfg inp :
  keeps (fun st => Watering.tallies (watering st)) (loop cfg inp).
Proof. keeps_tac. Qed.

Lemma tallies_sketchRun cfg js passes :
  forall sk : Sketch,
    Watering.tallies (watering (core (sketchRun cfg js passes sk)))
    = Watering.tallies (watering (core sk)).
Proof.
  induction passes as [|ip passes IH]; intros sk; [reflexivity|].
  rewrite sketchRun_cons, IH. unfold sketchLoop.
  rewrite tallies_menuPass, core_onCore. apply tallies_loop.
Qed.

(** X9.  Nothing in [loop] writes to the tallies: over every run of the
    whole sketch they stay at the desired levels [setup] seeded them with.
    So the dose [calcWater] computes for a line comes from the desired
    level [D] of the line and the day record alone: it is
    [max(0, round(D - (D + deltaWater)))], every operation rounded to a
    [float], taken to 16 bits. *)
Theorem X9_tallies_never_change (cfg : Settings) (js : MenuJoystickSettings)
    (reset : bool) (e : EEPROM) (start : DateTime)
    (passes : list (Inputs * Panel)) (dayIx line : nat) :
  let st := core (sketchRun cfg js passes (sketchSetup cfg reset e start)) in
  let D := inject_Z (nth line (desiredLevels cfg) 0) in
  Watering.tallies (watering st) = map inject_Z (desiredLevels cfg)
  /\ calcWater cfg st dayIx line
     = to_uint (Z.max 0 (round (fsub D (fadd D (deltaWater cfg (dayAt dayIx st)))))).
Proof.
  cbv zeta.
  assert (T : Watering.tallies
                (watering (core (sketchRun cfg js passes
                                   (sketchSetup cfg reset e start))))
              = map inject_Z (desiredLevels cfg)).
  { rewrite tallies_sketchRun. reflexivity. }
  split; [exact T|].
  unfold calcWater, calcWaterLong. cbv zeta. rewrite T.
  assert (N : nth line (map inject_Z (desiredLevels cfg)) 0%Q
              = inject_Z (nth line (desiredLevels cfg) 0))
    by (change 0%Q with (inject_Z 0); apply map_nth).
  rewrite !N. f_equal.
  match goal with |- (if ?r <? 0 then 0 else ?r) = _ =>
    destruct (Z.ltb_spec r 0); lia end.
Qed.
(** ** The menu: moving through the modes *)

Lemma JSAxis_range js (x : Z) :
  JSAxis js x = -1 \/ JSAxis js x = 0 \/ JSAxis js x = 1.
Proof. unfold JSAxis. destruct (_ <? _); [auto|]. destruct (_ <? _); auto. Qed.

Lemma menuMode_menuScreen (sk : Sketch) :
  menuMode (core (menuScreen sk)) = menuMode (core sk).
Proof.
  screen_cases;
    repeat match goal with
           | |- menuMode (?f ?s) = _ =>
               let K := fresh in
               assert (K : keeps menuMode f) by keeps_menu; rewrite (K s); clear K
           end;
    reflexivity.
Qed.

Lemma menuMode_menuNavigate (x y : Z) (button : bool) (latch : MenuJoystick.t)
    (st : State) :
  0 <= menuMode st < mmc -> x = -1 \/ x = 0 \/ x = 1 ->
  menuMode (menuNavigate x y button latch st)
  = (if negb (x =? 0) && (MenuJoystick.x latch =? 0)
     then (menuMode st + x) mod mmc else menuMode st).
Proof.
  intros Hm Hx. unfold menuNavigate. rewrite andThen_apply.
  match goal with
  | |- menuMode (?f ?s) = _ =>
      let K := fresh in
      assert (K : keeps menuMode f) by keeps_menu; rewrite (K s); clear K
  end.
  unfold when at 1. destruct (negb (x =? 0) && (MenuJoystick.x latch =? 0)) eqn:E;
    [|reflexivity].
  assert (Hx' : x = -1 \/ x = 1).
  { apply andb_prop in E. destruct E as (E & _).
    destruct (Z.eqb_spec x 0); [discriminate | lia]. }
  rewrite !andThen_apply, reading_apply.
  match goal with
  | |- menuMode (set_menuLevel 0 ?s) = _ => change (menuMode (set_menuLevel 0 s)) with (menuMode s)
  end.
  unfold ifElse, when.
  change (menuMode (set_menuMode ?v ?s)) with v.
  change (menuMode (set_menuChanged true st)) with (menuMode st).
  unfold mmc, softwareConstants.modeCount, lineCount in *.
  destruct (Z.leb_spec (9 + 6) (menuMode st + x)).
  - change (menuMode (set_menuMode ?v ?s)) with v.
    assert (menuMode st + x = 15) by lia.
    replace (menuMode st + x) with 15 by lia. reflexivity.
  - destruct (Z.ltb_spec (menuMode st + x) 0).
    + change (menuMode (set_menuMode ?v ?s)) with v.
      replace (menuMode st + x) with (-1) by lia. reflexivity.
    + change (menuMode (set_menuMode ?v ?s)) with v.
      symmetry. apply Z.mod_small. lia.
Qed.

Lemma menuMode_menuPass (js : MenuJoystickSettings) (p : Panel) (sk : Sketch) :
  0 <= menuMode (core sk) < mmc ->
  menuMode (core (menuPass js p sk))
  = (if negb (JSAxis js (analogX p) =? 0)
        && (MenuJoystick.x (menuJoystick sk) =? 0)
     then (menuMode (core sk) + JSAxis js (analogX p)) mod mmc
     else menuMode (core sk)).
Proof.
  intros Hm.
  unfold menuPass. cbv zeta. cbn [core].
  match goal with
  | |- menuMode ((?f ;; ?g) ?s) = _ =>
      let K := fresh in
      assert (K : keeps menuMode (f ;; g)) by keeps_menu; rewrite (K s); clear K
  end.
  match goal with
  | |- context [if menuChanged ?c then _ else _] => destruct (menuChanged c)
  end; rewrite ?menuMode_menuScreen, core_onCore;
    apply menuMode_menuNavigate; auto using JSAxis_range.
Qed.

(** X10.  The joystick moves through the fifteen menu modes in a circle,
    one step for each push: a pass in which the x axis reads left or right
    after a pass in which it was at rest moves the mode by one, modulo 15;
    a pass in which the axis is at rest, or is still held to the side,
    leaves the mode where it is. *)
Theorem X10_menu_modes_in_a_circle (js : MenuJoystickSettings) (p : Panel)
    (sk : Sketch) :
  0 <= menuMode (core sk) < mmc ->
  menuMode (core (menuPass js p sk))
  = (if negb (JSAxis js (analogX p) =? 0)
        && (MenuJoystick.x (menuJoystick sk) =? 0)
     then (menuMode (core sk) + JSAxis js (analogX p)) mod mmc
     else menuMode (core sk))
  /\ MenuJoystick.x (menuJoystick (menuPass js p sk)) = JSAxis js (analogX p).
Proof.
  intros Hm. split; [apply menuMode_menuPass, Hm | reflexivity].
Qed.

Lemma X10_menu_modes_in_a_circle_witness :
  menuMode (core (menuPass menuJoystickSettings pushedLeft started)) = 14
  /\ menuMode (core (menuPass menuJoystickSettings pushedRight
                       (menuPass menuJoystickSettings atRest
                          (menuPass menuJoystickSettings pushedLeft started)))) = 0.
Proof.
  split.
  - destruct (X10_menu_modes_in_a_circle menuJoystickSettings pushedLeft started)
      as (H & _); [vm_compute; split; [discriminate | reflexivity]|].
    rewrite H. reflexivity.
  - reflexivity.
Defined.
(** ** The menu: nothing happens without a press of the button *)

Lemma set_menu_set_menu (m m' : Menu.t) (st : State) :
  set_menu m (set_menu m' st) = set_menu m st.
Proof. reflexivity. Qed.

Lemma menuOnly_andThen (f g : Stmt) : menuOnly f -> menuOnly g -> menuOnly (f ;; g).
Proof.
  intros Hf Hg st. unfold andThen. rewrite (Hg (f st)).
  rewrite (Hf st) at 2. reflexivity.
Qed.

Lemma menuOnly_skip : menuOnly skip.
Proof. intros st. destruct_state st. reflexivity. Qed.

Lemma menuOnly_when (c : State -> bool) (f : Stmt) : menuOnly f -> menuOnly (when c f).
Proof.
  intros Hf st. unfold when. destruct (c st); [apply Hf | apply menuOnly_skip].
Qed.

Lemma menuOnly_ifElse (c : State -> bool) (f g : Stmt) :
  menuOnly f -> menuOnly g -> menuOnly (ifElse c f g).
Proof. intros Hf Hg st. unfold ifElse. destruct (c st); [apply Hf | apply Hg]. Qed.

Lemma menuOnly_reading {B} (v : State -> B) (k : B -> Stmt) :
  (forall b, menuOnly (k b)) -> menuOnly (reading v k).
Proof. intros Hk st. apply Hk. Qed.

Lemma menuOnly_set_menu (m : State -> Menu.t) : menuOnly (fun st => set_menu (m st) st).
Proof. intros st. reflexivity. Qed.

Ltac menuOnly_tac :=
  lazymatch goal with
  | |- menuOnly (_ ;; _) => apply menuOnly_andThen; menuOnly_tac
  | |- menuOnly (when _ _) => apply menuOnly_when; menuOnly_tac
  | |- menuOnly (ifElse _ _ _) => apply menuOnly_ifElse; menuOnly_tac
  | |- menuOnly (reading _ _) => apply menuOnly_reading; intro; menuOnly_tac
  | |- menuOnly skip => apply menuOnly_skip
  | |- menuOnly (set_menuChanged _) => intro; reflexivity
  | |- menuOnly (set_menuMode _) => intro; reflexivity
  | |- menuOnly (set_menuLevel _) => intro; reflexivity
  | |- menuOnly (set_menuActivate _) => intro; reflexivity
  | |- menuOnly _ => progress unfold menuNavigate, wrapLevel; menuOnly_tac
  end.

Lemma menuOnly_menuNavigate x y button latch : menuOnly (menuNavigate x y button latch).
Proof. menuOnly_tac. Qed.

Lemma menuActivate_menuNavigate x y button latch (st : State) :
  (button && (x =? 0) && (y =? 0)) && negb (MenuJoystick.button latch) = false ->
  menuActivate (menuNavigate x y button latch st) = menuActivate st.
Proof.
  intros H. unfold menuNavigate. rewrite !andThen_apply.
  rewrite when_false by exact H.
  assert (K1 : keeps menuActivate
                 (when (fun _ : State => negb (y =? 0) && (MenuJoystick.y latch =? 0))
                    (set_menuChanged true ;;
                     reading menuLevel (fun l => set_menuLevel (l + y)))))
    by keeps_menu.
  rewrite K1.
  match goal with
  | |- menuActivate (?f ?s) = _ =>
      let K := fresh in
      assert (K : keeps menuActivate f) by keeps_menu; apply K
  end.
Qed.

(** With the activate flag down, the screen writes to the level only. *)
Lemma menuScreen_idle (sk : Sketch) :
  menuActivate (core sk) = false ->
  core (menuScreen sk) = set_menu (menu (core (menuScreen sk))) (core sk)
  /\ eeprom (menuScreen sk) = eeprom sk
  /\ menuActivate (core (menuScreen sk)) = false.
Proof.
  intros Ha.
  assert (W : forall top, menuOnly (wrapLevel top)) by (intro; menuOnly_tac).
  assert (Wa : forall top, keeps menuActivate (wrapLevel top)) by (intro; keeps_menu).
  screen_cases; try congruence;
    rewrite ?(when_false menuActivate) by assumption.
  - split; [apply W|]. split; [reflexivity | rewrite Wa; assumption].
  - split; [apply menuOnly_skip|]. split; [reflexivity | assumption].
  - split; [apply menuOnly_skip|]. split; [reflexivity | assumption].
  - split; [apply menuOnly_skip|]. split; [reflexivity | assumption].
  - split; [apply menuOnly_skip|]. split; [reflexivity | assumption].
  - split; [apply menuOnly_skip|]. split; [reflexivity | assumption].
  - split; [apply menuOnly_skip|]. split; [reflexivity | assumption].
  - split; [apply menuOnly_skip|]. split; [reflexivity | assumption].
  - rewrite andThen_apply.
    assert (A : menuActivate (when (fun s => menuLevel s <? 2) (set_menuLevel 2) (core sk))
                = false).
    { assert (K : keeps menuActivate (when (fun s => menuLevel s <? 2) (set_menuLevel 2)))
        by keeps_menu.
      rewrite K. assumption. }
    rewrite (when_false menuActivate) by exact A.
    split; [|split; [reflexivity | exact A]].
    assert (M : menuOnly (when (fun s => menuLevel s <? 2) (set_menuLevel 2)))
      by menuOnly_tac.
    apply M.
  - rewrite andThen_apply.
    assert (A : menuActivate (wrapLevel 5 (core sk)) = false)
      by (rewrite Wa; assumption).
    rewrite (when_false menuActivate) by exact A.
    split; [apply W|]. split; [reflexivity | exact A].
Qed.

(** X11.  Without a fresh press of the button the menu part of a pass
    changes nothing but the cells of the menu and the joystick latch: with
    the activate flag down, unless this pass reads the button pressed with
    both axes at rest after a pass that read it released, the engine state
    (sequences, timers, switches, relays, history) and the EEPROM are
    exactly what they were. *)
Theorem X11_no_press_no_command (js : MenuJoystickSettings) (p : Panel)
    (sk : Sketch) :
  menuActivate (core sk) = false ->
  ((analogButton p <? buttonSensitivity js)
   && (JSAxis js (analogX p) =? 0) && (JSAxis js (analogY p) =? 0))
  && negb (MenuJoystick.button (menuJoystick sk)) = false ->
  core (menuPass js p sk) = set_menu (menu (core (menuPass js p sk))) (core sk)
  /\ eeprom (menuPass js p sk) = eeprom sk.
Proof.
  intros Ha Hp. unfold menuPass. cbv zeta. cbn [core eeprom].
  set (nav := menuNavigate (JSAxis js (analogX p)) (JSAxis js (analogY p))
                (analogButton p <? buttonSensitivity js) (menuJoystick sk)).
  assert (N : menuOnly nav) by apply menuOnly_menuNavigate.
  assert (A : menuActivate (nav (core sk)) = false)
    by (unfold nav; rewrite menuActivate_menuNavigate by exact Hp; exact Ha).
  assert (F : menuOnly (reading menuActivate set_menuChanged ;; set_menuActivate false))
    by menuOnly_tac.
  clearbody nav.
  assert (S : core (if menuChanged (core (onCore nav sk))
                    then menuScreen (onCore nav sk) else onCore nav sk)
              = set_menu (menu (core (if menuChanged (core (onCore nav sk))
                                      then menuScreen (onCore nav sk)
                                      else onCore nav sk))) (core sk)
              /\ eeprom (if menuChanged (core (onCore nav sk))
                         then menuScreen (onCore nav sk) else onCore nav sk)
                 = eeprom sk).
  { destruct (menuChanged (core (onCore nav sk))).
    - destruct (menuScreen_idle (onCore nav sk) A) as (S1 & S2 & _).
      split; [|exact S2]. rewrite S1 at 1. rewrite core_onCore.
      rewrite (N (core sk)) at 1. reflexivity.
    - split; [|reflexivity]. rewrite core_onCore. apply N. }
  destruct S as (S1 & S2). split; [|exact S2].
  rewrite (F _) at 1. rewrite S1 at 2. reflexivity.
Qed.

Lemma X11_no_press_no_command_witness :
  core (menuPass menuJoystickSettings pushedUp started)
  = set_menu (menu (core (menuPass menuJoystickSettings pushedUp started)))
      (core started).
Proof.
  apply (X11_no_press_no_command menuJoystickSettings pushedUp started).
  - reflexivity.
  - reflexivity.
Defined.
(** ** What holds of the sketch after every pass *)

Lemma readSwitches_update (st : State) (e : EEPROM) :
  readSwitches (updatePersistentMemory st e) = automation st.
Proof.
  unfold readSwitches, updatePersistentMemory, getEEPROMBit, EEPROM_update.
  cbv zeta. rewrite Z.eqb_refl.
  destruct (automation st) as [[] [] []]; reflexivity.
Qed.

Ltac wf_menu_leaf :=
  let st := fresh "st" in
  intros st (?&?&?&?&?&?); unfold wf;
  unfold set_menuMode, set_menuLevel, set_menuActivate, set_water, set_fertilise,
    set_fertPump;
  unfold_setters; proj_simpl;
  cbn [HaxSolenoidOn.desiredState HaxSolenoidOn.oldState
       HaxTimers.haxTimerState HaxTimers.triggers HaxTimers.isOn];
  rewrite ?length_upd; repeat split; auto.

Ltac preserves_menu :=
  lazymatch goal with
  | |- preserves _ (_ ;; _) => apply preserves_andThen; preserves_menu
  | |- preserves _ (when _ _) => apply preserves_when; preserves_menu
  | |- preserves _ (ifElse _ _ _) => apply preserves_ifElse; preserves_menu
  | |- preserves _ (reading _ _) => apply preserves_reading; intro; preserves_menu
  | |- preserves _ skip => apply preserves_skip
  | |- preserves _ _ => first [ open_menu; preserves_menu | wf_menu_leaf ]
  end.

Lemma wf_menuNavigate x y button latch : preserves wf (menuNavigate x y button latch).
Proof. preserves_menu. Qed.

Lemma wf_menuHaxTimer hxs l : preserves wf (menuHaxTimer hxs l).
Proof. preserves_menu. Qed.

Lemma wf_menuScreen (sk : Sketch) : wf (core sk) -> wf (core (menuScreen sk)).
Proof.
  intros H. screen_cases; try exact H;
    match goal with
    | |- wf (?f ?s) =>
        let P := fresh in
        assert (P : preserves wf f) by preserves_menu; apply P; exact H
    end.
Qed.

Lemma wf_menuPass js p (sk : Sketch) : wf (core sk) -> wf (core (menuPass js p sk)).
Proof.
  intros H. unfold menuPass. cbv zeta. cbn [core].
  assert (P : preserves wf (reading menuActivate set_menuChanged ;;
                            set_menuActivate false)) by preserves_menu.
  apply P.
  assert (N : wf (core (onCore (menuNavigate (JSAxis js (analogX p))
                                  (JSAxis js (analogY p))
                                  (analogButton p <? buttonSensitivity js)
                                  (menuJoystick sk)) sk)))
    by (rewrite core_onCore; apply wf_menuNavigate, H).
  destruct (menuChanged _); [apply wf_menuScreen, N | exact N].
Qed.

Lemma timerModesValid_loop cfg inp (st : State) :
  wf st -> timerModesValid st -> timerModesValid (loop cfg inp st).
Proof.
  intros Hwf H i Hi. specialize (H i Hi).
  assert (E : timerMode i (loop cfg inp st) = timerMode i st
              \/ timerMode i (loop cfg inp st) = 0).
  { destruct (Z.eq_dec (getSecond (rtcNow inp)) (lastSecond st)) as [S|S].
    - left. assert (T := timerOf_loop_sameSecond cfg inp i st S).
      unfold timerOf in T. congruence.
    - assert (T := timerOf_loop cfg inp i st Hwf Hi S).
      unfold timerOf, timerStep in T.
      destruct ((1 <? timerMode i st) && _).
      + destruct ((timerMode i st =? 4) || _); [left | right]; congruence.
      + left. congruence. }
  destruct E as [E|E]; rewrite E; lia.
Qed.

Lemma timerMode_menuHaxTimer (hxs : nat) (l : Z) (i : nat) (st : State) :
  wf st -> (i < 6)%nat ->
  timerMode i (menuHaxTimer hxs l st) = if Nat.eqb i hxs then l else timerMode i st.
Proof.
  intros (_ & _ & H & _) Hi. unfold menuHaxTimer. cbv zeta. rewrite andThen_apply.
  match goal with
  | |- timerMode i (?f ?s) = _ =>
      let K := fresh in
      assert (K : keeps (timerMode i) f) by keeps_menu; rewrite (K s); clear K
  end.
  unfold timerMode, set_timerMode. cbn [haxTimers set_haxTimers HaxTimers.haxTimerState].
  destruct (Nat.eqb_spec i hxs) as [->|N].
  - apply nth_upd_same. lia.
  - apply nth_upd_other. auto.
Qed.

Lemma menuLevel_wrapLevel (top : Z) (st : State) :
  0 <= top -> 0 <= menuLevel (wrapLevel top st) <= top.
Proof.
  intros H. unfold wrapLevel, ifElse, when.
  destruct (Z.ltb_spec (menuLevel st) 0).
  - change (menuLevel (set_menuLevel top st)) with top. lia.
  - destruct (Z.ltb_spec top (menuLevel st)).
    + change (menuLevel (set_menuLevel 0 st)) with 0. lia.
    + lia.
Qed.

Lemma timerModesValid_menuScreen (sk : Sketch) :
  wf (core sk) -> timerModesValid (core sk) -> timerModesValid (core (menuScreen sk)).
Proof.
  intros Hwf H i Hi. specialize (H i Hi).
  screen_cases; try exact H;
    try (match goal with
         | |- _ <= timerMode i (?f ?s) <= _ =>
             let K := fresh in
             assert (K : keeps (timerMode i) f) by keeps_menu; rewrite (K s); exact H
         end).
  rewrite andThen_apply. unfold when.
  assert (Kw : keeps (timerMode i) (wrapLevel 5)) by keeps_menu.
  destruct (menuActivate (wrapLevel 5 (core sk))); [|rewrite Kw; exact H].
  rewrite reading_apply, timerMode_menuHaxTimer;
    [ | assert (P : preserves wf (wrapLevel 5)) by preserves_menu; apply P, Hwf
      | exact Hi ].
  destruct (Nat.eqb i _); [|rewrite Kw; exact H].
  apply menuLevel_wrapLevel. lia.
Qed.

Lemma timerModesValid_menuPass js p (sk : Sketch) :
  wf (core sk) -> timerModesValid (core sk) ->
  timerModesValid (core (menuPass js p sk)).
Proof.
  intros Hwf H. unfold menuPass. cbv zeta. cbn [core].
  set (nav := menuNavigate _ _ _ _).
  assert (N : timerModesValid (core (onCore nav sk))).
  { intros i Hi. rewrite core_onCore.
    assert (K : keeps (timerMode i) nav) by (unfold nav; keeps_menu).
    rewrite K. apply H, Hi. }
  assert (W : wf (core (onCore nav sk)))
    by (rewrite core_onCore; apply wf_menuNavigate, Hwf).
  clearbody nav.
  intros i Hi.
  match goal with
  | |- _ <= timerMode i ((?f ;; ?g) ?s) <= _ =>
      let K := fresh in
      assert (K : keeps (timerMode i) (f ;; g)) by keeps_menu; rewrite (K s); clear K
  end.
  destruct (menuChanged _); [apply timerModesValid_menuScreen; assumption | apply N, Hi].
Qed.

Lemma mirror_menuScreen (sk : Sketch) :
  readSwitches (eeprom sk) = automation (core sk) ->
  readSwitches (eeprom (menuScreen sk)) = automation (core (menuScreen sk)).
Proof.
  intros H. screen_cases; try exact H; try apply readSwitches_update;
    match goal with
    | |- _ = automation (?f ?s) =>
        let K := fresh in
        assert (K : keeps automation f) by keeps_menu; rewrite (K s); exact H
    end.
Qed.

Lemma mirror_menuPass js p (sk : Sketch) :
  readSwitches (eeprom sk) = automation (core sk) ->
  readSwitches (eeprom (menuPass js p sk)) = automation (core (menuPass js p sk)).
Proof.
  intros H. unfold menuPass. cbv zeta. cbn [core eeprom].
  set (nav := menuNavigate _ _ _ _).
  assert (N : readSwitches (eeprom (onCore nav sk)) = automation (core (onCore nav sk))).
  { rewrite core_onCore.
    assert (K : keeps automation nav) by (unfold nav; keeps_menu).
    rewrite K. exact H. }
  clearbody nav.
  match goal with
  | |- _ = automation ((?f ;; ?g) ?s) =>
      let K := fresh in
      assert (K : keeps automation (f ;; g)) by keeps_menu; rewrite (K s); clear K
  end.
  destruct (menuChanged _); [apply mirror_menuScreen, N | exact N].
Qed.

Lemma sketchInv_setup cfg reset e start : sketchInv (sketchSetup cfg reset e start).
Proof.
  unfold sketchInv, sketchSetup. cbv zeta. cbn [core eeprom].
  split; [apply wf_setup|]. split; [split; [discriminate | reflexivity]|].
  split; [reflexivity|]. split; [|reflexivity].
  intros i Hi. do 6 (destruct i as [|i]; [cbn; lia|]). lia.
Qed.

Lemma sketchInv_sketchLoop cfg js inp p (sk : Sketch) :
  sketchInv sk -> sketchInv (sketchLoop cfg js inp p sk).
Proof.
  intros (Hwf & Hm & Ha & Ht & He). unfold sketchLoop.
  assert (Hwf' : wf (core (onCore (loop cfg inp) sk)))
    by (rewrite core_onCore; apply wf_loop, Hwf).
  assert (Hm' : menuMode (core (onCore (loop cfg inp) sk)) = menuMode (core sk)).
  { rewrite core_onCore.
    assert (K : keeps menuMode (loop cfg inp)) by keeps_tac. apply K. }
  assert (Ht' : timerModesValid (core (onCore (loop cfg inp) sk)))
    by (rewrite core_onCore; apply timerModesValid_loop; assumption).
  assert (He' : readSwitches (eeprom (onCore (loop cfg inp) sk))
                = automation (core (onCore (loop cfg inp) sk))).
  { rewrite core_onCore.
    assert (K : keeps automation (loop cfg inp)) by keeps_tac.
    rewrite K. exact He. }
  generalize dependent (onCore (loop cfg inp) sk). intros sk' Hwf' Hm' Ht' He'.
  split; [apply wf_menuPass, Hwf'|]. split.
  { rewrite menuMode_menuPass by (rewrite Hm'; exact Hm).
    destruct (_ && _); [|rewrite Hm'; exact Hm].
    apply Z.mod_pos_bound. reflexivity. }
  split; [reflexivity|].
  split; [apply timerModesValid_menuPass; assumption | apply mirror_menuPass, He'].
Qed.

Lemma sketchInv_sketchRun cfg js passes :
  forall sk, sketchInv sk -> sketchInv (sketchRun cfg js passes sk).
Proof.
  induction passes as [|ip passes IH]; intros sk H; [exact H|].
  rewrite sketchRun_cons. apply IH, sketchInv_sketchLoop, H.
Qed.

(** X12.  After every pass of every run of the whole sketch from [setup]
    the menu mode is one of the fifteen modes, so the line index
    [mode - modeCount] of a hack timer screen is one of the six lines;
    every array of the state still has its six (or three) cells; and every
    hack timer holds one of the modes 0 to 5. *)
Theorem X12_indices_stay_in_range (cfg : Settings) (js : MenuJoystickSettings)
    (reset : bool) (e : EEPROM) (start : DateTime)
    (passes : list (Inputs * Panel)) :
  let st := core (sketchRun cfg js passes (sketchSetup cfg reset e start)) in
  0 <= menuMode st < softwareConstants.modeCount + 6
  /\ (softwareConstants.modeCount <= menuMode st ->
      (Z.to_nat (menuMode st - softwareConstants.modeCount) < 6)%nat)
  /\ wf st
  /\ (forall i, (i < 6)%nat -> 0 <= timerMode i st <= 5).
Proof.
  cbv zeta.
  destruct (sketchInv_sketchRun cfg js passes _ (sketchInv_setup cfg reset e start))
    as (Hwf & Hm & _ & Ht & _).
  unfold mmc, lineCount in Hm.
  split; [exact Hm|]. split; [|split; [exact Hwf | exact Ht]].
  unfold softwareConstants.modeCount in *. lia.
Qed.

(** X13.  The EEPROM always mirrors the automation switches: after every
    pass of every run of the whole sketch from [setup], a restart (a
    [setup] that reads the EEPROM as the run left it) comes up with the
    three switches as they are now. *)
Theorem X13_switches_survive_restart (cfg : Settings) (js : MenuJoystickSettings)
    (reset : bool) (e : EEPROM) (start restart : DateTime)
    (passes : list (Inputs * Panel)) :
  let sk := sketchRun cfg js passes (sketchSetup cfg reset e start) in
  automation (core (sketchSetup cfg false (eeprom sk) restart)) = automation (core sk).
Proof.
  cbv zeta.
  destruct (sketchInv_sketchRun cfg js passes _ (sketchInv_setup cfg reset e start))
    as (_ & _ & _ & _ & He).
  exact He.
Qed.
(** ** A hack timer set from the menu *)

Lemma menuHaxTimer_arms (i : nat) (level : Z) (st : State) :
  wf st -> (i < 6)%nat -> 2 <= level <= 5 ->
  timerOf i (menuHaxTimer i level st) = (level, now st + timerSpan level, true)
  /\ desired i (menuHaxTimer i level st) = true
  /\ wf (menuHaxTimer i level st)
  /\ lastSecond (menuHaxTimer i level st) = lastSecond st.
Proof.
  intros Hwf Hi Hl.
  assert (E : menuHaxTimer i level st
              = haxSolenoidSet (Z.of_nat i) true
                  (set_isOn i true
                     (set_trigger i (now st + timerSpan level)
                        (set_timerMode i level st)))).
  { unfold menuHaxTimer, timerSpan. cbv zeta. rewrite andThen_apply.
    rewrite ifElse_false by (apply Z.eqb_neq; lia).
    rewrite ifElse_false by (apply Z.eqb_neq; lia).
    unfold ifElse, when.
    destruct ((level =? 2) || (level =? 4)) eqn:E1; [reflexivity|].
    replace ((level =? 3) || (level =? 5)) with true; [reflexivity|].
    symmetry. apply orb_false_iff in E1. destruct E1 as (E1 & E2).
    apply Z.eqb_neq in E1, E2. apply orb_true_iff.
    destruct (Z.eqb_spec level 3); [auto|]. right. apply Z.eqb_eq. lia. }
  rewrite E. clear E.
  assert (M : preserves wf (set_timerMode i level)) by preserves_wf.
  assert (W1 := M st Hwf).
  assert (W2 := wf_set_trigger i (now st + timerSpan level) _ W1).
  assert (W3 := wf_set_isOn i true _ W2).
  split; [|split; [|split]].
  - rewrite (timerOf_frame i (set_isOn i true
                (set_trigger i (now st + timerSpan level) (set_timerMode i level st))))
      by reflexivity.
    rewrite timerOf_set_isOn by assumption.
    destruct (timerOf_cells i _ _ _ _
                (timerOf_set_trigger i (now st + timerSpan level) _ W1 Hi))
      as (A & B & _).
    rewrite A, B.
    destruct (timerOf_cells i _ _ _ _ (timerOf_set_timerMode i level st Hwf Hi))
      as (A' & _).
    rewrite A'. reflexivity.
  - rewrite desired_haxSolenoidSet by (rewrite ?Nat2Z.id; assumption).
    rewrite Nat2Z.id, Nat.eqb_refl. reflexivity.
  - apply wf_haxSolenoidSet, W3.
  - reflexivity.
Qed.

(** X14.  A timed mode chosen for a line in the hack timer menu (2 or 4:
    ten minutes, 3 or 5: twenty) asks the line to open at once and arms its
    timer for [now + span]; over the passes of the next [span - 1] seconds
    the timer waits; the pass at [now + span] asks the line to close, and
    leaves a one-shot mode (2, 3) off and a weekly mode (4, 5) armed for one
    week after the command. *)
Theorem X14_menu_timer_runs_its_span (cfg : Settings) (i : nat) (level : Z)
    (inps : list Inputs) (inp : Inputs) (st : State) :
  wf st -> (i < 6)%nat -> 2 <= level <= 5 ->
  oncePerSecond (lastSecond st) (now st + 1) (inps ++ [inp]) ->
  Z.of_nat (length inps) = timerSpan level - 1 ->
  let armed := menuHaxTimer i level st in
  timerOf i armed = (level, now st + timerSpan level, true)
  /\ desired i armed = true
  /\ timerOf i (runLoop cfg inps armed) = (level, now st + timerSpan level, true)
  /\ timerOf i (runLoop cfg (inps ++ [inp]) armed)
     = (if level <=? 3 then (0, 0, false) else (level, now st + 604800, false))
  /\ desired i (runLoop cfg (inps ++ [inp]) armed) = false.
Proof.
  intros Hwf Hi Hl Ho Hn armed.
  destruct (menuHaxTimer_arms i level st Hwf Hi Hl) as (T & D & W & L).
  fold armed in T, D, W, L.
  rewrite <- L in Ho. clearbody armed.
  apply (oncePerSecond_split cfg) in Ho. destruct Ho as (Ho1 & Ho2).
  cbn [oncePerSecond] in Ho2. destruct Ho2 as (N1 & N2 & _).
  assert (Q : timerOf i (runLoop cfg inps armed)
              = (level, now st + timerSpan level, true)).
  { apply (timer_quiet_run cfg i inps armed (now st + 1)); auto. lia. }
  assert (Wq := wf_runLoop cfg inps armed W).
  destruct (timerOf_cells i _ _ _ _ Q) as (Qm & Qt & Qo).
  split; [exact T|]. split; [exact D|]. split; [exact Q|].
  rewrite runLoop_app. change (runLoop cfg [inp] ?s) with (loop cfg inp s).
  split.
  - rewrite timerOf_loop by assumption. rewrite Q, N2.
    replace (now st + 1 + Z.of_nat (length inps)) with (now st + timerSpan level) by lia.
    clear Qm Qt Qo. unfold timerStep, timerSpan.
    replace (1 <? level) with true by (symmetry; apply Z.ltb_lt; lia).
    rewrite Z.eqb_refl. cbn [andb negb].
    destruct (Z.eqb_spec level 2) as [->|]; [reflexivity|].
    destruct (Z.eqb_spec level 3) as [->|]; [reflexivity|].
    destruct (Z.eqb_spec level 4) as [->|]; [cbn; f_equal; f_equal; lia|].
    assert (level = 5) by lia. subst level. cbn. f_equal. f_equal. lia.
  - rewrite desired_loop_fires; try assumption.
    + rewrite Qo. reflexivity.
    + rewrite Qm. lia.
    + rewrite Qt, N2. lia.
Qed.

Lemma X14_menu_timer_runs_its_span_witness :
  timerOf 0 (runLoop settings
               (quietSeconds 599 (mkDateTime 2 12 0 1 1000001)
                ++ [tenMinutesLater]) oneShotArmed) = (0, 0, false)
  /\ desired 0 (runLoop settings
                  (quietSeconds 599 (mkDateTime 2 12 0 1 1000001)
                   ++ [tenMinutesLater]) oneShotArmed) = false.
Proof.
  destruct (X14_menu_timer_runs_its_span settings 0 2
              (quietSeconds 599 (mkDateTime 2 12 0 1 1000001)) tenMinutesLater booted)
    as (_ & _ & _ & H1 & H2).
  - vm_compute. repeat split.
  - lia.
  - lia.
  - vm_compute. repeat split; discriminate.
  - vm_compute. reflexivity.
  - split; [exact H1 | exact H2].
Defined.
(** ** The display *)

Lemma to_int_small (z : Z) : -32768 <= z < 32768 -> to_int z = z.
Proof. intros H. unfold to_int. rewrite Z.mod_small by lia. lia. Qed.

Lemma fmul_mono_l (c x y : Q) : (0 <= c)%Q -> (x <= y)%Q -> (fmul c x <= fmul c y)%Q.
Proof.
  intros Hc H. unfold fmul. apply fl_mono.
  rewrite !(Qmult_comm c). apply Qmult_le_compat_r; assumption.
Qed.

Lemma fmul_mono_r (c x y : Q) : (0 <= c)%Q -> (x <= y)%Q -> (fmul x c <= fmul y c)%Q.
Proof.
  intros Hc H. unfold fmul. apply fl_mono. apply Qmult_le_compat_r; assumption.
Qed.

Lemma fdiv_mono (c x y : Q) : (0 < c)%Q -> (x <= y)%Q -> (fdiv x c <= fdiv y c)%Q.
Proof.
  intros Hc H. unfold fdiv. apply fl_mono. unfold Qdiv.
  apply Qmult_le_compat_r; [exact H|].
  apply Qlt_le_weak, Qinv_lt_0_compat, Hc.
Qed.

Lemma fadd_mono (x y x' y' : Q) :
  (x <= x')%Q -> (y <= y')%Q -> (fadd x y <= fadd x' y')%Q.
Proof. intros H1 H2. unfold fadd. apply fl_mono. lra. Qed.

Lemma fsub_mono (x y x' y' : Q) :
  (x <= x')%Q -> (y' <= y)%Q -> (fsub x y <= fsub x' y')%Q.
Proof. intros H1 H2. unfold fsub. apply fl_mono. lra. Qed.

Lemma tankRound_mono (t1 t2 : Z) : t1 <= t2 -> tankRound t1 <= tankRound t2.
Proof.
  intros H. unfold tankRound. apply round_mono.
  apply fdiv_mono; [vm_compute; reflexivity|].
  apply fmul_mono_l; [vm_compute; discriminate|].
  apply fl_mono. rewrite <- Zle_Qle. exact H.
Qed.

(** X16.  The tank level shown on the display is [100 - round(1.715 * time
    / 100)] percent for an echo of [time] microseconds, computed in
    [float] arithmetic, with no clamping: it is 100 for an echo of length
    0, it never goes up when the echo gets longer, it is a percentage
    between 0 and 100 for echoes of up to 5860 microseconds, and it is
    negative for the longer ones; for an echo of 46793 microseconds, where
    the exact quotient is 802.49995, the rounded [float] quotient is 803
    and the level shown is -703. *)
Theorem X16_tank_level_percent (t1 t2 : Z) :
  0 <= t1 <= t2 -> t2 <= 1000000 ->
  Display.waterTankLevel t2 <= Display.waterTankLevel t1 <= 100
  /\ (t1 <= 5860 -> 0 <= Display.waterTankLevel t1)
  /\ (5860 < t1 -> Display.waterTankLevel t1 < 0)
  /\ Display.waterTankLevel 0 = 100
  /\ Display.waterTankLevel 46793 = -703.
Proof.
  intros H1 H2.
  assert (E : forall t, Display.waterTankLevel t = to_int (100 - tankRound t))
    by reflexivity.
  assert (L46793 : Display.waterTankLevel 46793 = -703) by (vm_compute; reflexivity).
  rewrite !E.
  assert (R0 := tankRound_mono 0 t1 ltac:(lia)).
  assert (R12 := tankRound_mono t1 t2 ltac:(lia)).
  assert (Rmax := tankRound_mono t2 1000000 ltac:(lia)).
  assert (R5860 : t1 <= 5860 -> _) by (intros L; exact (tankRound_mono t1 5860 L)).
  assert (R5861 : 5861 <= t1 -> _) by (intros L; exact (tankRound_mono 5861 t1 L)).
  assert (V0 : tankRound 0 = 0) by (vm_compute; reflexivity).
  assert (V1 : tankRound 1000000 = 17150) by (vm_compute; reflexivity).
  assert (V2 : tankRound 5860 = 100) by (vm_compute; reflexivity).
  assert (V3 : tankRound 5861 = 101) by (vm_compute; reflexivity).
  rewrite V0 in *. rewrite V1 in Rmax. rewrite V2 in R5860. rewrite V3 in R5861.
  rewrite !to_int_small by lia.
  repeat match goal with |- _ /\ _ => split end; try lia; try (intros; lia).
  exact L46793.
Qed.

Lemma X16_tank_level_percent_witness :
  Display.waterTankLevel 3000 <= Display.waterTankLevel 1000 <= 100.
Proof.
  apply (X16_tank_level_percent 1000 3000); lia.
Defined.

(** ** The dose and the rain *)

Lemma rain_term_mono cfg (f1 f2 : Z) :
  f1 <= f2 ->
  ((if negb (Qle_bool (inject_Z f1) (maxRain cfg)) then maxRain cfg else inject_Z f1)
   <= (if negb (Qle_bool (inject_Z f2) (maxRain cfg)) then maxRain cfg else inject_Z f2))%Q.
Proof.
  intros H. rewrite !min_macro. apply Q.min_le_compat_l.
  rewrite <- Zle_Qle. exact H.
Qed.

Lemma rain_term_cap cfg (f : Z) :
  (maxRain cfg <= inject_Z f)%Q ->
  ((if negb (Qle_bool (inject_Z f) (maxRain cfg)) then maxRain cfg else inject_Z f)
   == maxRain cfg)%Q.
Proof. intros H. rewrite min_macro. apply Q.min_l, H. Qed.

Lemma deltaWater_rain_mono cfg (d1 d2 : Day) :
  (0 <= rainCoeff cfg)%Q -> maxTemp d1 = maxTemp d2 ->
  rainFlips d1 <= rainFlips d2 ->
  (deltaWater cfg d1 <= deltaWater cfg d2)%Q.
Proof.
  intros Hc Hm Hr. unfold deltaWater. rewrite Hm.
  apply fadd_mono; [|apply Qle_refl].
  apply fmul_mono_r; [exact Hc | apply rain_term_mono, Hr].
Qed.

Lemma deltaWater_rain_cap cfg (d1 d2 : Day) :
  maxTemp d1 = maxTemp d2 ->
  (maxRain cfg <= inject_Z (rainFlips d1))%Q ->
  (maxRain cfg <= inject_Z (rainFlips d2))%Q ->
  deltaWater cfg d2 = deltaWater cfg d1.
Proof.
  intros Hm H1 H2. unfold deltaWater, fadd. rewrite Hm. apply fl_eq.
  apply Qplus_inj_r. unfold fmul.
  rewrite (rain_term_cap cfg _ H1), (rain_term_cap cfg _ H2). reflexivity.
Qed.

Lemma calcWaterLong_rain_mono cfg (st1 st2 : State) (dayIx line : nat) :
  (0 <= rainCoeff cfg)%Q ->
  nth line (Watering.tallies (watering st2)) 0%Q
  = nth line (Watering.tallies (watering st1)) 0%Q ->
  maxTemp (dayAt dayIx st1) = maxTemp (dayAt dayIx st2) ->
  rainFlips (dayAt dayIx st1) <= rainFlips (dayAt dayIx st2) ->
  calcWaterLong cfg st2 dayIx line <= calcWaterLong cfg st1 dayIx line.
Proof.
  intros Hc Ht Hm Hr. unfold calcWaterLong. cbv zeta. rewrite Ht.
  assert (M : round (fsub (inject_Z (nth line (desiredLevels cfg) 0))
                       (fadd (nth line (Watering.tallies (watering st1)) 0%Q)
                          (deltaWater cfg (dayAt dayIx st2))))
              <= round (fsub (inject_Z (nth line (desiredLevels cfg) 0))
                          (fadd (nth line (Watering.tallies (watering st1)) 0%Q)
                             (deltaWater cfg (dayAt dayIx st1))))).
  { apply round_mono. apply fsub_mono; [apply Qle_refl|].
    apply fadd_mono; [apply Qle_refl|].
    apply deltaWater_rain_mono; assumption. }
  repeat match goal with |- context [?r <? 0] => destruct (Z.ltb_spec r 0) end; lia.
Qed.

(** X19.  Rain never adds water.  For a rain coefficient that is not
    negative, of two day records with the same maximum temperature the one
    with more rain events gives the smaller (or the same) dose, as long as
    the larger of the two doses, as [calcWater] computes it in [float]
    arithmetic before the conversion to [unsigned int], fits the 16 bits
    of the result; and rain events beyond [maxRain] change nothing: two
    records with at least [maxRain] rain events give the same dose. *)
Theorem X19_rain_never_adds_water (cfg : Settings) (st1 st2 : State)
    (dayIx line : nat) :
  (0 <= rainCoeff cfg)%Q ->
  nth line (Watering.tallies (watering st2)) 0%Q
  = nth line (Watering.tallies (watering st1)) 0%Q ->
  maxTemp (dayAt dayIx st1) = maxTemp (dayAt dayIx st2) ->
  rainFlips (dayAt dayIx st1) <= rainFlips (dayAt dayIx st2) ->
  (calcWaterLong cfg st1 dayIx line < 65536 ->
   calcWater cfg st2 dayIx line <= calcWater cfg st1 dayIx line)
  /\ ((maxRain cfg <= inject_Z (rainFlips (dayAt dayIx st1)))%Q ->
      calcWater cfg st2 dayIx line = calcWater cfg st1 dayIx line).
Proof.
  intros Hc Ht Hm Hr. split.
  - intros Hb.
    assert (M := calcWaterLong_rain_mono cfg st1 st2 dayIx line Hc Ht Hm Hr).
    assert (P1 := calcWaterLong_nonneg cfg st1 dayIx line).
    assert (P2 := calcWaterLong_nonneg cfg st2 dayIx line).
    unfold calcWater, to_uint. rewrite !Z.mod_small by lia. exact M.
  - intros H1. unfold calcWater, calcWaterLong. cbv zeta. rewrite Ht.
    rewrite (deltaWater_rain_cap cfg (dayAt dayIx st1) (dayAt dayIx st2) Hm H1).
    + reflexivity.
    + apply Qle_trans with (inject_Z (rainFlips (dayAt dayIx st1))); [exact H1|].
      rewrite <- Zle_Qle. exact Hr.
Qed.

Lemma X19_rain_never_adds_water_witness :
  calcWater settings afterDownpour 1 0 <= calcWater settings afterShowers 1 0.
Proof.
  destruct (X19_rain_never_adds_water settings afterShowers afterDownpour 1 0)
    as (H & _).
  - vm_compute. discriminate.
  - reflexivity.
  - reflexivity.
  - vm_compute. discriminate.
  - apply H. vm_compute. reflexivity.
Defined.

(** ** Passes within one second *)

Lemma sameSecond_run {A} (proj : State -> A) cfg :
  (forall inp, keeps proj (everyPass inp)) ->
  forall (rest : list Inputs) (s : State),
    Forall (fun i => getSecond (rtcNow i) = lastSecond s) rest ->
    proj (runLoop cfg rest s) = proj s /\ lastSecond (runLoop cfg rest s) = lastSecond s.
Proof.
  intros K. induction rest as [|inp rest IH]; intros s H; [split; reflexivity|].
  apply Forall_cons_iff in H. destruct H as (H1 & H2).
  rewrite runLoop_cons.
  assert (L : lastSecond (loop cfg inp s) = lastSecond s)
    by (rewrite lastSecond_loop; exact H1).
  destruct (IH (loop cfg inp s)) as (P1 & P2); [rewrite L; exact H2|].
  rewrite P1, P2, L. split; [|reflexivity].
  rewrite loop_sameSecond by exact H1. apply K.
Qed.

(** X18.  A second is serviced once.  Passes of [loop] that show the same
    second as the pass before them run none of the timed procedures: over
    any number of such passes no relay is written, the cooldown counter is
    not counted down, and the two sequences, the hack timers and the
    records of the days before today stay exactly as the first pass of the
    second left them. *)
Theorem X18_a_second_is_serviced_once (cfg : Settings) (inp : Inputs)
    (rest : list Inputs) (st : State) :
  Forall (fun i => getSecond (rtcNow i) = getSecond (rtcNow inp)) rest ->
  let once := loop cfg inp st in
  let many := runLoop cfg (inp :: rest) st in
  relayLog many = relayLog once
  /\ noPinInterrupts many = noPinInterrupts once
  /\ watering many = watering once
  /\ fertilising many = fertilising once
  /\ haxTimers many = haxTimers once
  /\ dayAt 0 many = dayAt 0 once
  /\ dayAt 1 many = dayAt 1 once.
Proof.
  intros H once many. subst many. rewrite runLoop_cons. fold once.
  assert (L : lastSecond once = getSecond (rtcNow inp)) by apply lastSecond_loop.
  rewrite <- L in H. clearbody once.
  repeat split.
  - apply (sameSecond_run relayLog cfg relayLog_everyPass rest once H).
  - apply (sameSecond_run noPinInterrupts cfg noPinInterrupts_everyPass rest once H).
  - apply (sameSecond_run watering cfg); [intro; keeps_tac | exact H].
  - apply (sameSecond_run fertilising cfg); [intro; keeps_tac | exact H].
  - apply (sameSecond_run haxTimers cfg); [intro; keeps_tac | exact H].
  - apply (sameSecond_run (dayAt 0) cfg); [intro; keeps_yesterday | exact H].
  - apply (sameSecond_run (dayAt 1) cfg); [intro; keeps_yesterday | exact H].
Qed.

Lemma X18_a_second_is_serviced_once_witness :
  relayLog (runLoop settings (tenPastSeven :: busySecond) beforeTenPast)
  = [(pins.pump, HIGH)].
Proof.
  destruct (X18_a_second_is_serviced_once settings tenPastSeven busySecond
              beforeTenPast) as (H & _).
  - repeat (apply Forall_cons; [reflexivity|]). apply Forall_nil.
  - rewrite H. reflexivity.
Defined.
(** ** The water added in a day *)

Lemma total_wateringSequence cfg (s : State) :
  wf s ->
  totalAdded (dayAt 2 (wateringSequence cfg s))
  = if (-1 <=? wateringLine s) && (Watering.finishTime (watering s) <=? now s)
       && negb (lineCount <=? wateringLine s + 1)
    then to_uint (totalAdded (dayAt 2 s)
                  + calcWater cfg s 1 (Z.to_nat (wateringLine s + 1)))
    else totalAdded (dayAt 2 s).
Proof.
  intros Hwf.
  destruct (Z.leb_spec (-1) (wateringLine s)) as [H1|H1]; cbn [andb].
  2:{ rewrite wateringSequence_waits by lia. reflexivity. }
  destruct (Z.leb_spec (Watering.finishTime (watering s)) (now s)) as [H2|H2];
    cbn [andb].
  2:{ rewrite wateringSequence_waits by lia. reflexivity. }
  rewrite wateringSequence_moves by assumption. cbv zeta.
  set (closed := if 0 <=? wateringLine s
                 then haxSolenoidSet (wateringLine s) false s else s).
  assert (Wc : wf closed)
    by (unfold closed; destruct (0 <=? wateringLine s);
        [apply wf_haxSolenoidSet, Hwf | exact Hwf]).
  assert (Dc : dayAt 2 closed = dayAt 2 s)
    by (unfold closed; destruct (0 <=? wateringLine s); reflexivity).
  clearbody closed.
  destruct (lineCount <=? wateringLine s + 1); cbn [negb].
  - change (dayAt 2 (set_wateringFinish 0 (set_wateringLine (-2) closed)))
      with (dayAt 2 closed).
    rewrite Dc. reflexivity.
  - assert (Ws : wf (set_wateringLine (wateringLine s + 1) closed)).
    { assert (P : preserves wf (set_wateringLine (wateringLine s + 1))) by preserves_wf.
      apply P, Wc. }
    assert (E : forall v, totalAdded (dayAt 2 (set_todayTotalAdded v
                            (set_wateringLine (wateringLine s + 1) closed))) = v).
    { intros v. unfold set_todayTotalAdded. rewrite today_set by exact Ws. reflexivity. }
    destruct (_ <=? calcWater cfg s 1 _).
    + match goal with
      | |- totalAdded (dayAt 2 (haxSolenoidSet _ _ (set_wateringFinish _ ?x))) = _ =>
          change (totalAdded (dayAt 2 x) = to_uint
                    (totalAdded (dayAt 2 s)
                     + calcWater cfg s 1 (Z.to_nat (wateringLine s + 1))))
      end.
      apply E.
    + apply E.
Qed.

Lemma total_afterRotation cfg (s : State) :
  wf s ->
  totalAdded (dayAt 2 (afterRotation cfg s))
  = totalAdded (dayAt 2 (wateringSequence cfg s)).
Proof.
  intros _. unfold afterRotation. rewrite andThen_apply.
  assert (K : keeps (fun st => totalAdded (dayAt 2 st))
                (fertiliseTrigger ;; fertilisePriming ;;
                 fertiliseSweep cfg ;; haxTimersLoop ;; endOfSecond))
    by (keeps_today totalAdded).
  apply K.
Qed.

(** What a pass on a new second, not the one of the daily rotation, does
    to the total of the day. *)
Lemma total_loop cfg inp (st : State) :
  wf st -> newSecond inp st -> noRotation inp ->
  totalAdded (dayAt 2 (loop cfg inp st))
  = if (-1 <=? wateringLine st)
       && (Watering.finishTime (watering st) <=? getUnixTime (rtcNow inp))
       && negb (lineCount <=? wateringLine st + 1)
    then to_uint (totalAdded (dayAt 2 st)
                  + calcWater cfg st 1 (Z.to_nat (wateringLine st + 1)))
    else totalAdded (dayAt 2 st).
Proof.
  intros Hwf Hn Hr. rewrite loop_newSecond by exact Hn.
  rewrite everySecond_noRotation by (rewrite time_everyPass; exact Hr).
  assert (Kb : forall {A} (proj : State -> A),
            keeps proj (everyPass inp) ->
            keeps proj (beforeRotation (rainRead inp) (tempRead inp)) ->
            proj (beforeRotation (rainRead inp) (tempRead inp) (everyPass inp st))
            = proj st)
    by (intros A proj K1 K2; rewrite K2; apply K1).
  assert (W : wf (beforeRotation (rainRead inp) (tempRead inp) (everyPass inp st)))
    by (apply wf_beforeRotation, wf_everyPass, Hwf).
  assert (Dw : watering (beforeRotation (rainRead inp) (tempRead inp) (everyPass inp st))
               = watering st)
    by (apply Kb; [keeps_tac | unfold beforeRotation; keeps_tac]).
  assert (Dt : totalAdded (dayAt 2 (beforeRotation (rainRead inp) (tempRead inp)
                                      (everyPass inp st)))
               = totalAdded (dayAt 2 st))
    by (apply (Kb _ (fun s => totalAdded (dayAt 2 s)));
        [keeps_today totalAdded | unfold beforeRotation; keeps_today totalAdded]).
  assert (Dy : dayAt 1 (beforeRotation (rainRead inp) (tempRead inp) (everyPass inp st))
               = dayAt 1 st).
  { rewrite (proj2 (olderDays_beforeRotation _ _)). apply olderDays_everyPass. }
  assert (Dn : now (beforeRotation (rainRead inp) (tempRead inp) (everyPass inp st))
               = getUnixTime (rtcNow inp))
    by (unfold now; rewrite time_beforeRotation, time_everyPass; reflexivity).
  clear Kb.
  generalize dependent (beforeRotation (rainRead inp) (tempRead inp) (everyPass inp st)).
  intros sB W Dw Dt Dy Dn.
  rewrite total_afterRotation, total_wateringSequence by exact W.
  unfold wateringLine. rewrite Dw, Dt, Dn.
  rewrite (calcWater_frame cfg st sB) by (rewrite ?Dw; auto).
  reflexivity.
Qed.

Lemma addDoses_ext cfg (st st' : State) (ls : list nat) :
  (forall i, calcWater cfg st' 1 i = calcWater cfg st 1 i) ->
  forall total, addDoses cfg st' ls total = addDoses cfg st ls total.
Proof.
  intros H. unfold addDoses. induction ls as [|j ls IH]; intros total; [reflexivity|].
  cbn [fold_left]. rewrite H. apply IH.
Qed.

Lemma total_idle_run cfg (inps : list Inputs) :
  forall (st : State) (t : Z),
    wf st -> wateringLine st = -2 ->
    oncePerSecond (lastSecond st) t inps -> Forall noRotation inps ->
    totalAdded (dayAt 2 (runLoop cfg inps st)) = totalAdded (dayAt 2 st).
Proof.
  induction inps as [|inp inps IH]; intros st t Hwf Hc Ho Hr; [reflexivity|].
  cbn [oncePerSecond] in Ho. destruct Ho as (H1 & H2 & H3).
  apply Forall_cons_iff in Hr. destruct Hr as (R1 & R2).
  destruct (watering_loop cfg inp st H1 R1) as (V & _).
  assert (T := total_loop cfg inp st Hwf H1 R1).
  unfold wateringView in V. rewrite Hc in V, T. unfold wateringStep in V.
  change (-1 <=? -2) with false in V, T. cbn [andb] in V, T.
  rewrite runLoop_cons, (IH _ (t + 1)).
  - exact T.
  - apply wf_loop, Hwf.
  - injection V. auto.
  - rewrite lastSecond_loop. exact H3.
  - exact R2.
Qed.

(** A run that takes the watering sequence from line [k] to its end adds
    the doses of the lines from [k] on to the total of the day. *)
Lemma total_run cfg (inps : list Inputs) :
  forall (st : State) (t : Z) (k : nat),
    (k <= 6)%nat -> wf st ->
    wateringLine st = Z.of_nat k - 1 ->
    oncePerSecond (lastSecond st) t inps -> Forall noRotation inps ->
    wateringLine (runLoop cfg inps st) = -2 ->
    totalAdded (dayAt 2 (runLoop cfg inps st))
    = addDoses cfg st (seq k (6 - k)) (totalAdded (dayAt 2 st)).
Proof.
  induction inps as [|inp inps IH]; intros st t k Hk Hwf Hc Ho Hr He.
  { cbn [runLoop fold_left] in He. lia. }
  cbn [oncePerSecond] in Ho. destruct Ho as (H1 & H2 & H3).
  apply Forall_cons_iff in Hr. destruct Hr as (R1 & R2).
  destruct (watering_loop cfg inp st H1 R1) as (V & D).
  assert (T := total_loop cfg inp st Hwf H1 R1).
  rewrite <- (lastSecond_loop cfg inp st) in H3.
  assert (W' := wf_loop cfg inp st Hwf).
  rewrite runLoop_cons in He |- *.
  unfold wateringView in V. rewrite Hc, H2 in V. rewrite Hc, H2 in T.
  unfold wateringStep in V.
  replace (-1 <=? Z.of_nat k - 1) with true in V, T by (symmetry; apply Z.leb_le; lia).
  replace (Z.of_nat k - 1 + 1) with (Z.of_nat k) in V, T by lia.
  rewrite Nat2Z.id in V, T. cbn [andb] in V, T.
  destruct (Watering.finishTime (watering st) <=? t).
  - destruct (Z.leb_spec lineCount (Z.of_nat k)) as [Hl|Hl]; unfold lineCount in Hl;
      cbn [andb negb] in T.
    + assert (k = 6)%nat by lia. subst k. cbn [Nat.sub seq addDoses fold_left].
      rewrite (total_idle_run cfg inps _ (t + 1)); auto.
      injection V. auto.
    + replace (6 - k)%nat with (S (6 - S k)) by lia. cbn [seq addDoses fold_left].
      fold (addDoses cfg st (seq (S k) (6 - S k))
              (to_uint (totalAdded (dayAt 2 st) + calcWater cfg st 1 k))).
      assert (Hc' : wateringLine (loop cfg inp st) = Z.of_nat (S k) - 1).
      { destruct (_ <=? calcWater cfg st 1 k); injection V; intros _ E;
          rewrite E; lia. }
      rewrite (IH _ (t + 1) (S k)); auto; [|lia].
      rewrite T. apply addDoses_ext, D.
  - cbn [andb] in T.
    assert (Hc' : wateringLine (loop cfg inp st) = Z.of_nat k - 1)
      by (injection V; auto).
    rewrite (IH _ (t + 1) k); auto.
    rewrite T. apply addDoses_ext, D.
Qed.

Lemma wf_dailyRotation : preserves wf dailyRotation.
Proof. preserves_wf. Qed.

(** The pass of 08:00:00 with the watering switch on: the total of the new
    day starts with the dose of line 0. *)
Lemma total_loop_rotation cfg inp (st : State) :
  wf st -> newSecond inp st -> atRotation inp ->
  Automation.water (automation st) = true ->
  Watering.finishTime (watering st) <= getUnixTime (rtcNow inp) ->
  totalAdded (dayAt 2 (loop cfg inp st))
  = to_uint (0 + calcWater cfg (loop cfg inp st) 1 0).
Proof.
  intros Hwf Hn (Hh & Hm & Hs) Ha Hf. rewrite loop_newSecond by exact Hn.
  rewrite everySecond_split.
  assert (WB : wf (beforeRotation (rainRead inp) (tempRead inp) (everyPass inp st)))
    by (apply wf_beforeRotation, wf_everyPass, Hwf).
  assert (TB : time (beforeRotation (rainRead inp) (tempRead inp) (everyPass inp st))
               = rtcNow inp)
    by (rewrite time_beforeRotation; apply time_everyPass).
  assert (AB : automation (beforeRotation (rainRead inp) (tempRead inp)
                             (everyPass inp st)) = automation st).
  { assert (K1 : keeps automation (beforeRotation (rainRead inp) (tempRead inp)))
      by (unfold beforeRotation; keeps_tac).
    assert (K2 : keeps automation (everyPass inp)) by keeps_tac.
    rewrite K1. apply K2. }
  assert (FB : watering (beforeRotation (rainRead inp) (tempRead inp)
                           (everyPass inp st)) = watering st).
  { assert (K1 : keeps watering (beforeRotation (rainRead inp) (tempRead inp)))
      by (unfold beforeRotation; keeps_tac).
    assert (K2 : keeps watering (everyPass inp)) by keeps_tac.
    rewrite K1. apply K2. }
  generalize dependent (beforeRotation (rainRead inp) (tempRead inp) (everyPass inp st)).
  intros sB WB TB AB FB.
  assert (R := previousDays_dailyRotation sB).
  rewrite TB in R. specialize (R Hh Hm Hs).
  assert (E : watering (dailyRotation sB)
              = Watering.mk (-1) (Watering.tallies (watering st))
                  (Watering.finishTime (watering st))).
  { unfold dailyRotation.
    rewrite when_true by (apply timeIs_true; rewrite TB; lia).
    rewrite andThen_apply, when_true
      by (change (automation (rotateDays sB)) with (automation sB); rewrite AB; exact Ha).
    change (watering (set_wateringLine (-1) (rotateDays sB)))
      with (Watering.mk (-1) (Watering.tallies (watering sB))
              (Watering.finishTime (watering sB))).
    rewrite FB. reflexivity. }
  assert (N : now (dailyRotation sB) = getUnixTime (rtcNow inp)).
  { assert (K : keeps time dailyRotation) by keeps_tac.
    unfold now. rewrite K, TB. reflexivity. }
  assert (WR := wf_dailyRotation sB WB).
  generalize dependent (dailyRotation sB). intros sR R E N WR.
  assert (C : forall i, calcWater cfg (afterRotation cfg sR) 1 i = calcWater cfg sR 1 i).
  { intros i. apply calcWater_frame.
    - assert (K : keeps (fun s => Watering.tallies (watering s)) (afterRotation cfg))
        by (unfold afterRotation; keeps_tac).
      apply K.
    - apply olderDays_afterRotation. }
  rewrite C, total_afterRotation, total_wateringSequence by exact WR.
  unfold wateringLine. rewrite E, N. cbn [Watering.currentSolenoid Watering.finishTime].
  change (-1 <=? -1) with true.
  replace (Watering.finishTime (watering st) <=? getUnixTime (rtcNow inp)) with true
    by (symmetry; apply Z.leb_le; exact Hf).
  change (lineCount <=? -1 + 1) with false. cbn [andb negb].
  change (Z.to_nat (-1 + 1)) with 0%nat.
  unfold dayAt at 1. rewrite R. reflexivity.
Qed.

(** X20.  The total of water of a day counts every line the watering
    sequence visits, whether or not the line is opened.  Over a daily
    invocation (the pass of 08:00:00 with the watering switch on and the
    passes after it, once a second, until the sequence is idle again) the
    total of the current day ends up as the sum of the six doses, added in
    an [unsigned int]: the doses of the lines that were skipped because
    they are below the buffer are counted as well. *)
Theorem X20_day_total_counts_every_line (cfg : Settings) (inp : Inputs)
    (inps : list Inputs) (st : State) (t : Z) :
  wf st -> Automation.water (automation st) = true ->
  Watering.finishTime (watering st) <= t ->
  oncePerSecond (lastSecond st) t (inp :: inps) ->
  atRotation inp -> Forall noRotation inps ->
  wateringLine (runLoop cfg (inp :: inps) st) = -2 ->
  totalAdded (dayAt 2 (runLoop cfg (inp :: inps) st))
  = addDoses cfg (loop cfg inp st) lines 0.
Proof.
  intros Hwf Ha Hf Ho Hr Hn He.
  cbn [oncePerSecond] in Ho. destruct Ho as (H1 & H2 & H3).
  assert (V := watering_loop_rotation cfg inp st H1 Hr Ha).
  assert (T := total_loop_rotation cfg inp st Hwf H1 Hr Ha ltac:(rewrite H2; exact Hf)).
  rewrite <- (lastSecond_loop cfg inp st) in H3.
  assert (W' := wf_loop cfg inp st Hwf).
  rewrite runLoop_cons in He |- *.
  assert (C : wateringLine (loop cfg inp st) = Z.of_nat 1 - 1).
  { unfold wateringView, wateringStep in V. rewrite H2 in V.
    change (-1 <=? -1) with true in V.
    replace (Watering.finishTime (watering st) <=? t) with true in V
      by (symmetry; apply Z.leb_le; exact Hf).
    cbn [andb] in V. change (lineCount <=? -1 + 1) with false in V.
    destruct (_ <=? _) in V; injection V; intros _ E; rewrite E; reflexivity. }
  rewrite (total_run cfg inps (loop cfg inp st) (t + 1) 1 ltac:(lia) W' C H3 Hn He).
  rewrite T. reflexivity.
Qed.

Lemma X20_day_total_counts_every_line_witness :
  totalAdded (dayAt 2 (runLoop settings (quietSeconds 7 eightOClock) beforeEightCool))
  = 270
  /\ map (fun i => desired i (runLoop settings (quietSeconds 7 eightOClock)
                                beforeEightCool)) lines
     = repeat false 6.
Proof.
  split; [|reflexivity].
  change (quietSeconds 7 eightOClock)
    with (quietPass eightOClock :: quietSeconds 6 (tick eightOClock)).
  rewrite (X20_day_total_counts_every_line settings (quietPass eightOClock)
             (quietSeconds 6 (tick eightOClock)) beforeEightCool 1072000).
  - reflexivity.
  - vm_compute. repeat split.
  - reflexivity.
  - vm_compute. discriminate.
  - vm_compute. repeat split; discriminate.
  - vm_compute. repeat split.
  - repeat (apply Forall_cons; [vm_compute; right; right; discriminate|]).
    apply Forall_nil.
  - reflexivity.
Defined.
(** ** The solenoid position controller: what holds after every pass *)

Lemma Forall_upd {A} (P : A -> Prop) (i : nat) (v : A) (l : list A) :
  Forall P l -> P v -> Forall P (upd i v l).
Proof.
  intros Hl Hv. revert i. induction Hl as [|a l Ha Hl IH]; intros i.
  - destruct i; constructor.
  - destruct i as [|i].
    + constructor; assumption.
    + constructor; [exact Ha | exact (IH i)].
Qed.

Lemma servoInv_frame (st st' : State) :
  haxSolenoidOn st' = haxSolenoidOn st -> pinLog st' = pinLog st ->
  servoInv st -> servoInv st'.
Proof.
  intros H1 H2. unfold servoInv, lockOf, spinning, level. rewrite H1, H2. auto.
Qed.

Lemma spinPin_not (p : Z) :
  p = pins.trigger \/ isRelay p = true -> forall k, spinPin k <> p.
Proof.
  intros H k. unfold spinPin, pins.spin.
  do 6 (destruct k as [|k];
        [destruct H as [->|H]; [discriminate|];
         intros <-; discriminate|]).
  destruct k; (destruct H as [->|H]; [discriminate | intros <-; discriminate]).
Qed.

Lemma servoInv_digitalWrite (p : Z) (v : bool) :
  p = pins.trigger \/ isRelay p = true -> preserves servoInv (digitalWrite p v).
Proof.
  intros Hp st (L & S & F). split; [exact L|]. split; [|exact F].
  intros H0. specialize (S H0). unfold spinning, level, digitalWrite in *.
  cbn [pinLog set_pinLog levelIn].
  change (lockOf (set_pinLog ((p, v) :: pinLog st) st)) with (lockOf st).
  destruct (Z.eqb_spec p (spinPin (Z.to_nat (lockOf st)))) as [E|E]; [|exact S].
  exfalso. symmetry in E. exact (spinPin_not p Hp _ E).
Qed.

Lemma servoInv_haxSolenoidSet (z : Z) (v : bool) : preserves servoInv (haxSolenoidSet z v).
Proof.
  intros st (L & S & F). split; [exact L|]. split; [exact S|].
  unfold haxSolenoidSet. cbn [haxSolenoidOn set_haxSolenoidOn HaxSolenoidOn.oldState].
  apply Forall_upd; [exact F | lia].
Qed.

Lemma oldStateOf_range (i : nat) (st : State) :
  servoInv st -> -1 <= oldStateOf i st <= 1.
Proof.
  intros (_ & _ & F). unfold oldStateOf.
  destruct (Nat.lt_ge_cases i (length (HaxSolenoidOn.oldState (haxSolenoidOn st)))) as [H|H].
  - rewrite Forall_forall in F. apply F, nth_In, H.
  - rewrite nth_overflow by exact H. lia.
Qed.

Lemma servoInv_serviceSolenoid (i : nat) (r : bool) :
  (i < 6)%nat -> preserves servoInv (serviceSolenoid i r).
Proof.
  intros Hi.
  assert (P1 : preserves servoInv
                 (when (fun st => (oldStateOf i st <? 0)
                                  && negb (getSecond (time st) =? lastSecond st))
                    (reading (oldStateOf i) (fun old => set_oldState i (old + 1))))).
  { intros st H. unfold when.
    destruct ((oldStateOf i st <? 0) && _) eqn:E; [|exact H].
    apply andb_prop in E. destruct E as (E & _). apply Z.ltb_lt in E.
    assert (R := oldStateOf_range i st H).
    destruct H as (L & S & F). split; [exact L|]. split; [exact S|].
    unfold reading, set_oldState.
    cbn [haxSolenoidOn set_haxSolenoidOn HaxSolenoidOn.oldState].
    apply Forall_upd; [exact F | lia]. }
  assert (P2 : preserves servoInv (digitalWrite (spinPin i) HIGH ;; set_lock (Z.of_nat i))).
  { intros st (L & S & F). split; [|split; [|exact F]].
    - unfold lockOf, andThen, set_lock, digitalWrite.
      cbn [haxSolenoidOn set_haxSolenoidOn set_pinLog HaxSolenoidOn.lock]. lia.
    - intros _. unfold spinning, level, lockOf, andThen, set_lock, digitalWrite.
      cbn [haxSolenoidOn set_haxSolenoidOn set_pinLog pinLog HaxSolenoidOn.lock levelIn].
      rewrite Nat2Z.id, Z.eqb_refl. reflexivity. }
  assert (P3 : preserves servoInv (digitalWrite (spinPin i) LOW ;; set_lock (-1))).
  { intros st (L & S & F). split; [|split; [|exact F]].
    - unfold lockOf, andThen, set_lock, digitalWrite.
      cbn [haxSolenoidOn set_haxSolenoidOn set_pinLog HaxSolenoidOn.lock]. lia.
    - unfold lockOf, andThen, set_lock, digitalWrite.
      cbn [haxSolenoidOn set_haxSolenoidOn set_pinLog HaxSolenoidOn.lock]. lia. }
  assert (P4 : preserves servoInv (set_oldState i (b2z r))).
  { intros st (L & S & F). split; [exact L|]. split; [exact S|].
    unfold set_oldState. cbn [haxSolenoidOn set_haxSolenoidOn HaxSolenoidOn.oldState].
    apply Forall_upd; [exact F | destruct r; cbn; lia]. }
  unfold serviceSolenoid.
  apply preserves_andThen; [|apply preserves_when, P4].
  apply preserves_ifElse; apply preserves_when; [|exact P3].
  apply preserves_andThen; [exact P1 | exact P2].
Qed.

Lemma preserves_forLines_lt (P : State -> Prop) (body : nat -> Stmt) :
  (forall j, (j < 6)%nat -> preserves P (body j)) -> preserves P (forLines body).
Proof.
  intros H st Hs. unfold forLines, lines. cbn [seq fold_left].
  repeat (apply H; [lia|]). exact Hs.
Qed.

Ltac servo_leaf :=
  first
    [ apply servoInv_haxSolenoidSet
    | apply servoInv_digitalWrite; first [left; reflexivity | right; reflexivity]
    | let st := fresh "st" in
      let H := fresh "H" in
      intros st H; apply (servoInv_frame st); [reflexivity | reflexivity | exact H] ].

Ltac preserves_servo :=
  lazymatch goal with
  | |- preserves _ (_ ;; _) => apply preserves_andThen; preserves_servo
  | |- preserves _ (when _ _) => apply preserves_when; preserves_servo
  | |- preserves _ (ifElse _ _ _) => apply preserves_ifElse; preserves_servo
  | |- preserves _ (reading _ _) => apply preserves_reading; intro; preserves_servo
  | |- preserves _ (serviceSolenoids _) =>
      apply preserves_forLines_lt; intros; apply servoInv_serviceSolenoid; assumption
  | |- preserves _ (forLines _) => apply preserves_forLines; intro; preserves_servo
  | |- preserves _ skip => apply preserves_skip
  | |- preserves _ (haxSolenoidSet _ _) => apply servoInv_haxSolenoidSet
  | |- preserves _ (digitalWrite _ _) =>
      apply servoInv_digitalWrite; first [left; reflexivity | right; reflexivity]
  | |- preserves _ _ =>
      first [ progress unfold loop, everyPass, everySecond, rainEdge, countDown,
                rainReset, everyMinute, pumpTimes, dailyRotation, wateringSequence,
                fertiliseTrigger, fertilisePriming, fertiliseSweep, haxTimersLoop,
                haxTimer, endOfSecond, safeRelayWrite, menuFertilise, menuNavigate,
                wrapLevel, fertOut, menuHaxTimer; cbv zeta; preserves_servo
            | servo_leaf ]
  end.

Lemma servoInv_loop cfg inp : preserves servoInv (loop cfg inp).
Proof. preserves_servo. Qed.

Lemma servoInv_menuScreen (sk : Sketch) :
  servoInv (core sk) -> servoInv (core (menuScreen sk)).
Proof.
  intros H. screen_cases; try exact H;
    match goal with
    | |- servoInv (?f ?s) =>
        let P := fresh in
        assert (P : preserves servoInv f) by preserves_servo; apply P; exact H
    end.
Qed.

Lemma servoInv_menuPass js p (sk : Sketch) :
  servoInv (core sk) -> servoInv (core (menuPass js p sk)).
Proof.
  intros H. unfold menuPass. cbv zeta. cbn [core].
  assert (P : preserves servoInv (reading menuActivate set_menuChanged ;;
                                  set_menuActivate false)) by preserves_servo.
  apply P.
  assert (N : servoInv (core (onCore (menuNavigate (JSAxis js (analogX p))
                                        (JSAxis js (analogY p))
                                        (analogButton p <? buttonSensitivity js)
                                        (menuJoystick sk)) sk))).
  { rewrite core_onCore.
    assert (Q : preserves servoInv (menuNavigate (JSAxis js (analogX p))
                                      (JSAxis js (analogY p))
                                      (analogButton p <? buttonSensitivity js)
                                      (menuJoystick sk))) by preserves_servo.
    apply Q, H. }
  destruct (menuChanged _); [apply servoInv_menuScreen, N | exact N].
Qed.

Lemma servoInv_setup cfg a start : servoInv (setup cfg a start).
Proof.
  split; [cbn; lia|]. split; [cbn; lia|].
  cbn. repeat constructor; lia.
Qed.

Lemma servoInv_sketchRun cfg js passes :
  forall sk, servoInv (core sk) -> servoInv (core (sketchRun cfg js passes sk)).
Proof.
  induction passes as [|ip passes IH]; intros sk H; [exact H|].
  rewrite sketchRun_cons. apply IH. unfold sketchLoop.
  apply servoInv_menuPass. rewrite core_onCore. apply servoInv_loop, H.
Qed.

(** X17.  After every pass of every run of the whole sketch from [setup],
    whatever the requests, the clock and the joystick do: the solenoid lock
    is free (-1) or holds one of the six lines; the line that holds the lock
    has its spin output HIGH; and every [oldState] cell is -1 (position not
    yet known), 0 or 1. *)
Theorem X17_solenoid_lock_invariant (cfg : Settings) (js : MenuJoystickSettings)
    (reset : bool) (e : EEPROM) (start : DateTime)
    (passes : list (Inputs * Panel)) :
  let st := core (sketchRun cfg js passes (sketchSetup cfg reset e start)) in
  -1 <= lockOf st < 6
  /\ (0 <= lockOf st -> spinning (Z.to_nat (lockOf st)) st = true)
  /\ Forall (fun z => -1 <= z <= 1) (HaxSolenoidOn.oldState (haxSolenoidOn st)).
Proof.
  cbv zeta. apply servoInv_sketchRun.
  unfold sketchSetup. cbv zeta. cbn [core]. apply servoInv_setup.
Qed.
(** ** The trigger of the ultrasonic sensor *)

Lemma pings_digitalWrite (p : Z) (v : bool) (st : State) :
  pings (digitalWrite p v st)
  = if p =? pins.trigger then pings st ++ [v] else pings st.
Proof.
  unfold pings, writesTo, digitalWrite. cbn [pinLog set_pinLog filter fst].
  destruct (p =? pins.trigger); reflexivity.
Qed.

Lemma pings_spin (i : nat) (v : bool) : keeps pings (digitalWrite (spinPin i) v).
Proof.
  intros st. rewrite pings_digitalWrite.
  destruct (Z.eqb_spec (spinPin i) pins.trigger) as [E|E]; [|reflexivity].
  exfalso. exact (spinPin_not pins.trigger (or_introl eq_refl) i E).
Qed.

Ltac keeps_pings :=
  lazymatch goal with
  | |- keeps _ (_ ;; _) => apply keeps_andThen; keeps_pings
  | |- keeps _ (when _ _) => apply keeps_when; keeps_pings
  | |- keeps _ (ifElse _ _ _) => apply keeps_ifElse; keeps_pings
  | |- keeps _ (reading _ _) => apply keeps_reading; intro; keeps_pings
  | |- keeps _ (forLines _) => apply keeps_forLines; intro; keeps_pings
  | |- keeps _ skip => apply keeps_skip
  | |- keeps _ (digitalWrite (spinPin _) _) => apply pings_spin
  | |- keeps _ _ => first [ open_block; keeps_pings | intro; reflexivity ]
  end.

Lemma pings_everyPass inp : keeps pings (everyPass inp).
Proof. keeps_pings. Qed.

Lemma pings_afterMinute cfg :
  keeps pings (pumpTimes ;; dailyRotation ;; afterRotation cfg).
Proof. unfold afterRotation. keeps_pings. Qed.

Lemma pings_beforeMinute rain : keeps pings (countDown ;; rainReset rain).
Proof. keeps_pings. Qed.

Lemma pings_everyMinute temp (st : State) :
  pings (everyMinute temp st)
  = pings st ++ (if ((getSecond (time st) =? 0) || firstLoop st)
                      && (noPinInterrupts st =? 0)
                 then [LOW; HIGH; LOW] else []).
Proof.
  rewrite (Z.eqb_sym (getSecond (time st)) 0).
  unfold everyMinute, when, andThen, reading, timeIs, timeCheck.
  change (-1 <? 0) with true. change (0 <? 0) with false. cbn [orb andb].
  destruct ((0 =? getSecond (time st)) || firstLoop st); cbn [andb];
    [|rewrite app_nil_r; reflexivity].
  match goal with
  | |- context [if negb (Qle_bool ?a ?b) then _ else _] => destruct (Qle_bool a b)
  end; cbn [negb];
    unfold set_todayMaxTemp, set_day, set_temperature, set_previousDays;
    cbn [noPinInterrupts];
    (destruct (noPinInterrupts st =? 0);
     [ match goal with
       | |- context [if ?c then _ else _] => destruct c
       end;
       unfold pings, writesTo, digitalWrite, set_menuChanged, set_menu, set_pinLog;
       cbn [pinLog filter fst snd map rev Z.eqb pins.trigger Pos.eqb];
       rewrite <- ?app_assoc; reflexivity
     | match goal with
       | |- context [if ?c then _ else _] => destruct c
       end;
       unfold pings, set_menuChanged, set_menu; cbn [pinLog];
       rewrite app_nil_r; reflexivity ]).
Qed.

(** X21.  One pass of [loop] writes to the trigger of the ultrasonic sensor
    either nothing or the pulse LOW, HIGH, LOW, and nothing else in the loop
    touches that output.  The pulse is sent in the first pass of a second
    whose second value is 0 (or in the first pass after [setup]) when the
    relay cooldown counter was 0 or 1 at the start of the pass: the counter
    is counted down before it is tested, so a reading is started one second
    after a relay switched, while the interrupt handler still ignores the
    echo when the counter was 2. *)
Theorem X21_tank_ping_once_a_minute (cfg : Settings) (inp : Inputs) (st : State) :
  pings (loop cfg inp st)
  = pings st
    ++ (if negb (getSecond (rtcNow inp) =? lastSecond st)
           && ((getSecond (rtcNow inp) =? 0) || firstLoop st)
           && ((noPinInterrupts st =? 0) || (noPinInterrupts st =? 1))
        then [LOW; HIGH; LOW] else []).
Proof.
  unfold loop. unfold andThen at 1. unfold when.
  assert (Kp := pings_everyPass inp st).
  assert (Kt : time (everyPass inp st) = rtcNow inp).
  { assert (K : keeps time (serviceSolenoids (solenoidRead inp) ;; rainEdge (rainRead inp)))
      by keeps_tac.
    unfold everyPass. unfold andThen at 1. rewrite K. reflexivity. }
  assert (Kl : lastSecond (everyPass inp st) = lastSecond st).
  { assert (K : keeps lastSecond (everyPass inp)) by keeps_tac. apply K. }
  assert (Kf : firstLoop (everyPass inp st) = firstLoop st).
  { assert (K : keeps firstLoop (everyPass inp)) by keeps_tac. apply K. }
  assert (Kn : noPinInterrupts (everyPass inp st) = noPinInterrupts st)
    by apply noPinInterrupts_everyPass.
  generalize dependent (everyPass inp st). intros s Kp Kt Kl Kf Kn.
  rewrite Kt, Kl.
  destruct (getSecond (rtcNow inp) =? lastSecond st); cbn [negb andb];
    [rewrite app_nil_r; exact Kp|].
  change (everySecond cfg (rainRead inp) (tempRead inp))
    with (countDown ;; rainReset (rainRead inp) ;; everyMinute (tempRead inp) ;;
          (pumpTimes ;; dailyRotation ;; afterRotation cfg)).
  unfold andThen at 1 2 3.
  rewrite (pings_afterMinute cfg), pings_everyMinute.
  assert (Q1 : keeps time (countDown ;; rainReset (rainRead inp))) by keeps_tac.
  assert (Q2 : keeps firstLoop (countDown ;; rainReset (rainRead inp))) by keeps_tac.
  assert (Q3 : keeps noPinInterrupts (rainReset (rainRead inp))) by keeps_tac.
  assert (Q4 := pings_beforeMinute (rainRead inp) s).
  unfold andThen in Q1, Q2, Q4. rewrite Q1, Q2, Q3, Q4, Kt, Kf, Kp.
  f_equal.
  assert (E : (noPinInterrupts (countDown s) =? 0)
              = (noPinInterrupts st =? 0) || (noPinInterrupts st =? 1)).
  { unfold countDown, when, reading. rewrite Kn.
    destruct (Z.eqb_spec (noPinInterrupts st) 0) as [E0|E0]; cbn [negb orb].
    - rewrite Kn. apply Z.eqb_eq, E0.
    - unfold set_noPinInterrupts. cbn [noPinInterrupts]. rewrite ?Kn.
      destruct (Z.eqb_spec (noPinInterrupts st) 1) as [E1|E1].
      + rewrite E1. reflexivity.
      + apply Z.eqb_neq. lia. }
  rewrite E. reflexivity.
Qed.
